(** * Personal AI Employee: task / approval lifecycle

    A shallow embedding of the lifecycle code of the repository
    (orchestrator.py, watchers/gmail_watcher.py, watchers/filesystem_watcher.py,
    scripts/scheduler.py and the approval-workflow, plan-creator and
    gmail-watcher skills) together with the properties of its specification.

    Conventions.
    - Python [str] values are modelled as [string] (one-byte characters); the
      text handled by the embedded functions is ASCII.
    - A Python call that may raise is a value of [result]: [Ok v] or
      [Raise e].
    - The wall clock ([datetime.now()]) is an explicit argument [now].
    - The vault is a finite map from folder names to folders, a folder a
      finite map from file names to nodes. *)

From Stdlib Require Import Ascii String NArith ZArith Lia.
From stdpp Require Import gmap strings list sorting pretty.

Open Scope string_scope.
Open Scope nat_scope.
Open Scope N_scope.

#[global] Set Warnings "-clear-no-such-hyp".

(** ** Python results *)

Inductive exn :=
| ValueError | ZeroDivisionError | IndexError | TypeError
| FileNotFoundError | FileExistsError | IsADirectoryError
| TimeoutExpired | HttpError (status : nat) | OSError.

Inductive result (A : Type) :=
| Ok (a : A)
| Raise (e : exn).
Arguments Ok {A} a.
Arguments Raise {A} e.

(** ** Python string primitives *)

Module PyStr.

(** [c.isspace()] on the ASCII range: TAB .. CR, FS .. US and the blank. *)
Definition isspace (c : ascii) : bool :=
  let n := N_of_ascii c in
  ((9 <=? n) && (n <=? 13)) || ((28 <=? n) && (n <=? 32)).

(** [s.startswith(p)] *)
Fixpoint startswith (p s : string) : bool :=
  match p with
  | EmptyString => true
  | String a p' =>
      match s with
      | EmptyString => false
      | String b s' => if Ascii.eqb a b then startswith p' s' else false
      end
  end.

(** [needle in hay] *)
Fixpoint contains (needle hay : string) : bool :=
  match hay with
  | EmptyString => startswith needle EmptyString
  | String _ hay' => startswith needle hay || contains needle hay'
  end.

(** [c in s] for a single character. *)
Fixpoint has_char (c : ascii) (s : string) : bool :=
  match s with
  | EmptyString => false
  | String a s' => Ascii.eqb a c || has_char c s'
  end.

(** [s.split(sep)] for a one-character separator: never the empty list. *)
Fixpoint split (sep : ascii) (s : string) : list string :=
  match s with
  | EmptyString => [EmptyString]
  | String c s' =>
      if Ascii.eqb c sep then EmptyString :: split sep s'
      else match split sep s' with
           | [] => [String c EmptyString]
           | p :: ps => String c p :: ps
           end
  end.

(** [sep.join(parts)] *)
Fixpoint join (sep : string) (parts : list string) : string :=
  match parts with
  | [] => EmptyString
  | [p] => p
  | p :: ps => p ++ sep ++ join sep ps
  end.

Fixpoint lstrip (s : string) : string :=
  match s with
  | EmptyString => EmptyString
  | String c s' => if isspace c then lstrip s' else s
  end.

Fixpoint rstrip (s : string) : string :=
  match s with
  | EmptyString => EmptyString
  | String c s' =>
      match rstrip s' with
      | EmptyString => if isspace c then EmptyString else String c EmptyString
      | r => String c r
      end
  end.

(** [s.strip()] *)
Definition strip (s : string) : string := rstrip (lstrip s).

(** [s[:n]] *)
Fixpoint take (n : nat) (s : string) : string :=
  match n, s with
  | S n', String c s' => String c (take n' s')
  | _, _ => EmptyString
  end.

(** [s[n:]] *)
Fixpoint drop (n : nat) (s : string) : string :=
  match n, s with
  | S n', String _ s' => drop n' s'
  | _, _ => s
  end.

(** [s.lower()] on ASCII letters. *)
Definition lower_char (c : ascii) : ascii :=
  let n := N_of_ascii c in
  if (65 <=? n) && (n <=? 90) then ascii_of_N (n + 32) else c.

Fixpoint lower (s : string) : string :=
  match s with
  | EmptyString => EmptyString
  | String c s' => String (lower_char c) (lower s')
  end.

(** Whether every character of [s] satisfies [P]. *)
Fixpoint all_chars (P : ascii -> bool) (s : string) : bool :=
  match s with
  | EmptyString => true
  | String c s' => P c && all_chars P s'
  end.

(** Truthiness of a string: [bool(s)]. *)
Definition truthy (s : string) : bool :=
  match s with EmptyString => false | _ => true end.

(** Decimal digits. *)
Definition digit_val (c : ascii) : option N :=
  let n := N_of_ascii c in
  if (48 <=? n) && (n <=? 57) then Some (n - 48) else None.

Definition digit_char (d : N) : ascii := ascii_of_N (48 + d).

Definition is_digit (c : ascii) : bool :=
  match digit_val c with Some _ => true | None => false end.

(** Reads a run of decimal digits, most significant first. *)
Fixpoint digits_acc (acc : N) (s : string) : option N :=
  match s with
  | EmptyString => Some acc
  | String c s' =>
      match digit_val c with
      | Some d => digits_acc (acc * 10 + d) s'
      | None => None
      end
  end.

Definition digits (s : string) : option N :=
  match s with
  | EmptyString => None
  | _ => digits_acc 0 s
  end.

(** [n] written with exactly [width] decimal digits, zero padded
    (the ["%02d"], ["%04d"] and ["%06d"] of [isoformat] and [strftime]). *)
Fixpoint pad (width : nat) (n : N) : string :=
  match width with
  | O => EmptyString
  | S w => pad w (n / 10) ++ String (digit_char (n mod 10)) EmptyString
  end.

(** The white space that [int] skips around a numeral of ASCII text: TAB .. CR
    and the blank.  FS .. US, which [str.strip] removes, make [int] raise. *)
Definition is_blank (c : ascii) : bool :=
  let n := N_of_ascii c in
  ((9 <=? n) && (n <=? 13)) || (n =? 32).

Fixpoint skip_left (s : string) : string :=
  match s with
  | EmptyString => EmptyString
  | String c s' => if is_blank c then skip_left s' else s
  end.

Fixpoint skip_right (s : string) : string :=
  match s with
  | EmptyString => EmptyString
  | String c s' =>
      match skip_right s' with
      | EmptyString => if is_blank c then EmptyString else String c EmptyString
      | r => String c r
      end
  end.

(** [int(s)] for ASCII text: surrounding white space, an optional sign, then
    decimal digits in which single underscores may separate digits.
    [None] stands for [ValueError]. *)
Fixpoint int_digits (acc : N) (after_digit : bool) (s : string) : option N :=
  match s with
  | EmptyString => if after_digit then Some acc else None
  | String c s' =>
      match digit_val c with
      | Some d => int_digits (acc * 10 + d) true s'
      | None =>
          if Ascii.eqb c "_" && after_digit then
            match s' with
            | EmptyString => None
            | String c' _ =>
                match digit_val c' with
                | Some _ => int_digits acc false s'
                | None => None
                end
            end
          else None
      end
  end.

Definition int (s : string) : option Z :=
  match skip_right (skip_left s) with
  | String "+" r => Z.of_N <$> int_digits 0 false r
  | String "-" r => (fun n => (- Z.of_N n)%Z) <$> int_digits 0 false r
  | r => Z.of_N <$> int_digits 0 false r
  end.

End PyStr.

(** ** Naive [datetime] values *)

Module PyTime.
Import PyStr.

Record datetime := mk_datetime {
  year : N; month : N; day : N;
  hour : N; minute : N; second : N; microsecond : N
}.

Definition is_leap (y : N) : bool :=
  ((y mod 4 =? 0) && negb (y mod 100 =? 0)) || (y mod 400 =? 0).

Definition days_in_month (y m : N) : N :=
  match m with
  | 2 => if is_leap y then 29 else 28
  | 4 | 6 | 9 | 11 => 30
  | _ => 31
  end.

(** The range check of the [datetime] constructor. *)
Definition valid (d : datetime) : bool :=
  (1 <=? year d) && (year d <=? 9999) &&
  (1 <=? month d) && (month d <=? 12) &&
  (1 <=? day d) && (day d <=? days_in_month (year d) (month d)) &&
  (hour d <? 24) && (minute d <? 60) && (second d <? 60) &&
  (microsecond d <? 1000000).

Definition fields (d : datetime) : list N :=
  [year d; month d; day d; hour d; minute d; second d; microsecond d].

(** Lexicographic order, the order of tuples. *)
Fixpoint lex_ltb (a b : list N) : bool :=
  match a, b with
  | x :: a', y :: b' => (x <? y) || ((x =? y) && lex_ltb a' b')
  | [], _ :: _ => true
  | _, [] => false
  end.

(** [a > b] on naive datetimes. *)
Definition gtb (a b : datetime) : bool := lex_ltb (fields b) (fields a).

(** [d.isoformat()] *)
Definition isoformat (d : datetime) : string :=
  pad 4 (year d) ++ "-" ++ pad 2 (month d) ++ "-" ++ pad 2 (day d) ++ "T" ++
  pad 2 (hour d) ++ ":" ++ pad 2 (minute d) ++ ":" ++ pad 2 (second d) ++
  (if microsecond d =? 0 then "" else "." ++ pad 6 (microsecond d)).

(** [d.strftime('%H:%M')] *)
Definition strftime_HM (d : datetime) : string :=
  pad 2 (hour d) ++ ":" ++ pad 2 (minute d).

(** [d.toordinal()]: days since 0001-01-01, that day being day 1. *)
Definition days_before_year (y : N) : N :=
  let p := y - 1 in p * 365 + p / 4 - p / 100 + p / 400.

Definition days_before_month (y m : N) : N :=
  N.recursion 0 (fun k acc => acc + days_in_month y (k + 1)) (m - 1).

Definition toordinal (d : datetime) : N :=
  days_before_year (year d) + days_before_month (year d) (month d) + day d.

Inductive weekday :=
| Monday | Tuesday | Wednesday | Thursday | Friday | Saturday | Sunday.

#[export] Instance weekday_eq_dec : EqDecision weekday.
Proof. solve_decision. Defined.

Definition day_name (w : weekday) : string :=
  match w with
  | Monday => "Monday" | Tuesday => "Tuesday" | Wednesday => "Wednesday"
  | Thursday => "Thursday" | Friday => "Friday" | Saturday => "Saturday"
  | Sunday => "Sunday"
  end.

(** [d.weekday()] *)
Definition weekday_of (d : datetime) : weekday :=
  match (toordinal d + 6) mod 7 with
  | 0 => Monday | 1 => Tuesday | 2 => Wednesday | 3 => Thursday
  | 4 => Friday | 5 => Saturday | _ => Sunday
  end.

(** [d.strftime('%A')] in the C locale. *)
Definition strftime_A (d : datetime) : string := day_name (weekday_of d).

(** Exactly [n] leading characters and the rest. *)
Fixpoint take_exact (n : nat) (s : string) : option (string * string) :=
  match n with
  | O => Some (EmptyString, s)
  | S n' =>
      match s with
      | EmptyString => None
      | String c s' =>
          match take_exact n' s' with
          | Some (p, r) => Some (String c p, r)
          | None => None
          end
      end
  end.

(** A fixed-width decimal field followed by the rest of the text. *)
Definition field (n : nat) (s : string) : option (N * string) :=
  match take_exact n s with
  | Some (p, r) => match digits p with
                   | Some v => Some (v, r)
                   | None => None
                   end
  | None => None
  end.

(** The time part [HH[:MM[:SS[.fff[fff]]]]] of an ISO string. *)
Definition parse_fraction (f : string) : option N :=
  if (String.length f =? 3)%nat then (fun v => v * 1000) <$> digits f
  else if (String.length f =? 6)%nat then digits f
  else None.

Definition parse_hh_mm_ss_ff (t : string) : option (N * N * N * N) :=
  match field 2 t with
  | None => None
  | Some (h, EmptyString) => Some (h, 0, 0, 0)
  | Some (h, String ":" r1) =>
      match field 2 r1 with
      | None => None
      | Some (mi, EmptyString) => Some (h, mi, 0, 0)
      | Some (mi, String ":" r2) =>
          match field 2 r2 with
          | None => None
          | Some (s, EmptyString) => Some (h, mi, s, 0)
          | Some (s, String "." f) =>
              match parse_fraction f with
              | Some us => Some (h, mi, s, us)
              | None => None
              end
          | Some _ => None
          end
      | Some _ => None
      end
  | Some _ => None
  end.

(** [datetime.fromisoformat(s)] as far as it yields a naive datetime, with
    the grammar of Python 3.7 to 3.10, the inverse of [isoformat]:
    [YYYY-MM-DD[*HH[:MM[:SS[.fff[fff]]]]]].  (From 3.11 on the function also
    reads the other ISO 8601 forms, such as [YYYYMMDD] and [YYYY-Www-D];
    what [isoformat] writes is read alike by all versions.)  [None] stands
    for [ValueError] and for a string carrying a UTC offset: the offset makes
    the datetime aware, and comparing it with the naive [datetime.now()]
    raises [TypeError]; callers that guard both calls with one
    [except Exception] cannot tell the two apart. *)
Definition fromisoformat (s : string) : option datetime :=
  match field 4 s with
  | Some (y, String "-" r1) =>
      match field 2 r1 with
      | Some (m, String "-" r2) =>
          match field 2 r2 with
          | Some (d, rest) =>
              let time :=
                match rest with
                | EmptyString => Some (0, 0, 0, 0)
                | String _ t =>
                    if has_char "+" t || has_char "-" t then None
                    else parse_hh_mm_ss_ff t
                end in
              match time with
              | Some (h, mi, sec, us) =>
                  let r := mk_datetime y m d h mi sec us in
                  if valid r then Some r else None
              | None => None
              end
          | None => None
          end
      | _ => None
      end
  | _ => None
  end.

(** The text of [isoformat] up to the hour, and what follows the colon
    after it. *)
Definition hour_text (e : datetime) : string :=
  pad 4 (year e) ++ "-" ++ pad 2 (month e) ++ "-" ++ pad 2 (day e) ++ "T" ++
  pad 2 (hour e).

Definition tail_text (e : datetime) : string :=
  pad 2 (minute e) ++ ":" ++ pad 2 (second e) ++
  (if microsecond e =? 0 then "" else "." ++ pad 6 (microsecond e)).

(** The clock reading truncated to the full hour. *)
Definition on_the_hour (d : datetime) : datetime :=
  mk_datetime (year d) (month d) (day d) (hour d) 0 0 0.

End PyTime.

(** ** The vault: lifecycle folders on a file system *)

Module Vault.

(** A directory entry.  A sub-directory is opaque, only its emptiness matters
    (to [rename]). *)
Inductive node :=
| File (content : string)
| Dir (empty : bool).

Abbreviation folder := (gmap string node).
Abbreviation vault := (gmap string folder).

(** [os.rename] replaces an existing target on POSIX and refuses it on
    Windows. *)
Inductive platform := Posix | Windows.

(** File-system actions thread the vault and may raise. *)
Definition FS (A : Type) : Type := vault -> result A * vault.

Definition ret {A} (a : A) : FS A := fun v => (Ok a, v).
Definition raise {A} (e : exn) : FS A := fun v => (Raise e, v).
Definition bind {A B} (m : FS A) (k : A -> FS B) : FS B :=
  fun v => match m v with
           | (Ok a, v') => k a v'
           | (Raise e, v') => (Raise e, v')
           end.

(** A folder is a directory as [iterdir] lists it: its keys are entry names.
    [plain_name name] says that [name] is such a name, so that [dir / name]
    is the entry [name] of [dir]: it is a single path component.  The empty
    name and ["."] make [dir / name] the folder itself, [".."] its parent, a
    name with a separator a path below or outside the folder; the backslash
    and the colon separate on Windows.  Names are compared as a
    case-sensitive directory compares them. *)
Definition plain_name (name : string) : bool :=
  negb (String.eqb name "") && negb (String.eqb name ".")
  && negb (String.eqb name "..")
  && negb (PyStr.has_char "/" name) && negb (PyStr.has_char "\" name)
  && negb (PyStr.has_char ":" name) && negb (PyStr.has_char "000" name).

(** The entry [name] of the folder [dir]. *)
Definition lookup_node (v : vault) (dir name : string) : option node :=
  match v !! dir with
  | Some f => f !! name
  | None => None
  end.

(** [(dir / name).exists()], for a [name] that is a [plain_name]. *)
Definition exists_ (dir name : string) : FS bool :=
  fun v => (Ok (bool_decide (is_Some (lookup_node v dir name))), v).

(** [(dir / name).read_text()], for a [name] that is a [plain_name] and a
    file that opens and decodes. *)
Definition read_text (dir name : string) : FS string :=
  fun v => match lookup_node v dir name with
           | Some (File c) => (Ok c, v)
           | Some (Dir _) => (Raise IsADirectoryError, v)
           | None => (Raise FileNotFoundError, v)
           end.

(** [dir.iterdir()]: the entries of a folder, in the order of the directory. *)
Definition iterdir (dir : string) : FS (list (string * node)) :=
  fun v => match v !! dir with
           | Some f => (Ok (map_to_list f), v)
           | None => (Raise FileNotFoundError, v)
           end.

Definition move (v : vault) (sdir sname ddir dname : string) (n : node)
    (sf df : folder) : vault :=
  if decide (sdir = ddir)
  then <[sdir := <[dname := n]> (delete sname sf)]> v
  else <[ddir := <[dname := n]> df]> (<[sdir := delete sname sf]> v).

(** [(sdir / sname).rename(ddir / dname)]: one [rename(2)] call. *)
Definition rename (pf : platform) (sdir sname ddir dname : string) : FS unit :=
  fun v =>
    match v !! sdir, v !! ddir with
    | Some sf, Some df =>
        match sf !! sname with
        | None => (Raise FileNotFoundError, v)
        | Some n =>
            if decide (sdir = ddir /\ sname = dname) then (Ok tt, v)
            else
              match df !! dname with
              | None => (Ok tt, move v sdir sname ddir dname n sf df)
              | Some old =>
                  match pf with
                  | Windows => (Raise FileExistsError, v)
                  | Posix =>
                      match n, old with
                      | File _, File _ | Dir _, Dir true =>
                          (Ok tt, move v sdir sname ddir dname n sf df)
                      | File _, Dir _ => (Raise IsADirectoryError, v)
                      | Dir _, File _ => (Raise OSError, v)
                      | Dir _, Dir false => (Raise OSError, v)
                      end
                  end
              end
        end
    | _, _ => (Raise FileNotFoundError, v)
    end.

End Vault.

Notation "'do' x <- m ; k" := (Vault.bind m (fun x => k))
  (at level 10, x name, m at level 100, k at level 200).

(** ** approval-manager.py *)

Module ApprovalManager.
Import PyStr PyTime Vault.

Definition nl : ascii := "010"%char.

Definition pending_approval := "Pending_Approval".
Definition approved := "Approved".
Definition rejected := "Rejected".
Definition done := "Done".

(** The header line [create_approval] writes for the expiry:
    [expires: {expiry.isoformat()}]. *)
Definition expires_line (expiry : datetime) : string :=
  "expires: " ++ isoformat expiry.

(** The [try] block of [check_status] for one line: [true] when it returns
    ['expired'], [false] when it falls through, also through the
    [except Exception: pass]. *)
Definition line_expired (now : datetime) (line : string) : bool :=
  match split ":" line with
  | _ :: f :: _ =>
      match fromisoformat (strip f) with
      | Some expiry => gtb now expiry
      | None => false
      end
  | _ => false
  end.

(** [for line in content.split('\n')] *)
Fixpoint any_line_expired (now : datetime) (lines : list string) : bool :=
  match lines with
  | [] => false
  | line :: rest =>
      if contains "expires:" line && line_expired now line then true
      else any_line_expired now rest
  end.

(** The body of the [status == 'pending'] branch, up to [return status]. *)
Definition pending_status (now : datetime) (content : string) : string :=
  if contains "expires:" content
     && any_line_expired now (split nl content)
  then "expired" else "pending".

(** The [folders] dictionary, in insertion order. *)
Definition folders : list (string * string) :=
  [("pending", pending_approval); ("approved", approved);
   ("rejected", rejected); ("done", done)].

Fixpoint check_status_in (tbl : list (string * string)) (now : datetime)
    (filename : string) : FS string :=
  match tbl with
  | [] => ret "not_found"
  | (status, dir) :: tbl' =>
      do found <- exists_ dir filename;
      if found then
        if String.eqb status "pending" then
          do content <- read_text dir filename;
          ret (pending_status now content)
        else ret status
      else check_status_in tbl' now filename
  end.

Definition check_status (now : datetime) (filename : string) : FS string :=
  check_status_in folders now filename.

(** [filepath.suffix]: from the last dot, unless that dot leads or ends the
    name. *)
Fixpoint rfind_dot (s : string) : option nat :=
  match s with
  | EmptyString => None
  | String c s' =>
      match rfind_dot s' with
      | Some i => Some (S i)
      | None => if Ascii.eqb c "." then Some O else None
      end
  end.

Definition suffix (name : string) : string :=
  match rfind_dot name with
  | Some i =>
      if (0 <? i)%nat && (i <? String.length name - 1)%nat
      then PyStr.drop i name else ""
  | None => ""
  end.

(** [process_approved]: every regular [.md] file of Approved is renamed into
    Done; the first failing [rename] propagates. *)
Fixpoint process_entries (pf : platform) (entries : list (string * node))
    (processed : list string) : FS (list string) :=
  match entries with
  | [] => ret processed
  | (name, n) :: rest =>
      match n with
      | File _ =>
          if String.eqb (suffix name) ".md" then
            do _ <- rename pf approved name done name;
            process_entries pf rest (processed ++ [name])
          else process_entries pf rest processed
      | Dir _ => process_entries pf rest processed
      end
  end.

Definition process_approved (pf : platform) : FS (list string) :=
  do entries <- iterdir approved;
  process_entries pf entries [].

End ApprovalManager.

(** ** plan-manager.py *)

Module PlanManager.
Import PyStr Vault.

Definition plans_folder := "Plans".
Definition done := "Done".

(** [s.endswith('.md')] *)
Definition endswith_md (s : string) : bool :=
  (3 <=? String.length s)%nat &&
  String.eqb (PyStr.drop (String.length s - 3) s) ".md".

(** [_find_file]: the name under which the plan is found in Plans. *)
Definition _find_file (filename : string) : FS (option string) :=
  do found <- exists_ plans_folder filename;
  if found then ret (Some filename)
  else if negb (endswith_md filename) then
    do found' <- exists_ plans_folder (filename ++ ".md");
    if found' then ret (Some (filename ++ ".md")) else ret None
  else ret None.

Definition complete_plan (pf : platform) (filename : string) : FS bool :=
  do filepath <- _find_file filename;
  match filepath with
  | None => ret false
  | Some src =>
      do _ <- rename pf plans_folder src done filename;
      ret true
  end.

End PlanManager.

(** ** orchestrator.py *)

Module Orchestrator.
Import PyStr.

(** One entry of Needs_Action as a scan meets it: its name, whether it is a
    regular file, and what [open] followed by [read] gives (the text of the
    file, or the exception of a file that is still being written). *)
Record entry := mk_entry {
  name : string;
  is_file : bool;
  opened : result string
}.

(** The outcome of the external agent process. *)
Inductive agent_outcome :=
| Completed (output : string)
| CommandNotFound
| TimedOut
| Crashed.

Record state := mk_state {
  processed_files : gset string;
  events : list string
}.

(** [Orchestrator.__init__] *)
Definition init : state := mk_state ∅ [].

Definition log_event (event_type : string) (st : state) : state :=
  mk_state (processed_files st) (events st ++ [event_type]).

(** The loop of [check_for_new_tasks] over the directory listing. *)
Fixpoint scan (entries : list entry) (seen : gset string)
    (new_tasks : list string) : list string * gset string :=
  match entries with
  | [] => (new_tasks, seen)
  | e :: rest =>
      if is_file e && String.eqb (ApprovalManager.suffix (name e)) ".md" then
        if bool_decide (name e ∉ seen) then
          match opened e with
          | Ok text =>
              if truthy (strip (take 10 text))
              then scan rest ({[name e]} ∪ seen) (new_tasks ++ [name e])
              else scan rest seen new_tasks
          | Raise _ => scan rest seen new_tasks
          end
        else scan rest seen new_tasks
      else scan rest seen new_tasks
  end.

(** [check_for_new_tasks]; a failing [iterdir] is caught and reported. *)
Definition check_for_new_tasks (dir : result (list entry)) (st : state)
    : list string * state :=
  match dir with
  | Ok entries =>
      let '(new_tasks, seen) := scan entries (processed_files st) [] in
      (new_tasks, mk_state seen (events st))
  | Raise _ => ([], st)
  end.

(** [trigger_qwen_code]: whether the agent ran to completion. *)
Definition trigger_qwen_code (task_files : list string) (o : agent_outcome)
    (st : state) : bool * state :=
  let st1 := log_event "qwen_triggered" st in
  match o with
  | Completed _ => (true, log_event "qwen_completed" st1)
  | CommandNotFound | TimedOut | Crashed => (false, log_event "qwen_error" st1)
  end.

(** One turn of the loop of [run]; the dashboard update and the sleeps
    leave the state alone. *)
Definition cycle (dir : result (list entry)) (o : agent_outcome) (st : state)
    : list string * state :=
  let '(new_tasks, st1) := check_for_new_tasks dir st in
  match new_tasks with
  | [] => (new_tasks, st1)
  | _ => (new_tasks, snd (trigger_qwen_code new_tasks o st1))
  end.

(** The batches scanned by successive turns of the loop. *)
Fixpoint run (turns : list (result (list entry) * agent_outcome)) (st : state)
    : list (list string) * state :=
  match turns with
  | [] => ([], st)
  | (dir, o) :: rest =>
      let '(batch, st1) := cycle dir o st in
      let '(batches, st2) := run rest st1 in
      (batch :: batches, st2)
  end.

End Orchestrator.

(** ** Python sets of strings *)

Module PySet.

(** A set is kept as its members in the order they were added.  The order in
    which Python iterates over it is decided by the hash table; all that the
    language promises is that every member comes once. *)
Class SetOrder := {
  iter_order : list string -> list string;
  iter_order_perm : forall members, iter_order members ≡ₚ members
}.

Abbreviation pyset := (list string).

Definition empty : pyset := [].

(** [x in s] *)
Definition mem (x : string) (s : pyset) : bool := existsb (String.eqb x) s.

(** [s.add(x)] *)
Definition add (x : string) (s : pyset) : pyset :=
  if mem x s then s else (s ++ [x])%list.

(** [set(l)] *)
Definition of_list (l : list string) : pyset :=
  foldl (fun s x => add x s) empty l.

(** [list(s)] *)
Definition to_list `{SetOrder} (s : pyset) : list string := iter_order s.

(** [l[-n:]] for [n > 0] *)
Definition last_n {A} (n : nat) (l : list A) : list A :=
  drop (length l - n) l.

(** A set that iterates in insertion order. *)
Program Definition insertion_order : SetOrder :=
  {| iter_order := fun members => members |}.
Next Obligation. reflexivity. Qed.

(** A set that iterates by ascending slot, the slot a function of the
    member's hash. *)
Definition slot_le (hash : string -> N) : relation string :=
  fun a b => (hash a <= hash b)%N.

#[export] Instance slot_le_dec hash : RelDecision (slot_le hash).
Proof. intros a b. unfold slot_le. apply _. Defined.

Program Definition slot_order (hash : string -> N) : SetOrder :=
  {| iter_order := merge_sort (slot_le hash) |}.
Next Obligation. intros. apply merge_sort_Permutation. Qed.

End PySet.

(** ** Gmail messages *)

Module Gmail.
Import PyStr.

(** A MIME part: its [filename], if any, and its sub-parts. *)
#[local] Unset Elimination Schemes.
Inductive part := Part (filename : option string) (parts : list part).
#[local] Set Elimination Schemes.

(** What [messages.get] returns for a message id, apart from the id. *)
Record body := mk_body {
  headers : list (string * string);
  labelIds : list string;
  payload : part
}.

(** A message; [id] is the id under which it was listed and fetched. *)
Record message := mk_message { id : string; content : body }.

(** One item of [messages.list]: the id, and the outcome of fetching it. *)
Record listed := mk_listed { msg_id : string; fetched : result body }.

(** [{key(h['name']): h['value'] for h in headers}.get(k, default)]: the
    last header of that name wins. *)
Fixpoint headers_get (key : string -> string) (hs : list (string * string))
    (k default : string) : string :=
  match hs with
  | [] => default
  | (n, v) :: rest =>
      headers_get key rest k (if String.eqb (key n) k then v else default)
  end.

(** [any(kw.lower() in text for kw in kws)] *)
Definition any_keyword (kws : list string) (text : string) : bool :=
  existsb (fun kw => contains (lower kw) text) kws.

(** [x in labels] *)
Definition has_label (x : string) (labels : list string) : bool :=
  existsb (String.eqb x) labels.

Definition option_truthy (o : option string) : bool :=
  match o with Some s => truthy s | None => false end.

End Gmail.

(** ** watchers/gmail_watcher.py *)

Module GmailWatcher.
Import PyStr PySet Gmail.

Record state := mk_state {
  processed_ids : pyset;
  service : bool;
  cache_file : option (list string);
  cache_writes : nat
}.

Definition keywords : list string :=
  ["urgent"; "invoice"; "payment"; "asap"; "important"; "help";
   "action required"].
Definition vip_senders : list string := [].

(** [_load_processed_ids]: the ids of the cache file, if it is there. *)
Definition _load_processed_ids (file : option (list string)) : pyset :=
  match file with
  | Some ids => of_list ids
  | None => empty
  end.

(** [GmailWatcher.__init__] followed by a successful [authenticate]. *)
Definition init (file : option (list string)) : state :=
  mk_state (_load_processed_ids file) true file 0.

(** [_save_processed_ids]; writing the file is taken to succeed. *)
Definition _save_processed_ids `{SetOrder} (st : state) : state :=
  let ids_list := last_n 1000 (to_list (processed_ids st)) in
  mk_state (processed_ids st) (service st) (Some ids_list)
           (S (cache_writes st)).

Fixpoint _has_attachments (p : part) : bool :=
  match p with
  | Part filename parts =>
      match filename with
      | Some f => truthy f && truthy (strip f)
      | None => false
      end
      || existsb _has_attachments parts
  end.

Definition _is_important (m : message) : bool :=
  let hs := headers (content m) in
  let from_email := headers_get lower hs "from" "" in
  let subject := headers_get lower hs "subject" "" in
  existsb (fun vip => contains (lower vip) (lower from_email)) vip_senders
  || any_keyword keywords (lower (subject ++ " " ++ from_email))
  || has_label "IMPORTANT" (labelIds (content m))
  || has_label "INBOX" (labelIds (content m))
  || _has_attachments (payload (content m)).

(** The [for msg in messages] loop; a failing fetch leaves it at once. *)
Fixpoint scan (important : message -> bool) (msgs : list listed)
    (ids : pyset) (new_emails : list message)
    : result unit * pyset * list message :=
  match msgs with
  | [] => (Ok tt, ids, new_emails)
  | l :: rest =>
      if mem (msg_id l) ids then scan important rest ids new_emails
      else
        match fetched l with
        | Raise e => (Raise e, ids, new_emails)
        | Ok b =>
            let m := mk_message (msg_id l) b in
            if important m
            then scan important rest (add (msg_id l) ids)
                      (new_emails ++ [m])%list
            else scan important rest ids new_emails
        end
  end.

Definition with_ids (st : state) (ids : pyset) : state :=
  mk_state ids (service st) (cache_file st) (cache_writes st).

(** [check_for_updates]: [resp] is the outcome of [messages.list].  Every
    exception is caught after the loop; [authenticate], called on a 401,
    keeps the cache as it is. *)
Definition check_for_updates `{SetOrder} (resp : result (list listed))
    (st : state) : list message * state :=
  if negb (service st) then ([], st)
  else
    match resp with
    | Raise _ => ([], st)
    | Ok msgs =>
        match scan _is_important msgs (processed_ids st) [] with
        | (Ok _, ids, new_emails) =>
            match new_emails with
            | [] => (new_emails, with_ids st ids)
            | _ => (new_emails, _save_processed_ids (with_ids st ids))
            end
        | (Raise _, ids, new_emails) => (new_emails, with_ids st ids)
        end
    end.

(** The polls of one process, one after the other: what each call of
    [check_for_updates] reports.  [created_for] gives the ids of these
    emails, the ones [run] calls [create_action_file] on. *)
Fixpoint run `{SetOrder} (polls : list (result (list listed))) (st : state)
    : list (list message) * state :=
  match polls with
  | [] => ([], st)
  | resp :: rest =>
      let '(emails, st1) := check_for_updates resp st in
      let '(reports, st2) := run rest st1 in
      (emails :: reports, st2)
  end.

Definition created_for (reports : list (list message)) : list string :=
  id <$> mjoin reports.

(** One poll of either watcher: the emails reported come under fresh ids,
    each id once, and these ids are what the in-memory set gains. *)
Definition poll_ok (st : state) (out : list message * state) : Prop :=
  processed_ids (snd out) = (processed_ids st ++ (id <$> fst out))%list
  /\ NoDup (id <$> fst out)
  /\ (forall x, x ∈ id <$> fst out -> x ∉ processed_ids st).

(** After a poll the cache file is as it was or holds at most 1000 ids. *)
Definition file_kept_or_bounded (st st' : state) : Prop :=
  cache_file st' = cache_file st
  \/ exists ids, cache_file st' = Some ids /\ (length ids <= 1000)%nat.

(** The message loop of a poll runs through: no fetch raises. *)
Definition completes (important : message -> bool) (msgs : list listed)
    (st : state) : bool :=
  match scan important msgs (processed_ids st) [] with
  | (Ok _, _, _) => true
  | (Raise _, _, _) => false
  end.

End GmailWatcher.

(** ** skills/gmail-watcher/scripts/gmail-watcher.py *)

Module GmailSkill.
Import PyStr PySet Gmail.

Definition keywords : list string :=
  ["urgent"; "invoice"; "payment"; "asap"; "important"; "help"].
Definition vip_senders : list string := [].

Definition _save_processed_ids `{SetOrder} (st : GmailWatcher.state)
    : GmailWatcher.state :=
  let ids_list := last_n 1000 (to_list (GmailWatcher.processed_ids st)) in
  GmailWatcher.mk_state (GmailWatcher.processed_ids st)
    (GmailWatcher.service st) (Some ids_list)
    (S (GmailWatcher.cache_writes st)).

Fixpoint _has_attachments (p : part) : bool :=
  match p with
  | Part filename parts =>
      option_truthy filename || existsb _has_attachments parts
  end.

Definition _is_important (m : message) : bool :=
  let hs := headers (content m) in
  let from_email := headers_get (fun n => n) hs "From" "" in
  let subject := headers_get (fun n => n) hs "Subject" "" in
  existsb (fun vip => contains (lower vip) (lower from_email)) vip_senders
  || any_keyword keywords (lower (subject ++ " " ++ from_email))
  || has_label "IMPORTANT" (labelIds (content m))
  || _has_attachments (payload (content m)).

(** [check_for_updates]: the cache is saved at the end of every poll whose
    loop ran through. *)
Definition check_for_updates `{SetOrder} (resp : result (list listed))
    (st : GmailWatcher.state) : list message * GmailWatcher.state :=
  if negb (GmailWatcher.service st) then ([], st)
  else
    match resp with
    | Raise _ => ([], st)
    | Ok msgs =>
        match GmailWatcher.scan _is_important msgs
                (GmailWatcher.processed_ids st) [] with
        | (Ok _, ids, new_emails) =>
            (new_emails, _save_processed_ids (GmailWatcher.with_ids st ids))
        | (Raise _, ids, new_emails) =>
            (new_emails, GmailWatcher.with_ids st ids)
        end
    end.

End GmailSkill.

(** ** watchers/filesystem_watcher.py *)

Module FileSystemWatcher.
Import PyStr.

(** One entry of the inbox as a poll meets it; [file_hash] is what
    [_get_file_hash] returns for it, [None] when the file cannot be read. *)
Record entry := mk_entry {
  name : string;
  is_file : bool;
  file_hash : option string
}.

(** [processed_files]: hash to file name, kept in memory only. *)
Abbreviation state := (gmap string string).

Definition init : state := ∅.

Fixpoint scan (entries : list entry) (seen : state) (new_files : list entry)
    : list entry * state :=
  match entries with
  | [] => (new_files, seen)
  | e :: rest =>
      if is_file e && negb (startswith "." (name e)) then
        match file_hash e with
        | Some h =>
            if truthy h && bool_decide (seen !! h = None)
            then scan rest (<[h := name e]> seen) (new_files ++ [e])%list
            else scan rest seen new_files
        | None => scan rest seen new_files
        end
      else scan rest seen new_files
  end.

(** [check_for_updates]; a failing [iterdir] is caught and logged. *)
Definition check_for_updates (dir : result (list entry)) (st : state)
    : list entry * state :=
  match dir with
  | Ok entries => scan entries st []
  | Raise _ => ([], st)
  end.

Fixpoint run (polls : list (result (list entry))) (st : state)
    : list (list entry) * state :=
  match polls with
  | [] => ([], st)
  | dir :: rest =>
      let '(files, st1) := check_for_updates dir st in
      let '(reports, st2) := run rest st1 in
      (files :: reports, st2)
  end.


End FileSystemWatcher.

(** ** scripts/scheduler.py *)

Module Scheduler.
Import PyStr PyTime.

Inductive action :=
| Script (path : string)
| Command (line : string).

Record task := mk_task {
  name : string;
  schedule : string;
  description : string;
  act : action
}.

(** The table of [Scheduler.__init__]. *)
Definition tasks : list task :=
  [ mk_task "daily_briefing" "08:00" "Generate daily briefing"
      (Script "tasks/daily_briefing.py");
    mk_task "process_pending" "*/30" "Process pending tasks"
      (Command "python orchestrator.py AI_Employee_Vault");
    mk_task "weekly_audit" "Sunday 22:00" "Weekly business audit"
      (Script "tasks/weekly_audit.py");
    mk_task "update_dashboard" "*/15" "Update dashboard stats"
      (Command "python update_dashboard.py AI_Employee_Vault") ].

(** The [Check if task is due] part of [run_due_tasks] for one schedule. *)
Definition should_run (schedule : string) (now : datetime) : result bool :=
  let current_time := strftime_HM now in
  let current_day := strftime_A now in
  if startswith "*/" schedule then
    match int (PyStr.drop 2 schedule) with
    | None => Raise ValueError
    | Some interval =>
        if (interval =? 0)%Z then Raise ZeroDivisionError
        else Ok ((Z.of_N (minute now) mod interval =? 0)%Z)
    end
  else if has_char " " schedule then
    match split " " schedule with
    | [day; time] =>
        Ok (String.eqb (lower day) (lower current_day)
            && String.eqb time current_time)
    | _ => Raise ValueError
    end
  else Ok (String.eqb schedule current_time).

Section Run.
(** What [run_task] records for a task: the outcome of its process. *)
Context {run_result : Type} (run_task : task -> run_result).

Fixpoint run_due_loop (now : datetime) (table : list task)
    (results : list run_result) : result (list run_result) :=
  match table with
  | [] => Ok results
  | t :: rest =>
      match should_run (schedule t) now with
      | Raise e => Raise e
      | Ok true => run_due_loop now rest (results ++ [run_task t])
      | Ok false => run_due_loop now rest results
      end
  end.

Definition run_due_tasks (now : datetime) (table : list task)
    : result (list run_result) :=
  run_due_loop now table [].
End Run.

(** The three shapes of schedule of the specification: ["*/N"] with [N]
    written in [width] digits, ["HH:MM"] and ["Weekday HH:MM"]. *)
Inductive shape :=
| Every (width : nat) (n : N)
| At (hh mm : N)
| On (day : weekday) (hh mm : N).

Definition render (s : shape) : string :=
  match s with
  | Every width n => "*/" ++ pad width n
  | At hh mm => pad 2 hh ++ ":" ++ pad 2 mm
  | On day hh mm => day_name day ++ " " ++ pad 2 hh ++ ":" ++ pad 2 mm
  end.

(** A shape that stands for itself: an interval of at least one minute
    that fits its digits. *)
Definition shape_ok (s : shape) : bool :=
  match s with
  | Every width n => (1 <=? n)%N && (n <? 10 ^ N.of_nat width)%N
  | _ => true
  end.

(** When the specification says a schedule fires. *)
Definition fires (s : shape) (now : datetime) : bool :=
  match s with
  | Every _ n => (minute now mod n =? 0)%N
  | At _ _ => String.eqb (strftime_HM now) (render s)
  | On day hh mm =>
      bool_decide (weekday_of now = day)
      && String.eqb (strftime_HM now) (render (At hh mm))
  end.

(** A job of the table: a task whose schedule is the text of a shape. *)
Record job := mk_job { job_shape : shape; job_task : task }.

Definition job_ok (j : job) : bool :=
  shape_ok (job_shape j)
  && String.eqb (schedule (job_task j)) (render (job_shape j)).

End Scheduler.


(** ** Concrete vaults, clocks, inboxes and mailboxes *)

Module Examples.
Import PyStr PyTime Vault ApprovalManager.

Definition now0 : datetime := mk_datetime 2026 1 8 9 0 0 0.
Definition expiry0 : datetime := mk_datetime 2026 1 7 10 30 0 0.

(** A request as [create_approval] lays it out, expired since yesterday. *)
Definition request0 : list string :=
  ["---"; "type: approval_request"; "action_type: payment";
   "action: pay invoice"; "created: 2026-01-06T10:30:00";
   expires_line expiry0; "status: pending"; "---"].

Definition vault0 : vault :=
  {[ pending_approval := {[ "PAY_INVOICE.md" := File (join (String nl "") request0) ]} ]}.

(** A request whose [expires] value is not a timestamp: minute 99. *)
Definition request_bad : list string :=
  ["---"; "type: approval_request"; "expires: 2020-01-01T10:99:99";
   "status: pending"; "---"].

Definition vault_bad : vault :=
  {[ pending_approval := {[ "REQ.md" := File (join (String nl "") request_bad) ]} ]}.


(** Needs_Action holding two finished task files. *)
Definition two_tasks : list Orchestrator.entry :=
  [ Orchestrator.mk_entry "A.md" true (Ok "--- type: test");
    Orchestrator.mk_entry "B.md" true (Ok "# Task B") ].

(** A hash of strings, FNV-1a on 32 bits, standing for the hash by which
    CPython lays out a set of strings. *)
Definition fnv1a (s : string) : N :=
  fold_left (fun h c => (N.lxor h (N_of_ascii c) * 16777619) mod 4294967296)
            (list_ascii_of_string s) 2166136261.

Definition mail_id (n : nat) : string := "m" ++ pad 4 (N.of_nat n).

(** An unread message of the inbox, as [messages.list] and [messages.get]
    give it. *)
Definition inbox_mail (n : nat) : Gmail.listed :=
  Gmail.mk_listed (mail_id n)
    (Ok (Gmail.mk_body [("From", "boss@example.com"); ("Subject", "hello")]
           ["INBOX"] (Gmail.Part None []))).


(** A cache file left by an earlier run: the ids of 1000 emails. *)
Definition cached_ids : list string := mail_id <$> seq 0 1000.

(** A watcher started on that cache file. *)
Definition restarted : GmailWatcher.state := GmailWatcher.init (Some cached_ids).

(** An inbox holding the same document under two names. *)
Definition inbox_twice : list FileSystemWatcher.entry :=
  [ FileSystemWatcher.mk_entry "report.pdf" true (Some "9e107d9d372bb6826bd81d3542a419d6");
    FileSystemWatcher.mk_entry "report (copy).pdf" true (Some "9e107d9d372bb6826bd81d3542a419d6") ].

(** The table of the scheduler, each task with the shape of its schedule. *)
Definition table_jobs : list Scheduler.job :=
  [ Scheduler.mk_job (Scheduler.At 8 0)
      (Scheduler.mk_task "daily_briefing" "08:00" "Generate daily briefing"
         (Scheduler.Script "tasks/daily_briefing.py"));
    Scheduler.mk_job (Scheduler.Every 2 30)
      (Scheduler.mk_task "process_pending" "*/30" "Process pending tasks"
         (Scheduler.Command "python orchestrator.py AI_Employee_Vault"));
    Scheduler.mk_job (Scheduler.On Sunday 22 0)
      (Scheduler.mk_task "weekly_audit" "Sunday 22:00" "Weekly business audit"
         (Scheduler.Script "tasks/weekly_audit.py"));
    Scheduler.mk_job (Scheduler.Every 2 15)
      (Scheduler.mk_task "update_dashboard" "*/15" "Update dashboard stats"
         (Scheduler.Command "python update_dashboard.py AI_Employee_Vault")) ].

(** Tuesday 2026-11-03, 10:30 and 10:31. *)
Definition half_past : datetime := mk_datetime 2026 11 3 10 30 0 0.
Definition minute_later : datetime := mk_datetime 2026 11 3 10 31 0 0.

End Examples.

(** ** Folders made at start-up, and the listing of approved requests *)

Module Folders.
Import PyStr Vault.

(** [folder.mkdir(parents=True, exist_ok=True)] for a folder of the vault. *)
Definition mkdir (dir : string) : FS unit :=
  fun v => match v !! dir with
           | Some _ => (Ok tt, v)
           | None => (Ok tt, <[dir := ∅]> v)
           end.


(** [PlanManager.__init__] *)
Definition plan_manager_init : FS unit :=
  do _ <- mkdir PlanManager.plans_folder;
  mkdir PlanManager.done.

(** [filepath.is_file() and filepath.suffix == '.md'] *)
Definition is_md_file (e : string * node) : bool :=
  match e.2 with
  | File _ => String.eqb (ApprovalManager.suffix e.1) ".md"
  | Dir _ => false
  end.

(** [list_approved]: the names of the regular [.md] files of Approved (the
    path that goes with each name is the folder joined with the name). *)
Definition list_approved : FS (list string) :=
  do entries <- iterdir ApprovalManager.approved;
  ret ((filter (fun e => is_md_file e = true) entries).*1).

End Folders.

(** ** More of Python's strings and clocks *)

Module PyText.
Import PyStr PyTime.

(** [s.replace(c, r)] for a one-character [c]. *)
Fixpoint replace (c : ascii) (r : string) (s : string) : string :=
  match s with
  | EmptyString => EmptyString
  | String a s' =>
      if Ascii.eqb a c then r ++ replace c r s'
      else String a (replace c r s')
  end.

(** The lines of a text, each closed by a newline. *)
Fixpoint text (lines : list string) : string :=
  match lines with
  | [] => EmptyString
  | l :: ls => l ++ String ApprovalManager.nl (text ls)
  end.

(** [d.strftime('%Y%m%d_%H%M%S')], for the four-digit years of a running
    clock. *)
Definition strftime_stamp (d : datetime) : string :=
  pad 4 (year d) ++ pad 2 (month d) ++ pad 2 (day d) ++ "_" ++
  pad 2 (hour d) ++ pad 2 (minute d) ++ pad 2 (second d).

(** [d.strftime('%Y-%m-%d %H:%M:%S')] *)
Definition strftime_seconds (d : datetime) : string :=
  pad 4 (year d) ++ "-" ++ pad 2 (month d) ++ "-" ++ pad 2 (day d) ++ " " ++
  pad 2 (hour d) ++ ":" ++ pad 2 (minute d) ++ ":" ++ pad 2 (second d).

(** [d.strftime('%Y-%m-%d %H:%M')] *)
Definition strftime_minutes (d : datetime) : string :=
  pad 4 (year d) ++ "-" ++ pad 2 (month d) ++ "-" ++ pad 2 (day d) ++ " " ++
  pad 2 (hour d) ++ ":" ++ pad 2 (minute d).

End PyText.

(** ** Writing and copying files of the vault *)

Module Files.
Import PyStr Vault.

Definition needs_action := "Needs_Action".
Definition inbox := "Inbox".

(** [(dir / name).write_text(content)], [name] a single path component. *)
Definition write_text (dir name content : string) : FS unit :=
  fun v =>
    match v !! dir with
    | None => (Raise FileNotFoundError, v)
    | Some f =>
        match f !! name with
        | Some (Dir _) => (Raise IsADirectoryError, v)
        | _ => (Ok tt, <[dir := <[name := File content]> f]> v)
        end
    end.

(** [shutil.copy2(sdir / sname, ddir / dname)]: a directory met at the
    target receives the copy inside it. *)
Definition copy2 (sdir sname ddir dname : string) : FS unit :=
  fun v =>
    match lookup_node v sdir sname with
    | None => (Raise FileNotFoundError, v)
    | Some (Dir _) => (Raise IsADirectoryError, v)
    | Some (File c) =>
        match v !! ddir with
        | None => (Raise FileNotFoundError, v)
        | Some df =>
            match df !! dname with
            | Some (Dir _) => (Ok tt, <[ddir := <[dname := Dir false]> df]> v)
            | _ => (Ok tt, <[ddir := <[dname := File c]> df]> v)
            end
        end
    end.



End Files.

(** ** The action file of an email *)

Module GmailActionFile.
Import PyStr PyText PyTime Vault Files Gmail.

(** A MIME part as [_decode_body] reads it: its [mimeType], the [data] of
    its [body], if any, and its sub-parts. *)
#[local] Unset Elimination Schemes.
Inductive mime := Mime (mimeType : string) (data : option string) (parts : list mime).
#[local] Set Elimination Schemes.

Record email := mk_email {
  email_id : string;
  email_headers : list (string * string);
  email_payload : mime
}.

(** The first of the texts [f] finds that is not empty. *)
Definition first_truthy {A} (f : A -> string) : list A -> string :=
  fix go (l : list A) : string :=
    match l with
    | [] => EmptyString
    | x :: rest => let b := f x in if truthy b then b else go rest
    end.

Section Decode.
(** [base64.urlsafe_b64decode(data).decode('utf-8', errors='ignore')] *)
Context (b64decode : string -> result string).

Fixpoint get_body (p : mime) : string :=
  match p with
  | Mime mimeType data parts =>
      let here :=
        if String.eqb mimeType "text/plain" then
          match data with
          | Some d => if truthy d
                      then match b64decode d with
                           | Ok s => Some s
                           | Raise _ => None
                           end
                      else None
          | None => None
          end
        else None in
      match here with
      | Some s => s
      | None => first_truthy get_body parts
      end
  end.

Definition _decode_body (m : email) : string := get_body (email_payload m).

Definition subject_of (m : email) : string :=
  headers_get lower (email_headers m) "subject" "No Subject".

Definition safe_subject (m : email) : string :=
  take 40 (replace "/" "_" (replace ":" "" (replace " " "_" (subject_of m)))).

Definition filename (now : datetime) (m : email) : string :=
  "GMAIL_" ++ safe_subject m ++ "_" ++ strftime_stamp now ++ ".md".

Definition priority (m : email) : string :=
  if existsb (fun kw => contains kw (lower (subject_of m)))
             ["urgent"; "asap"; "emergency"]
  then "high" else "normal".

Definition content (m : email) : string :=
  let from_email := headers_get lower (email_headers m) "from" "Unknown" in
  let subject := subject_of m in
  let received := headers_get lower (email_headers m) "date" "" in
  let body := take 2000 (_decode_body m) in
  text [ "---";
         "type: gmail_email";
         "from: " ++ from_email;
         "subject: " ++ subject;
         "received: " ++ received;
         "message_id: " ++ email_id m;
         "priority: " ++ priority m;
         "status: pending";
         "---";
         "";
         "# Gmail Message";
         "";
         "## From";
         "**" ++ from_email ++ "**";
         "";
         "## Subject";
         subject;
         "";
         "## Received";
         received;
         "";
         "## Message Content";
         "";
         (if truthy body then body else "*No text content*");
         "";
         "## Suggested Actions";
         "";
         "- [ ] Read and understand the email";
         "- [ ] Draft appropriate response";
         "- [ ] Take required action";
         "- [ ] Mark email as read in Gmail";
         "- [ ] Move this file to /Done when complete";
         "";
         "---";
         "*Created by Gmail Watcher v0.1 (Silver Tier)*";
         "*Message ID: " ++ email_id m ++ "*" ].

(** [create_action_file]: the name of the file written to Needs_Action. *)
Definition create_action_file (now : datetime) (m : email) : FS string :=
  do _ <- write_text needs_action (filename now m) (content m);
  ret (filename now m).

End Decode.

End GmailActionFile.

(** ** The action file of a dropped file *)

Module InboxActionFile.
Import PyStr PyText PyTime Vault Files.

Section Stat.
(** [hashlib.md5(data).hexdigest()], and the [st_size] of a directory. *)
Context (md5 : string -> string) (dir_size : N).

(** The inbox as a poll of the watcher meets it when every file opens. *)
Definition inbox_entries (f : folder) : list FileSystemWatcher.entry :=
  (fun e : string * node =>
     match e.2 with
     | File c => FileSystemWatcher.mk_entry e.1 true (Some (md5 c))
     | Dir _ => FileSystemWatcher.mk_entry e.1 false None
     end) <$> map_to_list f.

Definition safe_name (name : string) : string :=
  replace "." "_" (replace " " "_" name).

Definition action_filename (timestamp : datetime) (name : string) : string :=
  "FILE_DROP_" ++ safe_name name ++ "_" ++ strftime_stamp timestamp ++ ".md".

(** [filepath.stat().st_size] and [filepath.suffix.lower()], or the values
    taken when [stat] fails. *)
Definition file_info (v : vault) (name : string) : N * string :=
  match lookup_node v inbox name with
  | Some (File c) =>
      (N.of_nat (String.length c), lower (ApprovalManager.suffix name))
  | Some (Dir _) => (dir_size, lower (ApprovalManager.suffix name))
  | None => (0, "unknown")
  end.

Definition content (received shown : datetime) (name : string)
    (info : N * string) : string :=
  let file_size := pretty info.1 in
  let file_type := info.2 in
  text [ "---";
         "type: file_drop";
         "source_file: " ++ name;
         "file_type: " ++ file_type;
         "file_size: " ++ file_size ++ " bytes";
         "received: " ++ isoformat received;
         "priority: normal";
         "status: pending";
         "---";
         "";
         "# File Drop for Processing";
         "";
         "## Source";
         "- **Original File:** `" ++ name ++ "`";
         "- **File Type:** " ++ file_type;
         "- **Size:** " ++ file_size ++ " bytes";
         "- **Received:** " ++ strftime_seconds shown;
         "";
         "## Content Preview";
         "";
         "*File content should be reviewed and processed*";
         "";
         "## Suggested Actions";
         "";
         "- [ ] Review file content";
         "- [ ] Determine required action";
         "- [ ] Process and move to /Done";
         "- [ ] Archive original file";
         "";
         "## Notes";
         "";
         "*Add processing notes here*";
         "";
         "---";
         "*Created by FileSystem Watcher v0.1 for Qwen Code*" ].

(** The three readings of the clock of one call, and the name of the file
    of the inbox it is made for. *)
Record call := mk_call {
  timestamp : datetime; received : datetime; shown : datetime;
  source : string
}.

(** [create_action_file]: the action file is written, then the original is
    copied beside itself as [processed_<name>]; a copy that fails is only
    logged. *)
Definition create_action_file (c : call) : FS string :=
  fun v =>
    let name := source c in
    let action := action_filename (timestamp c) name in
    match write_text needs_action action
            (content (received c) (shown c) name (file_info v name)) v with
    | (Raise e, v') => (Raise e, v')
    | (Ok _, v1) =>
        (Ok action, snd (copy2 inbox name inbox ("processed_" ++ name) v1))
    end.

(** The vault after the calls made for the files of one poll. *)
Definition create_action_files (calls : list call) (v : vault) : vault :=
  foldl (fun v c => snd (create_action_file c v)) v calls.

End Stat.

End InboxActionFile.

(** ** The loops that turn reports into action files *)

Module GmailLoop.
Import PySet PyTime Vault Files Gmail GmailWatcher GmailActionFile.

(** The process as it runs: the watcher object, the vault, the number of
    readings of the clock taken so far, the calls of [create_action_file]
    that returned (the id of the email and the name of the file written),
    and the exception that ended the run, if one did. *)
Record world := mk_world {
  watcher : state;
  files : vault;
  readings : nat;
  written : list (string * string);
  raised : list exn
}.

(** A process that starts on the vault [v]. *)
Definition start (st : state) (v : vault) : world := mk_world st v 0 [] [].

(** The poll that gets the listing [msgs] selects the message listed as
    [l]: the messages listed before it are fetched, [l] is fetched, and
    [_is_important] accepts it. *)
Definition selects (msgs : list listed) (l : listed) : Prop :=
  exists i b,
    msgs !! i = Some l
    /\ Forall (fun l' => exists b', fetched l' = Ok b') (take i msgs)
    /\ fetched l = Ok b
    /\ _is_important (mk_message (msg_id l) b) = true.

(** Some poll lists under the id [x] a message that is fetched and that
    [_is_important] accepts. *)
Definition accepted (polls : list (result (list listed))) (x : string) : Prop :=
  exists msgs l b,
    Ok msgs ∈ polls /\ l ∈ msgs /\ msg_id l = x /\ fetched l = Ok b
    /\ _is_important (mk_message x b) = true.

Section Loop.
Context `{SetOrder} (b64decode : string -> result string).
(** The [mimeType] and the [body] data of the parts of a fetched message,
    which [create_action_file] reads and [Gmail.body] leaves out; and the
    clock, reading after reading. *)
Context (mime_of : message -> mime) (clock : nat -> datetime).

(** The message as [create_action_file] reads it. *)
Definition as_email (m : message) : email :=
  mk_email (Gmail.id m) (headers (Gmail.content m)) (mime_of m).

(** [for email in emails: filepath = self.create_action_file(email)]: the
    exception of a call leaves the loop. *)
Fixpoint create_files (emails : list message) (w : world)
    : result unit * world :=
  match emails with
  | [] => (Ok tt, w)
  | m :: rest =>
      match create_action_file b64decode (clock (readings w)) (as_email m)
              (files w) with
      | (Ok name, v') =>
          create_files rest
            (mk_world (watcher w) v' (S (readings w))
               (written w ++ [(Gmail.id m, name)]) (raised w))
      | (Raise e, v') =>
          (Raise e,
           mk_world (watcher w) v' (S (readings w)) (written w) (raised w))
      end
  end.

(** The [while True] loop of [run], one poll after the other; an exception
    that leaves the [for] loop is caught outside the [while] loop and ends
    the run. *)
Fixpoint run (polls : list (result (list listed))) (w : world) : world :=
  match polls with
  | [] => w
  | resp :: rest =>
      let '(emails, st1) := check_for_updates resp (watcher w) in
      match create_files emails
              (mk_world st1 (files w) (readings w) (written w) (raised w)) with
      | (Ok _, w1) => run rest w1
      | (Raise e, w1) =>
          mk_world (watcher w1) (files w1) (readings w1) (written w1)
            (raised w1 ++ [e])
      end
  end.

End Loop.

End GmailLoop.

Module InboxLoop.
Import PyTime Vault Files FileSystemWatcher InboxActionFile.

(** The process as it runs: the watcher object, the vault, the number of
    readings of the clock taken so far, the calls of [create_action_file]
    that returned (the file reported and the name of the action file
    written), and the exceptions that left a cycle. *)
Record world := mk_world {
  watcher : state;
  files : vault;
  readings : nat;
  written : list (entry * string);
  raised : list exn
}.

Definition start (st : state) (v : vault) : world := mk_world st v 0 [] [].


(** The poll that gets the listing [entries] selects a file of content hash
    [h]: a regular file whose name has no leading dot and whose content is
    read and hashed. *)
Definition selects (entries : list entry) (h : string) : Prop :=
  exists e,
    e ∈ entries /\ is_file e = true
    /\ PyStr.startswith "." (name e) = false
    /\ file_hash e = Some h /\ PyStr.truthy h = true.

Definition accepted (polls : list (result (list entry))) (h : string) : Prop :=
  exists entries, Ok entries ∈ polls /\ selects entries h.

Section Loop.
(** The [st_size] of a directory; the clock, reading after reading; and
    whether the loop that drives the watcher goes on after a cycle that an
    exception left: that loop is [BaseWatcher.run], in a module that the
    watcher imports. *)
Context (dir_size : N) (clock : nat -> datetime) (resume : bool).

(** The call made for a reported file: [create_action_file] reads the clock
    three times. *)
Definition call_for (k : nat) (e : entry) : call :=
  mk_call (clock k) (clock (S k)) (clock (S (S k))) (name e).

(** [for item in items: action_path = watcher.create_action_file(item)], as
    test_watcher.py drives the watcher: the exception of a call leaves the
    loop. *)
Fixpoint create_files (items : list entry) (w : world)
    : result unit * world :=
  match items with
  | [] => (Ok tt, w)
  | e :: rest =>
      match create_action_file dir_size (call_for (readings w) e) (files w) with
      | (Ok action, v') =>
          create_files rest
            (mk_world (watcher w) v' (3 + readings w)%nat
               (written w ++ [(e, action)]) (raised w))
      | (Raise x, v') =>
          (Raise x,
           mk_world (watcher w) v' (3 + readings w)%nat (written w) (raised w))
      end
  end.

(** Cycle after cycle: [items = watcher.check_for_updates()], then the calls
    for the items.  Each cycle comes with the listing its poll meets: what
    [iterdir] and [_get_file_hash] find in the inbox at that moment, other
    processes dropping files there between the polls. *)
Fixpoint run (polls : list (result (list entry))) (w : world) : world :=
  match polls with
  | [] => w
  | dir :: rest =>
      let '(items, st1) := check_for_updates dir (watcher w) in
      match create_files items
              (mk_world st1 (files w) (readings w) (written w) (raised w)) with
      | (Ok _, w1) => run rest w1
      | (Raise x, w1) =>
          let w2 := mk_world (watcher w1) (files w1) (readings w1) (written w1)
                      (raised w1 ++ [x]) in
          if resume then run rest w2 else w2
      end
  end.

End Loop.

End InboxLoop.

(** ** The dashboard of the orchestrator *)

Module Dashboard.
Import PyStr PyText PyTime Vault.

Definition table_header := "| Timestamp | Action | Status |".

(** The row that [update_dashboard] adds, and the line it inserts: the row
    and a newline. *)
Definition activity_row (now : datetime) (tasks_processed : nat) : string :=
  "| " ++ strftime_minutes now ++ " | Batch processed " ++
  pretty tasks_processed ++ " task(s) | Complete |".

Definition activity_line (now : datetime) (tasks_processed : nat) : string :=
  activity_row now tasks_processed ++ String ApprovalManager.nl "".

(** The loop over the lines: the row goes in below the first header line
    that a separator row follows, and the loop stops there. *)
Fixpoint insert_activity (row : string) (lines : list string) : list string :=
  match lines with
  | [] => []
  | line :: rest =>
      if contains table_header line then
        match rest with
        | next :: rest' =>
            if contains "|---" next then line :: next :: row :: rest'
            else line :: insert_activity row rest
        | [] => [line]
        end
      else line :: insert_activity row rest
  end.

(** [update_dashboard]: what becomes of Dashboard.md, [None] when the vault
    has no such file.  A dashboard that cannot be read stays as it is. *)
Definition update_dashboard (now : datetime) (tasks_processed : nat)
    (dashboard : option node) : option node :=
  match dashboard with
  | None => None
  | Some (Dir b) => Some (Dir b)
  | Some (File content) =>
      if contains table_header content then
        Some (File (join (String ApprovalManager.nl "")
                      (insert_activity (activity_line now tasks_processed)
                         (split ApprovalManager.nl content))))
      else Some (File content)
  end.

End Dashboard.

(** ** The listing of pending requests *)

Module Pending.
Import PyStr PyTime Vault ApprovalManager Folders.

Record info := mk_info {
  filename : string;
  type : string;
  action : string;
  created : string;
  summary : string
}.

(** [parts[1]] *)
Definition second (parts : list string) : result string :=
  match parts with
  | _ :: p :: _ => Ok p
  | _ => Raise IndexError
  end.

(** The first loop over the lines of a request: a later line of a kind
    replaces what an earlier one gave. *)
Fixpoint key_info (lines : list string) (i : info) : result info :=
  match lines with
  | [] => Ok i
  | line :: rest =>
      if startswith "action_type:" line then
        match second (split ":" line) with
        | Ok p => key_info rest
                    (mk_info (filename i) (strip p) (action i) (created i)
                       (summary i))
        | Raise e => Raise e
        end
      else if startswith "action:" line then
        match second (split ":" line) with
        | Ok p => key_info rest
                    (mk_info (filename i) (type i) (strip p) (created i)
                       (summary i))
        | Raise e => Raise e
        end
      else if startswith "created:" line then
        match second (split ":" line) with
        | Ok p => key_info rest
                    (mk_info (filename i) (type i) (action i)
                       (take 16 (strip p)) (summary i))
        | Raise e => Raise e
        end
      else key_info rest i
  end.

(** The second loop: the first line that names an amount, in any case. *)
Fixpoint amount_info (lines : list string) (i : info) : result info :=
  match lines with
  | [] => Ok i
  | line :: rest =>
      if contains "amount:" (lower line) then
        match second (split ":" line) with
        | Ok p => Ok (mk_info (filename i) (type i) (action i) (created i)
                        (strip p))
        | Raise e => Raise e
        end
      else amount_info rest i
  end.

(** What [list_pending] says of one request. *)
Definition pending_info (name content : string) : result info :=
  match key_info (split nl content)
          (mk_info name "Unknown" "Unknown" "Unknown" "") with
  | Ok i => if contains "amount:" content
            then amount_info (split nl content) i
            else Ok i
  | Raise e => Raise e
  end.

Fixpoint pending_entries (entries : list (string * node)) (pending : list info)
    : result (list info) :=
  match entries with
  | [] => Ok pending
  | (name, n) :: rest =>
      match n with
      | File content =>
          if String.eqb (suffix name) ".md" then
            match pending_info name content with
            | Ok i => pending_entries rest (pending ++ [i])
            | Raise e => Raise e
            end
          else pending_entries rest pending
      | Dir _ => pending_entries rest pending
      end
  end.

(** [list_pending] *)
Definition list_pending : FS (list info) :=
  do entries <- iterdir pending_approval;
  fun v => (pending_entries entries [], v).

(** The line under which [create_approval] records the time of creation. *)
Definition created_line (t : datetime) : string := "created: " ++ isoformat t.

End Pending.

(** ** The steps of a plan *)

Module PlanSteps.
Import PyStr PyText Vault Files PlanManager.

Definition checkbox (status : string) : string :=
  if String.eqb status "completed" then "[x]"
  else if String.eqb status "failed" then "[-]"
  else "[ ]".

(** Whether a line is the line of step [n], open or completed. *)
Definition is_step (n : Z) (line : string) : bool :=
  startswith ("- [ ] " ++ pretty n ++ ".") (strip line)
  || startswith ("- [x] " ++ pretty n ++ ".") (strip line).

(** [s.split(c, 1)[1]], when [c] is in [s]. *)
Fixpoint after_first (c : ascii) (s : string) : option string :=
  match s with
  | EmptyString => None
  | String a s' => if Ascii.eqb a c then Some s' else after_first c s'
  end.

Definition step_text (line : string) : string :=
  match after_first "." line with
  | Some r => strip r
  | None => line
  end.

Definition note_lines (note : option string) : list string :=
  match note with
  | Some t => if truthy t then ["  *Note: " ++ t ++ "*"] else []
  | None => []
  end.

(** The loop that finds the step: the first line of step [n] is rewritten,
    the note goes below it; [None] when no line is found. *)
Fixpoint mark_step (n : Z) (status : string) (note : option string)
    (lines : list string) : option (list string) :=
  match lines with
  | [] => None
  | line :: rest =>
      if is_step n line then
        Some (("- " ++ checkbox status ++ " " ++ pretty n ++ ". " ++
               step_text line) :: (note_lines note ++ rest)%list)
      else cons line <$> mark_step n status note rest
  end.

Definition completed (lines : list string) : nat :=
  length (filter (fun l => contains "- [x]" l = true) lines).

Definition total (lines : list string) : nat :=
  length (filter (fun l => contains "- [" l && has_char "." l = true) lines).

(** The first line that starts with [status:] becomes
    [status: completed]. *)
Fixpoint set_completed (lines : list string) : list string :=
  match lines with
  | [] => []
  | line :: rest =>
      if startswith "status:" line then "status: completed" :: rest
      else line :: set_completed rest
  end.

(** [update_step] *)
Definition update_step (filename : string) (step_number : Z)
    (status : string) (note : option string) : FS bool :=
  do filepath <- _find_file filename;
  match filepath with
  | None => ret false
  | Some src =>
      do content <- read_text plans_folder src;
      match mark_step step_number status note
              (split ApprovalManager.nl content) with
      | None => ret false
      | Some lines =>
          let lines' :=
            if (completed lines =? total lines)%nat && (0 <? total lines)%nat
            then set_completed lines else lines in
          do _ <- write_text plans_folder src
                    (join (String ApprovalManager.nl "") lines');
          ret true
      end
  end.

End PlanSteps.

(** ** Creating an approval request *)

Module CreateApproval.
Import PyStr PyText PyTime Vault Files ApprovalManager.

Definition is_lower (c : ascii) : bool :=
  let n := N_of_ascii c in (97 <=? n) && (n <=? 122).

Definition upper_char (c : ascii) : ascii :=
  if is_lower c then ascii_of_N (N_of_ascii c - 32) else c.

Fixpoint upper (s : string) : string :=
  match s with
  | EmptyString => EmptyString
  | String c s' => String (upper_char c) (upper s')
  end.







(** [d.strftime('%Y-%m-%d_%H%M%S')] *)
Definition strftime_name (d : datetime) : string :=
  pad 4 (year d) ++ "-" ++ pad 2 (month d) ++ "-" ++ pad 2 (day d) ++ "_" ++
  pad 2 (hour d) ++ pad 2 (minute d) ++ pad 2 (second d).

Definition filename (timestamp : datetime) (action : string) : string :=
  upper (replace " " "_" action) ++ "_" ++ strftime_name timestamp ++ ".md".







End CreateApproval.

(** ** Emails, inboxes and clocks for the action files *)

Module ActionExamples.
Import PyTime Vault Files GmailActionFile.

(** Two emails under one subject, and the second at which both are
    handled. *)
Definition invoice (id : string) : email :=
  mk_email id
    [("From", "billing@example.com"); ("Subject", "Invoice 2026/11: due")]
    (Mime "multipart/alternative" None
       [Mime "text/plain" (Some "UGxlYXNlIHBheQ==") []]).

Definition noon : datetime := mk_datetime 2026 11 3 12 0 0 0.

(** A decoder that knows one text. *)
Definition decode_one (data : string) : result string :=
  if String.eqb data "UGxlYXNlIHBheQ==" then Ok "Please pay"
  else Raise ValueError.

Definition empty_needs_action : vault := {[ needs_action := ∅ ]}.

(** A vault whose inbox holds one document. *)
Definition one_drop : vault :=
  {[ inbox := {[ "report.pdf" := File "%PDF-1.7" ]}; needs_action := ∅ ]}.

(** A stand-in for MD5: the FNV-1a hash written in decimal. *)
Definition digest (data : string) : string := pretty (Examples.fnv1a data).

(** Approved holding a request and a note, Done empty. *)
Definition approved_two : folder :=
  {[ "PAY_INVOICE.md" := File "pay"; "notes.txt" := File "n" ]}.
Definition vault_approved : vault :=
  {[ ApprovalManager.approved := approved_two; ApprovalManager.done := ∅ ]}.

(** A dashboard with one row in its activity table. *)
Definition dashboard_top : list string :=
  ["# Dashboard"; ""; "## Recent Activity"].
Definition dashboard_rows : list string :=
  ["| 2026-11-02 09:00 | Batch processed 1 task(s) | Complete |"].

(** A plan of two steps. *)
Definition plan_top : list string :=
  ["---"; "type: plan"; "status: in_progress"; "---"; ""; "## Steps";
   "- [ ] 1. Read the invoice"].
Definition plan_bottom : list string := [""; "## Notes"].

Definition vault_plan : vault :=
  {[ PlanManager.plans_folder :=
       {[ "PLAN_pay.md" :=
            File (PyStr.join (String ApprovalManager.nl "")
                    (plan_top ++ "- [ ] 2. Pay the invoice" :: plan_bottom)) ]} ]}.

(** The same plan with its first step completed, and with it failed. *)
Definition steps_top : list string := ["---"; "type: plan"].
Definition steps_done : list string :=
  ["---"; ""; "## Steps"; "- [x] 1. Read the invoice"].
Definition steps_failed : list string :=
  ["---"; ""; "## Steps"; "- [-] 1. Read the invoice"].

Definition plan_file (mid : list string) : folder :=
  {[ "PLAN_pay.md" :=
       File (PyStr.join (String ApprovalManager.nl "")
               (steps_top ++ "status: in_progress" :: mid ++
                "- [ ] 2. Pay the invoice" :: plan_bottom)) ]}.

Definition vault_steps (mid : list string) : vault :=
  {[ PlanManager.plans_folder := plan_file mid ]}.

End ActionExamples.

(** ** A clock and listings for the loops *)

Module LoopExamples.
Import PyTime GmailActionFile.

(** A clock that is one second further at every reading. *)
Definition ticking (k : nat) : datetime :=
  mk_datetime 2026 11 3 12 ((N.of_nat k / 60) mod 60) (N.of_nat k mod 60) 0.

(** Messages that carry no plain text. *)
Definition no_text (m : Gmail.message) : mime := Mime "text/html" None [].


End LoopExamples.

(** * Properties *)

(** ** Strings *)

Module PyStrFacts.
Import PyStr.

Lemma sapp_cons c a b : String c a ++ b = String c (a ++ b).
Proof. reflexivity. Qed.

Lemma sapp_nil_l a : "" ++ a = a.
Proof. reflexivity. Qed.

Lemma sapp_nil_r a : a ++ "" = a.
Proof. induction a as [|c a IH]; [reflexivity|]. rewrite sapp_cons, IH. reflexivity. Qed.

Lemma sapp_assoc a b c : (a ++ b) ++ c = a ++ (b ++ c).
Proof.
  induction a as [|x a IH]; [reflexivity|].
  rewrite !sapp_cons, IH. reflexivity.
Qed.

Lemma length_app a b :
  String.length (a ++ b) = (String.length a + String.length b)%nat.
Proof.
  induction a as [|x a IH]; [reflexivity|].
  rewrite sapp_cons. simpl. rewrite IH. reflexivity.
Qed.

Lemma startswith_app p s : startswith p (p ++ s) = true.
Proof.
  induction p as [|c p IH]; [reflexivity|].
  rewrite sapp_cons. simpl. rewrite Ascii.eqb_refl. exact IH.
Qed.

Lemma contains_app a n b : contains n (a ++ n ++ b) = true.
Proof.
  induction a as [|c a IH].
  - rewrite sapp_nil_l. destruct (n ++ b) as [|x r] eqn:E.
    + destruct n; [reflexivity|discriminate].
    + simpl contains. rewrite <- E, startswith_app. reflexivity.
  - rewrite sapp_cons. simpl contains. rewrite IH. apply orb_true_r.
Qed.

Lemma all_chars_app P a b :
  all_chars P (a ++ b) = all_chars P a && all_chars P b.
Proof.
  induction a as [|c a IH]; [reflexivity|].
  rewrite sapp_cons. simpl. rewrite IH. apply andb_assoc.
Qed.

Lemma all_chars_impl (P Q : ascii -> bool) s :
  (forall c, P c = true -> Q c = true) ->
  all_chars P s = true -> all_chars Q s = true.
Proof.
  intros HPQ. induction s as [|c s IH]; [reflexivity|].
  simpl. intros [Hc Hs]%andb_true_iff.
  rewrite (HPQ _ Hc), (IH Hs). reflexivity.
Qed.

Lemma has_char_all_chars c s :
  all_chars (fun x => negb (Ascii.eqb x c)) s = true -> has_char c s = false.
Proof.
  induction s as [|x s IH]; [reflexivity|].
  simpl. intros [Hx Hs]%andb_true_iff.
  apply negb_true_iff in Hx. rewrite Hx, (IH Hs). reflexivity.
Qed.

Lemma split_nonempty sep s : split sep s <> [].
Proof.
  destruct s as [|c s]; simpl; [discriminate|].
  destruct (Ascii.eqb c sep); [discriminate|].
  destruct (split sep s); discriminate.
Qed.

Lemma split_no_sep sep s : has_char sep s = false -> split sep s = [s].
Proof.
  induction s as [|c s IH]; [reflexivity|].
  simpl. intros [Hc Hs]%orb_false_iff. rewrite Hc, (IH Hs). reflexivity.
Qed.

Lemma split_app sep a b :
  split sep (a ++ String sep b) = (split sep a ++ split sep b)%list.
Proof.
  induction a as [|c a IH].
  - rewrite sapp_nil_l. simpl. rewrite Ascii.eqb_refl. reflexivity.
  - rewrite sapp_cons. simpl. destruct (Ascii.eqb c sep).
    + rewrite IH. reflexivity.
    + rewrite IH. pose proof (split_nonempty sep a) as Hne.
      destruct (split sep a) as [|p ps]; [congruence|reflexivity].
Qed.

Lemma split_join sep parts :
  parts <> [] ->
  split sep (join (String sep "") parts) = mjoin (split sep <$> parts).
Proof.
  induction parts as [|p ps IH]; [congruence|]. intros _.
  destruct ps as [|q ps].
  - simpl. rewrite List.app_nil_r. reflexivity.
  - change (join (String sep "") (p :: q :: ps))
      with (p ++ String sep "" ++ join (String sep "") (q :: ps)).
    rewrite sapp_cons, sapp_nil_l, split_app, IH by discriminate.
    reflexivity.
Qed.

Lemma join_elem sep parts p :
  p ∈ parts -> exists a b, join sep parts = a ++ p ++ b.
Proof.
  induction parts as [|q ps IH]; intros Hin; [by apply elem_of_nil in Hin|].
  apply elem_of_cons in Hin as [-> | Hin].
  - destruct ps as [|r ps].
    + exists "", "". simpl. rewrite sapp_nil_l, sapp_nil_r. reflexivity.
    + exists "", (sep ++ join sep (r :: ps)). reflexivity.
  - destruct (IH Hin) as (a & b & E). destruct ps as [|r ps].
    + by apply elem_of_nil in Hin.
    + exists (q ++ sep ++ a), b.
      change (join sep (q :: r :: ps)) with (q ++ sep ++ join sep (r :: ps)).
      rewrite E, !sapp_assoc. reflexivity.
Qed.

Lemma lstrip_id s :
  all_chars (fun c => negb (isspace c)) s = true -> lstrip s = s.
Proof.
  destruct s as [|c s]; [reflexivity|].
  simpl. intros [Hc _]%andb_true_iff.
  apply negb_true_iff in Hc. rewrite Hc. reflexivity.
Qed.

Lemma rstrip_id s :
  all_chars (fun c => negb (isspace c)) s = true -> rstrip s = s.
Proof.
  induction s as [|c s IH]; [reflexivity|].
  simpl. intros [Hc Hs]%andb_true_iff.
  apply negb_true_iff in Hc. rewrite (IH Hs), Hc.
  destruct s; reflexivity.
Qed.

Lemma strip_blank s :
  all_chars (fun c => negb (isspace c)) s = true -> strip (String " " s) = s.
Proof.
  intros Hs. unfold strip. simpl lstrip.
  rewrite (lstrip_id _ Hs). apply rstrip_id, Hs.
Qed.

Lemma strip_id s :
  all_chars (fun c => negb (isspace c)) s = true -> strip s = s.
Proof.
  intros Hs. unfold strip. rewrite (lstrip_id _ Hs). apply rstrip_id, Hs.
Qed.

(** Digits. *)

Lemma digit_val_bound c d : digit_val c = Some d -> d < 10.
Proof.
  unfold digit_val. destruct (_ && _) eqn:E; [|discriminate].
  intros [= <-]. apply andb_true_iff in E as [H1 H2].
  apply N.leb_le in H1, H2. lia.
Qed.

Lemma digit_val_char d : d < 10 -> digit_val (digit_char d) = Some d.
Proof.
  intros Hd. unfold digit_val, digit_char.
  rewrite N_ascii_embedding by lia.
  replace (48 <=? 48 + d) with true by (symmetry; apply N.leb_le; lia).
  replace (48 + d <=? 57) with true by (symmetry; apply N.leb_le; lia).
  simpl. f_equal. lia.
Qed.

Lemma is_digit_char d : d < 10 -> is_digit (digit_char d) = true.
Proof. intros Hd. unfold is_digit. rewrite digit_val_char by exact Hd. reflexivity. Qed.

Lemma is_digit_not_space c : is_digit c = true -> negb (isspace c) = true.
Proof.
  unfold is_digit, digit_val, isspace.
  destruct (_ && _) eqn:E; [|discriminate]. intros _.
  apply andb_true_iff in E as [H1 H2]. apply N.leb_le in H1, H2.
  apply negb_true_iff, orb_false_iff. split; apply andb_false_iff; right;
    apply N.leb_gt; lia.
Qed.

Lemma is_digit_not c x :
  is_digit x = false -> is_digit c = true -> negb (Ascii.eqb c x) = true.
Proof.
  intros Hx Hc. apply negb_true_iff, Ascii.eqb_neq. intros ->. congruence.
Qed.

Lemma pad_digits w n : all_chars is_digit (pad w n) = true.
Proof.
  revert n. induction w as [|w IH]; intros n; [reflexivity|].
  simpl pad. rewrite all_chars_app, IH. simpl.
  rewrite is_digit_char; [reflexivity|].
  apply N.mod_lt. lia.
Qed.

Lemma pad_length w n : String.length (pad w n) = w.
Proof.
  revert n. induction w as [|w IH]; intros n; [reflexivity|].
  simpl pad. rewrite length_app, IH. simpl. lia.
Qed.

Lemma pad_no_space w n :
  all_chars (fun c => negb (isspace c)) (pad w n) = true.
Proof. eapply all_chars_impl; [apply is_digit_not_space|apply pad_digits]. Qed.

Lemma pad_has_char x w n : is_digit x = false -> has_char x (pad w n) = false.
Proof.
  intros Hx. apply has_char_all_chars.
  eapply all_chars_impl; [intros c; apply (is_digit_not c x Hx)|apply pad_digits].
Qed.

Lemma digits_acc_app acc a b :
  digits_acc acc (a ++ b) =
  match digits_acc acc a with
  | Some v => digits_acc v b
  | None => None
  end.
Proof.
  revert acc. induction a as [|c a IH]; intros acc; [reflexivity|].
  rewrite sapp_cons. simpl. destruct (digit_val c); [apply IH|reflexivity].
Qed.

Lemma digits_acc_pad w acc n :
  digits_acc acc (pad w n) = Some (acc * 10 ^ N.of_nat w + n mod 10 ^ N.of_nat w).
Proof.
  revert acc n. induction w as [|w IH]; intros acc n.
  - simpl. rewrite N.mod_1_r. f_equal. lia.
  - simpl pad. rewrite digits_acc_app, IH. simpl digits_acc.
    rewrite digit_val_char by (apply N.mod_lt; lia).
    f_equal. rewrite Nat2N.inj_succ, N.pow_succ_r'.
    set (p := 10 ^ N.of_nat w).
    assert (Hp : 0 < p) by (apply N.neq_0_lt_0, N.pow_nonzero; lia).
    rewrite (N.Div0.mod_mul_r n 10 p).
    pose proof (N.div_mod n 10 ltac:(lia)) as Hn.
    rewrite (N.mul_comm 10 p).
    nia.
Qed.

Lemma digits_pad w n :
  (0 < w)%nat -> n < 10 ^ N.of_nat w -> digits (pad w n) = Some n.
Proof.
  intros Hw Hn. unfold digits.
  destruct (pad w n) as [|c r] eqn:E.
  - apply (f_equal String.length) in E. rewrite pad_length in E.
    simpl in E. lia.
  - rewrite <- E, digits_acc_pad. f_equal. rewrite N.mod_small by exact Hn. lia.
Qed.

Lemma int_digits_digits acc s b :
  all_chars is_digit s = true -> s <> "" \/ b = true ->
  int_digits acc b s = digits_acc acc s.
Proof.
  revert acc b. induction s as [|c s IH]; intros acc b Hs Hb.
  - destruct Hb as [Hb | ->]; [congruence|reflexivity].
  - simpl in *. apply andb_true_iff in Hs as [Hc Hs].
    unfold is_digit in Hc. destruct (digit_val c); [|discriminate].
    apply IH; [exact Hs|by right].
Qed.

Lemma is_digit_not_blank c : is_digit c = true -> negb (is_blank c) = true.
Proof.
  unfold is_digit, digit_val, is_blank.
  destruct (_ && _) eqn:E; [|discriminate]. intros _.
  apply andb_true_iff in E as [H1 H2]. apply N.leb_le in H1, H2.
  apply negb_true_iff, orb_false_iff. split.
  - apply andb_false_iff; right; apply N.leb_gt; lia.
  - apply N.eqb_neq. lia.
Qed.

Lemma skip_left_id s :
  all_chars (fun c => negb (is_blank c)) s = true -> skip_left s = s.
Proof.
  destruct s as [|c s]; [reflexivity|].
  simpl. intros [Hc _]%andb_true_iff.
  apply negb_true_iff in Hc. rewrite Hc. reflexivity.
Qed.

Lemma skip_right_id s :
  all_chars (fun c => negb (is_blank c)) s = true -> skip_right s = s.
Proof.
  induction s as [|c s IH]; [reflexivity|].
  simpl. intros [Hc Hs]%andb_true_iff.
  apply negb_true_iff in Hc. rewrite (IH Hs), Hc.
  destruct s; reflexivity.
Qed.

Lemma pad_no_blank w n :
  all_chars (fun c => negb (is_blank c)) (pad w n) = true.
Proof. eapply all_chars_impl; [apply is_digit_not_blank|apply pad_digits]. Qed.

Lemma int_pad w n :
  (0 < w)%nat -> n < 10 ^ N.of_nat w -> int (pad w n) = Some (Z.of_N n).
Proof.
  intros Hw Hn. unfold int.
  rewrite (skip_left_id _ (pad_no_blank w n)), (skip_right_id _ (pad_no_blank w n)).
  assert (Hne : pad w n <> "").
  { intros E. apply (f_equal String.length) in E. rewrite pad_length in E.
    simpl in E. lia. }
  assert (Hint : int_digits 0 false (pad w n) = Some n).
  { rewrite int_digits_digits by (auto using pad_digits).
    rewrite digits_acc_pad. f_equal. rewrite N.mod_small by exact Hn. lia. }
  pose proof (pad_digits w n) as Hd.
  destruct (pad w n) as [|c r] eqn:E; [congruence|].
  simpl in Hd. apply andb_true_iff in Hd as [Hc _].
  destruct (Ascii.eqb_spec c "+") as [-> | Hplus]; [discriminate|].
  destruct (Ascii.eqb_spec c "-") as [-> | Hminus]; [discriminate|].
  assert (Hgoal : Z.of_N <$> int_digits 0 false (String c r) = Some (Z.of_N n))
    by (rewrite Hint; reflexivity).
  destruct c as [[] [] [] [] [] [] [] []]; try exact Hgoal; congruence.
Qed.

End PyStrFacts.

(** ** Dates and times *)

Module PyTimeFacts.
Import PyStr PyTime PyStrFacts.

Lemma take_exact_app a b : take_exact (String.length a) (a ++ b) = Some (a, b).
Proof.
  induction a as [|c a IH]; [reflexivity|].
  rewrite sapp_cons. simpl. rewrite IH. reflexivity.
Qed.

Lemma field_pad w n r :
  (0 < w)%nat -> n < 10 ^ N.of_nat w -> field w (pad w n ++ r) = Some (n, r).
Proof.
  intros Hw Hn. unfold field.
  rewrite <- (pad_length w n) at 1.
  rewrite take_exact_app, digits_pad by assumption. reflexivity.
Qed.

(** The lexicographic order absorbs a pointwise smaller left operand. *)
Lemma lex_ltb_le a a' b :
  Forall2 N.le a' a -> lex_ltb a b = true -> lex_ltb a' b = true.
Proof.
  intros Hle. revert b. induction Hle as [|x' x a' a Hx Hle IH]; intros b.
  - exact (fun H => H).
  - destruct b as [|y b]; [discriminate|]. simpl.
    intros [Hlt | [Heq Hrest]%andb_true_iff]%orb_true_iff.
    + apply N.ltb_lt in Hlt. apply orb_true_iff. left. apply N.ltb_lt. lia.
    + apply N.eqb_eq in Heq. subst y.
      destruct (N.eq_dec x' x) as [-> | Hne].
      * rewrite N.eqb_refl, (IH _ Hrest). apply orb_true_r.
      * apply orb_true_iff. left. apply N.ltb_lt. lia.
Qed.

Lemma gtb_on_the_hour now e :
  gtb now e = true -> gtb now (on_the_hour e) = true.
Proof.
  unfold gtb. apply lex_ltb_le. unfold fields, on_the_hour. simpl.
  repeat constructor; lia.
Qed.

Lemma valid_on_the_hour e : valid e = true -> valid (on_the_hour e) = true.
Proof.
  unfold valid. simpl. intros H.
  repeat (apply andb_true_iff in H as [H ?]).
  repeat (apply andb_true_iff; split); assumption || reflexivity.
Qed.

Lemma isoformat_split e : isoformat e = hour_text e ++ String ":" (tail_text e).
Proof.
  unfold isoformat, hour_text, tail_text. rewrite !sapp_assoc. reflexivity.
Qed.

Lemma hour_text_plain e :
  all_chars (fun c => negb (isspace c) && negb (Ascii.eqb c ":")) (hour_text e)
  = true.
Proof.
  assert (Hpad : forall w n,
    all_chars (fun c => negb (isspace c) && negb (Ascii.eqb c ":")) (pad w n)
    = true).
  { intros w n. eapply all_chars_impl; [|apply pad_digits].
    intros c Hc. rewrite (is_digit_not_space c Hc).
    rewrite (is_digit_not c ":" eq_refl Hc). reflexivity. }
  unfold hour_text. rewrite !all_chars_app, !Hpad. reflexivity.
Qed.

Lemma fromisoformat_hour_text e :
  valid e = true -> fromisoformat (hour_text e) = Some (on_the_hour e).
Proof.
  intros Hv. pose proof (valid_on_the_hour e Hv) as Hv'.
  unfold valid in Hv. repeat (apply andb_true_iff in Hv as [Hv ?]).
  repeat match goal with
         | H : (_ <=? _) = true |- _ => apply N.leb_le in H
         | H : (_ <? _) = true |- _ => apply N.ltb_lt in H
         end.
  assert (Hdim : days_in_month (year e) (month e) <= 31).
  { unfold days_in_month. destruct (is_leap (year e));
      destruct (month e) as [|p]; try lia;
      do 4 (try destruct p as [p|p|]); lia. }
  unfold fromisoformat, hour_text.
  rewrite field_pad by (simpl; lia). rewrite sapp_cons, sapp_nil_l. cbv beta iota.
  rewrite field_pad by (simpl; lia). rewrite sapp_cons, sapp_nil_l. cbv beta iota.
  rewrite field_pad by (simpl; lia). rewrite sapp_cons, sapp_nil_l. cbv beta iota.
  rewrite !pad_has_char by reflexivity.
  unfold parse_hh_mm_ss_ff.
  rewrite <- (sapp_nil_r (pad 2 (hour e))).
  rewrite field_pad by (simpl; lia).
  change (false || false) with false. cbv beta iota.
  change (mk_datetime (year e) (month e) (day e) (hour e) 0 0 0)
    with (on_the_hour e).
  rewrite Hv'. reflexivity.
Qed.

End PyTimeFacts.

(** ** Approval requests: expiry on read *)

Module ApprovalFacts.
Import PyStr PyTime Vault ApprovalManager PyStrFacts PyTimeFacts.

Lemma has_char_app c a b : has_char c (a ++ b) = has_char c a || has_char c b.
Proof.
  induction a as [|x a IH]; [reflexivity|].
  rewrite sapp_cons. simpl. rewrite IH. apply orb_assoc.
Qed.

Lemma hour_text_no_colon e : has_char ":" (hour_text e) = false.
Proof.
  apply has_char_all_chars.
  eapply all_chars_impl; [|apply hour_text_plain].
  intros c [_ H]%andb_true_iff. exact H.
Qed.

Lemma hour_text_no_space e :
  all_chars (fun c => negb (isspace c)) (hour_text e) = true.
Proof.
  eapply all_chars_impl; [|apply hour_text_plain].
  intros c [H _]%andb_true_iff. exact H.
Qed.

Lemma expires_line_split e :
  exists rest,
    split ":" (expires_line e) = "expires" :: String " " (hour_text e) :: rest.
Proof.
  exists (split ":" (tail_text e)).
  unfold expires_line. rewrite isoformat_split.
  change ("expires: " ++ hour_text e ++ String ":" (tail_text e))
    with ("expires" ++ String ":" (String " " (hour_text e ++ String ":" (tail_text e)))).
  rewrite split_app.
  change (String " " (hour_text e ++ String ":" (tail_text e)))
    with (String " " (hour_text e) ++ String ":" (tail_text e)).
  rewrite split_app.
  rewrite (split_no_sep ":" (String " " (hour_text e)))
    by (simpl; apply hour_text_no_colon).
  reflexivity.
Qed.

(** The comparison [check_status] makes for the line of an expiry [e]: it is
    made against [e] truncated to the hour. *)
Lemma line_expired_expires_line now e :
  valid e = true ->
  line_expired now (expires_line e) = gtb now (on_the_hour e).
Proof.
  intros Hv. unfold line_expired.
  destruct (expires_line_split e) as [rest ->].
  rewrite (strip_blank _ (hour_text_no_space e)).
  rewrite (fromisoformat_hour_text e Hv). reflexivity.
Qed.

Lemma expires_line_contains e : contains "expires:" (expires_line e) = true.
Proof.
  unfold expires_line.
  change ("expires: " ++ isoformat e)
    with ("" ++ "expires:" ++ String " " (isoformat e)).
  apply contains_app.
Qed.

Lemma expires_line_one_line e : has_char nl (expires_line e) = false.
Proof.
  unfold expires_line, isoformat.
  rewrite !has_char_app, !pad_has_char by reflexivity.
  destruct (microsecond e =? 0); [reflexivity|].
  rewrite has_char_app, pad_has_char by reflexivity. reflexivity.
Qed.

Lemma any_line_expired_elem now line lines :
  line ∈ lines ->
  contains "expires:" line = true -> line_expired now line = true ->
  any_line_expired now lines = true.
Proof.
  intros Hin Hc He. induction lines as [|l ls IH]; [by apply elem_of_nil in Hin|].
  simpl. apply elem_of_cons in Hin as [<- | Hin].
  - rewrite Hc, He. reflexivity.
  - rewrite (IH Hin). destruct (_ && _); reflexivity.
Qed.

Lemma split_join_elem line lines :
  line ∈ lines -> has_char nl line = false ->
  line ∈ split nl (join (String nl "") lines).
Proof.
  intros Hin Hnl. rewrite split_join by (intros ->; by apply elem_of_nil in Hin).
  apply list_elem_of_join. exists (split nl line). split.
  - rewrite (split_no_sep _ _ Hnl). apply list_elem_of_singleton. reflexivity.
  - apply list_elem_of_fmap. eauto.
Qed.

Lemma pending_status_expired now e lines :
  valid e = true -> expires_line e ∈ lines -> gtb now e = true ->
  pending_status now (join (String nl "") lines) = "expired".
Proof.
  intros Hv Hin Hgt. unfold pending_status.
  assert (Hany : any_line_expired now (split nl (join (String nl "") lines)) = true).
  { apply (any_line_expired_elem now (expires_line e)).
    - apply split_join_elem; [exact Hin|apply expires_line_one_line].
    - apply expires_line_contains.
    - rewrite (line_expired_expires_line now e Hv).
      apply gtb_on_the_hour, Hgt. }
  rewrite Hany.
  destruct (join_elem (String nl "") lines _ Hin) as (a & b & ->).
  unfold expires_line.
  change ("expires: " ++ isoformat e)
    with ("expires:" ++ String " " (isoformat e)).
  rewrite (sapp_assoc "expires:"), contains_app. reflexivity.
Qed.

(** The file is found in Pending_Approval, the first folder looked at. *)
Lemma check_status_pending now filename (v : vault) content :
  lookup_node v pending_approval filename = Some (File content) ->
  check_status now filename v = (Ok (pending_status now content), v).
Proof.
  intros Hfile. unfold check_status, folders, check_status_in.
  unfold bind at 1. unfold exists_ at 1. rewrite Hfile.
  rewrite bool_decide_eq_true_2 by eauto.
  change (String.eqb "pending" "pending") with true. cbv iota.
  unfold bind, read_text, ret. rewrite Hfile. reflexivity.
Qed.

(** C5. A pending request whose stored [expires] timestamp lies strictly in
    the past is reported as ['expired'] rather than ['pending'], and the
    query leaves the vault as it found it: the file is still in
    Pending_Approval. *)
Theorem check_status_expired_on_read now e filename lines (v : vault) :
  valid e = true ->
  lookup_node v pending_approval filename
    = Some (File (join (String nl "") lines)) ->
  expires_line e ∈ lines ->
  gtb now e = true ->
  check_status now filename v = (Ok "expired", v)
  /\ lookup_node v pending_approval filename
     = Some (File (join (String nl "") lines)).
Proof.
  intros Hv Hfile Hin Hgt. split; [|exact Hfile].
  rewrite (check_status_pending _ _ _ _ Hfile).
  rewrite (pending_status_expired now e lines Hv Hin Hgt). reflexivity.
Qed.

End ApprovalFacts.

Module ApprovalChecks.
Import PyStr PyTime Vault ApprovalManager Examples.

Lemma check_status_expired_on_read_witness :
  check_status now0 "PAY_INVOICE.md" vault0 = (Ok "expired", vault0)
  /\ lookup_node vault0 pending_approval "PAY_INVOICE.md"
     = Some (File (join (String nl "") request0)).
Proof.
  apply (ApprovalFacts.check_status_expired_on_read
           now0 expiry0 "PAY_INVOICE.md" request0 vault0).
  - reflexivity.
  - vm_compute. reflexivity.
  - do 5 apply list_elem_of_further. apply list_elem_of_here.
  - reflexivity.
Defined.

(** A request without any [expires:] text is pending. *)
Lemma pending_status_absent now content :
  contains "expires:" content = false -> pending_status now content = "pending".
Proof. intros H. unfold pending_status. rewrite H. reflexivity. Qed.

(** [check_status] returns a status for every regular file in
    Pending_Approval: nothing is raised, whatever the text. *)
Lemma check_status_total now filename (v : vault) content :
  lookup_node v pending_approval filename = Some (File content) ->
  exists status, check_status now filename v = (Ok status, v)
                 /\ (status = "pending" \/ status = "expired").
Proof.
  intros Hfile. rewrite (ApprovalFacts.check_status_pending _ _ _ _ Hfile).
  eexists. split; [reflexivity|].
  unfold pending_status. destruct (_ && _); auto.
Qed.

(** The comparison is made against the hour, not the timestamp: a request
    that expires at 10:30 is reported expired at 10:15 of that day. *)
Lemma check_status_before_expiry :
  gtb (mk_datetime 2026 1 7 10 15 0 0) expiry0 = false
  /\ check_status (mk_datetime 2026 1 7 10 15 0 0) "PAY_INVOICE.md" vault0
     = (Ok "expired", vault0).
Proof. split; [reflexivity|]. vm_compute. reflexivity. Qed.

(** C8. The request [request_bad] stores [expires: 2020-01-01T10:99:99],
    which [fromisoformat] rejects; [check_status] nevertheless reports
    ['expired'], because it parses only the text between the first two
    colons, [2020-01-01T10]. *)
Theorem check_status_malformed_expires :
  fromisoformat "2020-01-01T10:99:99" = None
  /\ request_bad !! 2%nat = Some "expires: 2020-01-01T10:99:99"
  /\ check_status now0 "REQ.md" vault_bad = (Ok "expired", vault_bad).
Proof. split; [reflexivity|]. split; [reflexivity|]. vm_compute. reflexivity. Qed.

End ApprovalChecks.

(** ** Moving an item to Done *)

Module TransitionFacts.
Import PyStr Vault PlanManager Examples.

Lemma rename_file_onto_file pf (v : vault) sdir sname ddir dname sf df c c' :
  sdir <> ddir ->
  v !! sdir = Some sf -> v !! ddir = Some df ->
  sf !! sname = Some (File c) -> df !! dname = Some (File c') ->
  rename pf sdir sname ddir dname v =
  match pf with
  | Posix => (Ok tt, <[ddir := <[dname := File c]> df]>
                       (<[sdir := delete sname sf]> v))
  | Windows => (Raise FileExistsError, v)
  end.
Proof.
  intros Hne Hs Hd Hsn Hdn. unfold rename. rewrite Hs, Hd, Hsn, Hdn.
  rewrite decide_False by (intros [? _]; done).
  destruct pf; [|reflexivity].
  unfold move. rewrite decide_False by done. reflexivity.
Qed.

Lemma rename_file_fresh pf (v : vault) sdir sname ddir dname sf df c :
  sdir <> ddir ->
  v !! sdir = Some sf -> v !! ddir = Some df ->
  sf !! sname = Some (File c) -> df !! dname = None ->
  rename pf sdir sname ddir dname v =
  (Ok tt, <[ddir := <[dname := File c]> df]> (<[sdir := delete sname sf]> v)).
Proof.
  intros Hne Hs Hd Hsn Hdn. unfold rename. rewrite Hs, Hd, Hsn, Hdn.
  rewrite decide_False by (intros [? _]; done).
  unfold move. rewrite decide_False by done. reflexivity.
Qed.

Lemma find_file_exact (v : vault) filename n :
  lookup_node v plans_folder filename = Some n ->
  _find_file filename v = (Ok (Some filename), v).
Proof.
  intros H. unfold _find_file, bind, exists_. rewrite H.
  rewrite bool_decide_eq_true_2 by eauto. reflexivity.
Qed.







End TransitionFacts.

(** ** The orchestrator's scans *)

Module OrchestratorFacts.
Import PyStr Orchestrator Examples.

(** What one scan adds: fresh names, each once, all of them remembered. *)
Lemma orchestrator_scan_spec entries seen acc :
  exists new,
    scan entries seen acc = ((acc ++ new)%list, list_to_set new ∪ seen)
    /\ NoDup new /\ (forall x, x ∈ new -> x ∉ seen).
Proof.
  revert seen acc. induction entries as [|e rest IH]; intros seen acc.
  - exists []. simpl. rewrite app_nil_r. split; [f_equal; set_solver|].
    split; [constructor|]. intros x Hx. by apply elem_of_nil in Hx.
  - simpl.
    assert (Hskip : exists new,
      scan rest seen acc = ((acc ++ new)%list, list_to_set new ∪ seen)
      /\ NoDup new /\ (forall x, x ∈ new -> x ∉ seen)) by apply IH.
    destruct (is_file e && _); [|exact Hskip].
    destruct (bool_decide (name e ∉ seen)) eqn:Hfresh; [|exact Hskip].
    apply bool_decide_eq_true in Hfresh.
    destruct (opened e) as [text|]; [|exact Hskip].
    destruct (truthy _); [|exact Hskip].
    destruct (IH ({[name e]} ∪ seen) (acc ++ [name e])%list)
      as (new & -> & Hnd & Hnew).
    exists (name e :: new). split; [|split].
    + rewrite <- app_assoc. f_equal. set_solver.
    + constructor; [|exact Hnd]. intros Hin. apply (Hnew _ Hin). set_solver.
    + intros x [-> | Hx]%elem_of_cons; [exact Hfresh|].
      specialize (Hnew x Hx). set_solver.
Qed.

Lemma check_for_new_tasks_spec dir st :
  let '(batch, st') := check_for_new_tasks dir st in
  NoDup batch
  /\ (forall x, x ∈ batch -> x ∉ processed_files st)
  /\ processed_files st' = list_to_set batch ∪ processed_files st.
Proof.
  unfold check_for_new_tasks. destruct dir as [entries|e].
  - destruct (orchestrator_scan_spec entries (processed_files st) []) as (new & -> & Hnd & Hnew).
    simpl. auto.
  - simpl. split; [constructor|]. split; [|set_solver].
    intros x Hx. by apply elem_of_nil in Hx.
Qed.

(** Whatever the agent does, the set of handled names stays as it is. *)
Lemma trigger_qwen_code_processed batch o st :
  processed_files (snd (trigger_qwen_code batch o st)) = processed_files st.
Proof. destruct o; reflexivity. Qed.

Lemma cycle_spec dir o st :
  let '(batch, st') := cycle dir o st in
  NoDup batch
  /\ (forall x, x ∈ batch -> x ∉ processed_files st)
  /\ processed_files st' = list_to_set batch ∪ processed_files st.
Proof.
  unfold cycle. pose proof (check_for_new_tasks_spec dir st) as H.
  destruct (check_for_new_tasks dir st) as [batch st1].
  destruct batch as [|b batch]; [exact H|].
  rewrite trigger_qwen_code_processed. exact H.
Qed.

Lemma orchestrator_run_spec turns st :
  let '(batches, st') := run turns st in
  NoDup (mjoin batches)
  /\ (forall x, x ∈ mjoin batches -> x ∉ processed_files st)
  /\ processed_files st' = list_to_set (mjoin batches) ∪ processed_files st.
Proof.
  revert st. induction turns as [|[dir o] rest IH]; intros st.
  - simpl. split; [constructor|]. split; [|set_solver].
    intros x Hx. by apply elem_of_nil in Hx.
  - simpl. pose proof (cycle_spec dir o st) as Hc.
    destruct (cycle dir o st) as [batch st1]. specialize (IH st1).
    destruct (run rest st1) as [batches st2].
    destruct Hc as (Hnd1 & Hfresh1 & Hst1), IH as (Hnd2 & Hfresh2 & Hst2).
    simpl. split; [|split].
    + apply NoDup_app. split; [exact Hnd1|]. split; [|exact Hnd2].
      intros x Hx Hx'. apply (Hfresh2 x Hx'). rewrite Hst1. set_solver.
    + intros x [Hx | Hx]%elem_of_app; [by apply Hfresh1|].
      specialize (Hfresh2 x Hx). rewrite Hst1 in Hfresh2. set_solver.
    + rewrite Hst2, Hst1. set_solver.
Qed.

(** C9. Over any run of the loop, whatever the folder holds at each scan and
    however each dispatch ends, no file name is returned twice: the batches
    of all the scans together hold every name at most once, and none that
    was already in [processed_files]. *)
Theorem check_for_new_tasks_at_most_once turns st :
  NoDup (mjoin (fst (run turns st)))
  /\ forall x, x ∈ mjoin (fst (run turns st)) -> x ∉ processed_files st.
Proof.
  pose proof (orchestrator_run_spec turns st) as H. destruct (run turns st) as [batches st'].
  simpl. destruct H as (H1 & H2 & _). auto.
Qed.




End OrchestratorFacts.

(** ** The dedup cache of the Gmail watchers *)

Module GmailFacts.
Import PyStr PySet Gmail GmailWatcher.

Section Order.
Context `{SetOrder}.

Lemma last_n_length {A} n (l : list A) : (length (last_n n l) <= n)%nat.
Proof. unfold last_n. rewrite length_drop. lia. Qed.

Lemma mem_false x (s : pyset) : mem x s = false <-> x ∉ s.
Proof.
  unfold mem. induction s as [|y s IH]; simpl.
  - split; [intros _ Hx; by apply elem_of_nil in Hx|reflexivity].
  - rewrite orb_false_iff, IH, not_elem_of_cons, String.eqb_neq. reflexivity.
Qed.

(** What one pass over the listing reports: emails under fresh ids, each
    id once, and exactly these ids are added to the set. *)
Lemma gmail_scan_spec important msgs ids acc :
  exists r new,
    scan important msgs ids acc = (r, (ids ++ (id <$> new))%list, (acc ++ new)%list)
    /\ NoDup (id <$> new) /\ (forall x, x ∈ id <$> new -> x ∉ ids).
Proof.
  revert ids acc. induction msgs as [|l rest IH]; intros ids acc.
  - exists (Ok tt), []. simpl. rewrite !app_nil_r.
    split; [reflexivity|]. split; [constructor|].
    intros x Hx. by apply elem_of_nil in Hx.
  - simpl. destruct (mem (msg_id l) ids) eqn:Hmem.
    { apply IH. }
    destruct (fetched l) as [b|e].
    2:{ exists (Raise e), []. simpl. rewrite !app_nil_r.
        split; [reflexivity|]. split; [constructor|].
        intros x Hx. by apply elem_of_nil in Hx. }
    destruct (important _); [|apply IH].
    unfold add. rewrite Hmem. apply mem_false in Hmem.
    destruct (IH (ids ++ [msg_id l])%list (acc ++ [mk_message (msg_id l) b])%list)
      as (r & new & -> & Hnd & Hnew).
    exists r, (mk_message (msg_id l) b :: new). split; [|split].
    + simpl. rewrite <- !app_assoc. reflexivity.
    + simpl. constructor; [|exact Hnd].
      intros Hin. apply (Hnew _ Hin). set_solver.
    + simpl. intros x [-> | Hx]%elem_of_cons; [exact Hmem|].
      specialize (Hnew x Hx). set_solver.
Qed.

Lemma save_processed_ids st :
  processed_ids (_save_processed_ids st) = processed_ids st.
Proof. reflexivity. Qed.

Lemma poll_ok_nothing st : poll_ok st ([], st).
Proof.
  unfold poll_ok. simpl. rewrite app_nil_r. split; [reflexivity|].
  split; [constructor|]. intros x Hx. by apply elem_of_nil in Hx.
Qed.

Lemma check_for_updates_ok resp st : poll_ok st (check_for_updates resp st).
Proof.
  unfold check_for_updates. destruct (negb (service st)); [apply poll_ok_nothing|].
  destruct resp as [msgs|e]; [|apply poll_ok_nothing].
  destruct (gmail_scan_spec _is_important msgs (processed_ids st) [])
    as (r & new & -> & Hnd & Hnew).
  simpl app. destruct r as [[]|e]; [destruct new as [|m new]|];
    unfold poll_ok; simpl; auto.
Qed.

Lemma skill_check_for_updates_ok resp st :
  poll_ok st (GmailSkill.check_for_updates resp st).
Proof.
  unfold GmailSkill.check_for_updates.
  destruct (negb (service st)); [apply poll_ok_nothing|].
  destruct resp as [msgs|e]; [|apply poll_ok_nothing].
  destruct (gmail_scan_spec GmailSkill._is_important msgs (processed_ids st) [])
    as (r & new & -> & Hnd & Hnew).
  simpl app. destruct r as [[]|e]; unfold poll_ok; simpl; auto.
Qed.

Lemma gmail_run_spec polls st :
  let '(reports, st') := run polls st in
  processed_ids st' = (processed_ids st ++ created_for reports)%list
  /\ NoDup (created_for reports)
  /\ (forall x, x ∈ created_for reports -> x ∉ processed_ids st).
Proof.
  revert st. induction polls as [|resp rest IH]; intros st.
  - simpl. unfold created_for. simpl. rewrite app_nil_r.
    split; [reflexivity|]. split; [constructor|].
    intros x Hx. by apply elem_of_nil in Hx.
  - simpl. pose proof (check_for_updates_ok resp st) as Hc.
    destruct (check_for_updates resp st) as [emails st1]. specialize (IH st1).
    destruct (run rest st1) as [reports st2].
    destruct Hc as (Hst1 & Hnd1 & Hfresh1), IH as (Hst2 & Hnd2 & Hfresh2).
    simpl in *. unfold created_for in *. simpl. rewrite fmap_app.
    split; [|split].
    + rewrite Hst2, Hst1, <- app_assoc. reflexivity.
    + apply NoDup_app. split; [exact Hnd1|]. split; [|exact Hnd2].
      intros x Hx Hx'. apply (Hfresh2 x Hx'). rewrite Hst1. set_solver.
    + intros x [Hx | Hx]%elem_of_app; [by apply Hfresh1|].
      specialize (Hfresh2 x Hx). rewrite Hst1 in Hfresh2. set_solver.
Qed.

Lemma check_for_updates_file resp st :
  file_kept_or_bounded st (snd (check_for_updates resp st)).
Proof.
  unfold check_for_updates. destruct (negb (service st)); [by left|].
  destruct resp as [msgs|e]; [|by left].
  destruct (scan _ msgs _ _) as [[[[]|e] ids] new]; [|by left].
  destruct new; [by left|]. right. eexists. split; [reflexivity|].
  apply last_n_length.
Qed.

Lemma skill_check_for_updates_file resp st :
  file_kept_or_bounded st (snd (GmailSkill.check_for_updates resp st)).
Proof.
  unfold GmailSkill.check_for_updates. destruct (negb (service st)); [by left|].
  destruct resp as [msgs|e]; [|by left].
  destruct (scan _ msgs _ _) as [[[[]|e] ids] new]; [|by left].
  right. eexists. split; [reflexivity|]. apply last_n_length.
Qed.

Lemma run_file polls st : file_kept_or_bounded st (snd (run polls st)).
Proof.
  revert st. induction polls as [|resp rest IH]; intros st; [by left|].
  simpl. pose proof (check_for_updates_file resp st) as Hc.
  destruct (check_for_updates resp st) as [emails st1]. specialize (IH st1).
  destruct (run rest st1) as [reports st2]. simpl in *.
  destruct IH as [E | IH]; [|by right].
  unfold file_kept_or_bounded. rewrite E. exact Hc.
Qed.
End Order.

End GmailFacts.

(** ** The filesystem watcher *)

Module FileSystemFacts.
Import PyStr FileSystemWatcher.




End FileSystemFacts.

(** ** The persisted cache *)

Module WatcherClaims.
Import PyStr PySet Gmail Examples.

(** C10. Every save of either Gmail watcher writes at most 1000 ids, so after
    any sequence of polls the cache file is the one the process found or
    holds at most 1000 ids.  The set in memory is not cut: a save leaves it
    as it is and polls only ever append to it. *)
Theorem cache_file_at_most_1000 `{SetOrder} :
  (forall st, exists ids,
      GmailWatcher.cache_file (GmailWatcher._save_processed_ids st) = Some ids
      /\ (length ids <= 1000)%nat)
  /\ (forall st, exists ids,
      GmailWatcher.cache_file (GmailSkill._save_processed_ids st) = Some ids
      /\ (length ids <= 1000)%nat)
  /\ (forall polls st,
      GmailWatcher.file_kept_or_bounded st (snd (GmailWatcher.run polls st)))
  /\ (forall resp st,
      GmailWatcher.file_kept_or_bounded st
        (snd (GmailSkill.check_for_updates resp st)))
  /\ (forall st,
      GmailWatcher.processed_ids (GmailWatcher._save_processed_ids st)
      = GmailWatcher.processed_ids st
      /\ GmailWatcher.processed_ids (GmailSkill._save_processed_ids st)
         = GmailWatcher.processed_ids st)
  /\ (forall polls st,
      GmailWatcher.processed_ids (snd (GmailWatcher.run polls st))
      = (GmailWatcher.processed_ids st
         ++ GmailWatcher.created_for (fst (GmailWatcher.run polls st)))%list)
  /\ (forall resp st,
      GmailWatcher.processed_ids (snd (GmailSkill.check_for_updates resp st))
      = (GmailWatcher.processed_ids st
         ++ (id <$> fst (GmailSkill.check_for_updates resp st)))%list).
Proof.
  split; [|split; [|split; [|split; [|split; [|split]]]]].
  - intros st. eexists. split; [reflexivity|]. apply GmailFacts.last_n_length.
  - intros st. eexists. split; [reflexivity|]. apply GmailFacts.last_n_length.
  - apply GmailFacts.run_file.
  - apply GmailFacts.skill_check_for_updates_file.
  - intros st. split; reflexivity.
  - intros polls st. pose proof (GmailFacts.gmail_run_spec polls st) as Hr.
    destruct (GmailWatcher.run polls st) as [reports st']. apply Hr.
  - intros resp st. apply GmailFacts.skill_check_for_updates_ok.
Qed.

(** C6, the nearby statement.  The Gmail watcher writes its cache file at
    the end of every poll whose message loop ran through and that reported
    at least one new email, and writes nothing on a poll that reported none.
    The gmail-watcher skill writes the file at the end of every poll whose
    message loop ran through, new emails or not. *)
Theorem cache_written_after_poll `{SetOrder} :
  (forall resp st,
      fst (GmailWatcher.check_for_updates resp st) = [] ->
      GmailWatcher.cache_file (snd (GmailWatcher.check_for_updates resp st))
      = GmailWatcher.cache_file st
      /\ GmailWatcher.cache_writes (snd (GmailWatcher.check_for_updates resp st))
         = GmailWatcher.cache_writes st)
  /\ (forall msgs st,
      GmailWatcher.service st = true ->
      GmailWatcher.completes GmailWatcher._is_important msgs st = true ->
      fst (GmailWatcher.check_for_updates (Ok msgs) st) <> [] ->
      let st' := snd (GmailWatcher.check_for_updates (Ok msgs) st) in
      GmailWatcher.cache_writes st' = S (GmailWatcher.cache_writes st)
      /\ GmailWatcher.cache_file st'
         = Some (last_n 1000 (to_list (GmailWatcher.processed_ids st'))))
  /\ (forall msgs st,
      GmailWatcher.service st = true ->
      GmailWatcher.completes GmailSkill._is_important msgs st = true ->
      let st' := snd (GmailSkill.check_for_updates (Ok msgs) st) in
      GmailWatcher.cache_writes st' = S (GmailWatcher.cache_writes st)
      /\ GmailWatcher.cache_file st'
         = Some (last_n 1000 (to_list (GmailWatcher.processed_ids st')))).
Proof.
  split; [|split].
  - intros resp st. unfold GmailWatcher.check_for_updates.
    destruct (negb _); [auto|]. destruct resp as [msgs|e]; [|auto].
    destruct (GmailWatcher.scan _ msgs _ _) as [[[[]|e] ids] new]; [|auto].
    destruct new; [auto|discriminate].
  - intros msgs st Hs Hc. unfold GmailWatcher.check_for_updates.
    unfold GmailWatcher.completes in Hc. rewrite Hs. simpl negb. cbv iota.
    destruct (GmailWatcher.scan _ msgs _ _) as [[[[]|e] ids] new];
      [|discriminate].
    destruct new; [intros Hne; by destruct Hne|]. intros _. simpl. auto.
  - intros msgs st Hs Hc. unfold GmailSkill.check_for_updates.
    unfold GmailWatcher.completes in Hc. rewrite Hs. simpl negb. cbv iota.
    destruct (GmailWatcher.scan _ msgs _ _) as [[[[]|e] ids] new];
      [|discriminate].
    simpl. auto.
Qed.

Lemma cache_written_after_poll_witness :
  GmailWatcher.cache_writes
    (snd (@GmailWatcher.check_for_updates insertion_order
            (Ok [inbox_mail 1]) (GmailWatcher.init None))) = 1%nat
  /\ GmailWatcher.cache_file
       (snd (@GmailWatcher.check_for_updates insertion_order
               (Ok [inbox_mail 1]) (GmailWatcher.init None)))
     = Some (last_n 1000
               (@to_list insertion_order
                  (GmailWatcher.processed_ids
                     (snd (@GmailWatcher.check_for_updates insertion_order
                             (Ok [inbox_mail 1]) (GmailWatcher.init None)))))).
Proof.
  destruct (@cache_written_after_poll insertion_order) as (_ & Hw & _).
  apply (Hw [inbox_mail 1] (GmailWatcher.init None)).
  - reflexivity.
  - vm_compute. reflexivity.
  - vm_compute. discriminate.
Defined.

(** C6 as stated fails: the skill polls an inbox with nothing unread, reports
    nothing, and still writes the cache file. *)
Lemma skill_writes_on_empty_poll :
  fst (@GmailSkill.check_for_updates insertion_order (Ok [])
         (GmailWatcher.init None)) = []
  /\ GmailWatcher.cache_writes
       (snd (@GmailSkill.check_for_updates insertion_order (Ok [])
               (GmailWatcher.init None))) = 1%nat
  /\ GmailWatcher.cache_file
       (snd (@GmailSkill.check_for_updates insertion_order (Ok [])
               (GmailWatcher.init None))) = Some [].
Proof. vm_compute. repeat split; reflexivity. Qed.

(** Whatever the order of iteration, what a save writes are ids of the
    set. *)
Lemma saved_ids_are_members `{SetOrder} st ids x :
  GmailWatcher.cache_file (GmailWatcher._save_processed_ids st) = Some ids ->
  x ∈ ids -> x ∈ GmailWatcher.processed_ids st.
Proof.
  intros [= <-] Hx. unfold last_n in Hx. apply subseteq_drop in Hx.
  unfold to_list in Hx. by rewrite iter_order_perm in Hx.
Qed.

(** The set in memory does outgrow the bound: 1001 ids after one poll of a
    watcher started on 1000. *)
Lemma processed_ids_outgrow_bound :
  length (GmailWatcher.processed_ids
            (snd (@GmailWatcher.check_for_updates insertion_order
                    (Ok [inbox_mail 3883]) restarted))) = 1001%nat.
Proof. vm_compute. reflexivity. Qed.

(** Were the set to iterate in insertion order, a save would keep the 1000
    ids added last. *)
Lemma save_insertion_order st :
  GmailWatcher.cache_file (@GmailWatcher._save_processed_ids insertion_order st)
  = Some (last_n 1000 (GmailWatcher.processed_ids st)).
Proof. reflexivity. Qed.

(** C3.  A watcher starts on a cache file of 1000 ids and then sees one new
    important email, [m3883].  The set iterating by ascending hash, the save
    that ends the poll keeps the 1000 old ids and leaves out the id seen
    last. *)
Theorem save_drops_latest_id :
  let out := @GmailWatcher.check_for_updates (slot_order fnv1a)
               (Ok [inbox_mail 3883]) restarted in
  id <$> fst out = ["m3883"]
  /\ GmailWatcher.processed_ids (snd out) = (cached_ids ++ ["m3883"])%list
  /\ length <$> GmailWatcher.cache_file (snd out) = Some 1000%nat
  /\ mem "m3883" <$> GmailWatcher.cache_file (snd out) = Some false
  /\ (fun saved => forallb (fun x => mem x saved) cached_ids)
       <$> GmailWatcher.cache_file (snd out) = Some true.
Proof. vm_compute. repeat split; reflexivity. Qed.

End WatcherClaims.

(** ** The scheduler *)

Module SchedulerFacts.
Import PyStr PyTime Scheduler PyStrFacts Examples.

Lemma startswith_star_digits s r :
  all_chars is_digit s = true -> s <> "" -> startswith "*/" (s ++ r) = false.
Proof.
  intros Hd Hne. destruct s as [|c s]; [congruence|].
  rewrite sapp_cons.
  change (all_chars is_digit (String c s))
    with (is_digit c && all_chars is_digit s) in Hd.
  apply andb_true_iff in Hd as [Hc _].
  change (startswith "*/" (String c (s ++ r)))
    with (if Ascii.eqb "*" c then startswith "/" (s ++ r) else false).
  destruct (Ascii.eqb_spec "*" c) as [<- | _]; [discriminate|reflexivity].
Qed.

Lemma pad_nonempty w n : (0 < w)%nat -> pad w n <> "".
Proof.
  intros Hw E. apply (f_equal String.length) in E.
  rewrite pad_length in E. simpl in E. lia.
Qed.

Lemma hm_no_space hh mm : has_char " " (pad 2 hh ++ ":" ++ pad 2 mm) = false.
Proof.
  rewrite !ApprovalFacts.has_char_app, !pad_has_char by reflexivity. reflexivity.
Qed.

Lemma day_name_lower a b :
  String.eqb (lower (day_name a)) (lower (day_name b)) = bool_decide (b = a).
Proof. destruct a, b; reflexivity. Qed.

(** One schedule: the code decides as the specification says. *)
Lemma should_run_fires s now :
  shape_ok s = true -> should_run (render s) now = Ok (fires s now).
Proof.
  intros Hok. destruct s as [w n|hh mm|day hh mm]; unfold should_run, render.
  - simpl in Hok. apply andb_true_iff in Hok as [H1 Hn].
    apply N.leb_le in H1. apply N.ltb_lt in Hn.
    assert (Hw : (0 < w)%nat).
    { destruct w; [simpl in Hn; lia|lia]. }
    rewrite startswith_app.
    change (PyStr.drop 2 ("*/" ++ pad w n)) with (pad w n).
    rewrite (int_pad w n Hw Hn).
    destruct (Z.eqb_spec (Z.of_N n) 0) as [E|_]; [lia|].
    simpl fires. f_equal. rewrite <- N2Z.inj_mod.
    destruct (N.eqb_spec (minute now mod n) 0) as [-> | Hne]; [reflexivity|].
    apply Z.eqb_neq. lia.
  - rewrite startswith_star_digits
      by (apply pad_digits || (apply pad_nonempty; lia)).
    rewrite hm_no_space. simpl fires. unfold render.
    rewrite String.eqb_sym. reflexivity.
  - assert (Hstar : startswith "*/" (day_name day ++ " " ++ pad 2 hh ++ ":" ++ pad 2 mm)
                    = false) by (destruct day; reflexivity).
    assert (Hsp : has_char " " (day_name day ++ " " ++ pad 2 hh ++ ":" ++ pad 2 mm)
                  = true).
    { rewrite ApprovalFacts.has_char_app. apply orb_true_iff. right. reflexivity. }
    rewrite Hstar, Hsp.
    change (day_name day ++ " " ++ pad 2 hh ++ ":" ++ pad 2 mm)
      with (day_name day ++ String " " (pad 2 hh ++ ":" ++ pad 2 mm)).
    rewrite split_app.
    rewrite (split_no_sep " " (day_name day)) by (destruct day; reflexivity).
    rewrite (split_no_sep " " _ (hm_no_space hh mm)).
    simpl app. cbv iota. unfold strftime_A. rewrite day_name_lower.
    simpl fires. unfold render. rewrite String.eqb_sym. reflexivity.
Qed.

Section Table.
Context {run_result : Type} (run_task : task -> run_result).

Lemma run_due_loop_fires now jobs acc :
  forallb job_ok jobs = true ->
  run_due_loop run_task now (job_task <$> jobs) acc =
  Ok (acc ++ (run_task <$> (job_task <$>
        List.filter (fun j => fires (job_shape j) now) jobs)))%list.
Proof.
  revert acc. induction jobs as [|j jobs IH]; intros acc Hok.
  - simpl. rewrite app_nil_r. reflexivity.
  - simpl in Hok. apply andb_true_iff in Hok as [Hj Hok].
    unfold job_ok in Hj. apply andb_true_iff in Hj as [Hs Hr].
    apply String.eqb_eq in Hr. simpl. rewrite Hr, (should_run_fires _ now Hs).
    destruct (fires (job_shape j) now).
    + rewrite (IH _ Hok). simpl. rewrite <- app_assoc. reflexivity.
    + apply (IH _ Hok).
Qed.

(** C7. On a table whose schedules are of the shapes of the specification,
    [run_due_tasks] runs exactly the jobs that fire, in table order: a job
    scheduled ["*/N"] when the current minute modulo [N] is zero, a job
    scheduled ["HH:MM"] when the current time written as [HH:MM] is that
    text. *)
Theorem run_due_tasks_runs_what_fires now jobs :
  forallb job_ok jobs = true ->
  run_due_tasks run_task now (job_task <$> jobs) =
  Ok (run_task <$> (job_task <$>
        List.filter (fun j => fires (job_shape j) now) jobs)).
Proof. intros Hok. unfold run_due_tasks. apply (run_due_loop_fires now jobs [] Hok). Qed.
End Table.

Lemma run_due_tasks_runs_what_fires_witness :
  run_due_tasks name half_past (job_task <$> table_jobs)
  = Ok (name <$> (job_task <$>
          List.filter (fun j => fires (job_shape j) half_past) table_jobs)).
Proof.
  apply (run_due_tasks_runs_what_fires name half_past table_jobs).
  vm_compute. reflexivity.
Defined.

(** The table of [table_jobs] is the table of the scheduler. *)
Lemma table_jobs_tasks : job_task <$> table_jobs = tasks.
Proof. reflexivity. Qed.

(** The scenario of the specification: ["*/30"] runs at minute 30 and does
    not run at minute 31. *)
Lemma every_30_scenario :
  run_due_tasks name half_past tasks = Ok ["process_pending"; "update_dashboard"]
  /\ run_due_tasks name minute_later tasks = Ok [].
Proof. split; vm_compute; reflexivity. Qed.

End SchedulerFacts.

(** * Further properties of the code *)

(** ** Schedules that stop a run or never come round *)

Module SchedulerEdges.
Import PyStr PyTime Scheduler PyStrFacts SchedulerFacts.

Lemma run_due_loop_app {R} (run_task : task -> R) now a b acc :
  run_due_loop run_task now (a ++ b) acc =
  match run_due_loop run_task now a acc with
  | Ok r => run_due_loop run_task now b r
  | Raise e => Raise e
  end.
Proof.
  revert acc. induction a as [|t a IH]; intros acc; [reflexivity|].
  simpl. destruct (should_run (schedule t) now) as [[]|e]; auto.
Qed.

Lemma should_run_zero w now :
  (0 < w)%nat -> should_run ("*/" ++ pad w 0) now = Raise ZeroDivisionError.
Proof.
  intros Hw. unfold should_run. rewrite startswith_app.
  change (PyStr.drop 2 ("*/" ++ pad w 0)) with (pad w 0).
  rewrite (int_pad w 0 Hw) by (apply N.neq_0_lt_0, N.pow_nonzero; lia).
  reflexivity.
Qed.

(** X19.  A job scheduled ["*/0"] makes [run_due_tasks] raise [ZeroDivisionError]
    when the loop reaches it: the jobs after it are not looked at, and the
    results of the jobs that ran before it are not returned. *)
Theorem run_due_tasks_stops_at_zero_interval {R} (run_task : task -> R)
    now jobs t rest w :
  forallb job_ok jobs = true ->
  (0 < w)%nat ->
  schedule t = "*/" ++ pad w 0 ->
  run_due_tasks run_task now ((job_task <$> jobs) ++ t :: rest)
  = Raise ZeroDivisionError.
Proof.
  intros Hok Hw Ht. unfold run_due_tasks.
  rewrite run_due_loop_app, (run_due_loop_fires run_task now jobs [] Hok).
  simpl. rewrite Ht, (should_run_zero w now Hw). reflexivity.
Qed.

Lemma run_due_tasks_stops_at_zero_interval_witness :
  run_due_tasks Scheduler.name Examples.half_past
    ((job_task <$> Examples.table_jobs)
       ++ [mk_task "idle" "*/0" "Never due" (Command "true")])
  = Raise ZeroDivisionError.
Proof.
  apply (run_due_tasks_stops_at_zero_interval Scheduler.name Examples.half_past
           Examples.table_jobs _ [] 1); [reflexivity|lia|reflexivity].
Defined.

(** X20.  A job scheduled ["*/N"] with [N] of 60 or more runs at minute 0 of every
    hour and at no other minute. *)
Theorem interval_of_an_hour_or_more w n now :
  valid now = true ->
  60 <= n -> n < 10 ^ N.of_nat w ->
  should_run ("*/" ++ pad w n) now = Ok (minute now =? 0).
Proof.
  intros Hv Hn Hw.
  assert (Hm : minute now < 60).
  { unfold valid in Hv. repeat (apply andb_true_iff in Hv as [Hv ?]).
    by apply N.ltb_lt. }
  assert (Hok : shape_ok (Every w n) = true).
  { simpl. apply andb_true_iff. split; [apply N.leb_le; lia|by apply N.ltb_lt]. }
  change ("*/" ++ pad w n) with (render (Every w n)).
  rewrite (should_run_fires _ now Hok). simpl.
  rewrite N.mod_small by lia. reflexivity.
Qed.

Lemma interval_of_an_hour_or_more_witness :
  should_run "*/90" Examples.half_past = Ok false.
Proof.
  apply (interval_of_an_hour_or_more 2 90 Examples.half_past);
    [reflexivity|lia|reflexivity].
Defined.

End SchedulerEdges.

(** ** What a status query answers *)

Module StatusFacts.
Import PyStr PyTime Vault ApprovalManager PyStrFacts PyTimeFacts ApprovalFacts.


Lemma exists_found dir name (v : vault) n :
  lookup_node v dir name = Some n -> exists_ dir name v = (Ok true, v).
Proof.
  intros H. unfold exists_. rewrite H, bool_decide_eq_true_2 by eauto.
  reflexivity.
Qed.

Lemma exists_missing dir name (v : vault) :
  lookup_node v dir name = None -> exists_ dir name v = (Ok false, v).
Proof.
  intros H. unfold exists_. rewrite H.
  rewrite bool_decide_eq_false_2 by (intros [? ?]; done). reflexivity.
Qed.




(** Lines that are lines: joined by newlines and split again. *)
Lemma split_join_lines lines :
  lines <> [] ->
  Forall (fun l => has_char nl l = false) lines ->
  split nl (join (String nl "") lines) = lines.
Proof.
  intros Hne Hall. rewrite split_join by exact Hne.
  clear Hne. induction Hall as [|l ls Hl _ IH]; [reflexivity|].
  rewrite fmap_cons, (split_no_sep _ _ Hl). simpl. f_equal. exact IH.
Qed.

Lemma any_line_expired_none now e lines :
  valid e = true ->
  Forall (fun l => l = expires_line e \/ contains "expires:" l = false) lines ->
  gtb now (on_the_hour e) = false ->
  any_line_expired now lines = false.
Proof.
  intros Hv Hall Hg. induction Hall as [|l ls Hl _ IH]; [reflexivity|].
  simpl. destruct Hl as [-> | Hl].
  - rewrite expires_line_contains, (line_expired_expires_line now e Hv), Hg.
    exact IH.
  - rewrite Hl. exact IH.
Qed.

Lemma any_line_expired_only now e lines :
  valid e = true ->
  Forall (fun l => l = expires_line e \/ contains "expires:" l = false) lines ->
  expires_line e ∈ lines ->
  any_line_expired now lines = gtb now (on_the_hour e).
Proof.
  intros Hv Hall Hin.
  destruct (gtb now (on_the_hour e)) eqn:Hg.
  - apply (any_line_expired_elem now (expires_line e)); [exact Hin| |].
    + apply expires_line_contains.
    + rewrite (line_expired_expires_line now e Hv). exact Hg.
  - apply (any_line_expired_none now e lines Hv Hall Hg).
Qed.

Lemma pending_status_on_the_hour now e lines :
  valid e = true ->
  Forall (fun l => has_char nl l = false) lines ->
  Forall (fun l => l = expires_line e \/ contains "expires:" l = false) lines ->
  expires_line e ∈ lines ->
  pending_status now (join (String nl "") lines)
  = if gtb now (on_the_hour e) then "expired" else "pending".
Proof.
  intros Hv Hnl Honly Hin. unfold pending_status.
  rewrite split_join_lines by (try exact Hnl; intros ->; by apply elem_of_nil in Hin).
  rewrite (any_line_expired_only now e lines Hv Honly Hin).
  destruct (join_elem (String nl "") lines _ Hin) as (a & b & ->).
  assert (Hc : contains "expires:" (a ++ expires_line e ++ b) = true).
  { unfold expires_line.
    change ("expires: " ++ isoformat e)
      with ("expires:" ++ String " " (isoformat e)).
    rewrite (sapp_assoc "expires:"). apply contains_app. }
  rewrite Hc. reflexivity.
Qed.

(** X2.  A request whose only expiry line is the one [create_approval] writes is
    reported expired exactly when the clock is past the start of the hour of
    its expiry, minutes and seconds of the expiry playing no part. *)
Theorem check_status_expires_on_the_hour now e filename lines (v : vault) :
  valid e = true ->
  lookup_node v pending_approval filename
    = Some (File (join (String nl "") lines)) ->
  Forall (fun l => has_char nl l = false) lines ->
  Forall (fun l => l = expires_line e \/ contains "expires:" l = false) lines ->
  expires_line e ∈ lines ->
  check_status now filename v
  = (Ok (if gtb now (on_the_hour e) then "expired" else "pending"), v).
Proof.
  intros Hv Hfile Hnl Honly Hin.
  rewrite (check_status_pending _ _ _ _ Hfile).
  by rewrite (pending_status_on_the_hour now e lines Hv Hnl Honly Hin).
Qed.

Lemma check_status_expires_on_the_hour_witness :
  check_status (mk_datetime 2026 1 7 10 15 0 0) "PAY_INVOICE.md" Examples.vault0
  = (Ok "expired", Examples.vault0).
Proof.
  apply (check_status_expires_on_the_hour (mk_datetime 2026 1 7 10 15 0 0)
           Examples.expiry0 "PAY_INVOICE.md" Examples.request0 Examples.vault0).
  - reflexivity.
  - reflexivity.
  - repeat constructor.
  - repeat (constructor; [first [left; reflexivity | right; reflexivity]|]).
    constructor.
  - do 5 apply list_elem_of_further. apply list_elem_of_here.
Defined.

End StatusFacts.

(** ** Approved requests and finished plans on their way to Done *)

Module DoneFacts.
Import PyStr Vault ApprovalManager Folders TransitionFacts.

Lemma process_entries_skip pf name n rest acc (v : vault) :
  is_md_file (name, n) = false ->
  process_entries pf ((name, n) :: rest) acc v = process_entries pf rest acc v.
Proof.
  unfold is_md_file. simpl. destruct n; [|reflexivity].
  intros ->. reflexivity.
Qed.

Lemma process_entries_move pf name c rest acc (v : vault) :
  is_md_file (name, File c) = true ->
  process_entries pf ((name, File c) :: rest) acc v =
  match rename pf approved name done name v with
  | (Ok _, v') => process_entries pf rest (acc ++ [name]) v'
  | (Raise e, v') => (Raise e, v')
  end.
Proof.
  unfold is_md_file. simpl. intros ->. unfold bind.
  destruct (rename pf approved name done name v) as [[[]|e] v']; reflexivity.
Qed.

Lemma is_md_file_inv name n :
  is_md_file (name, n) = true -> exists c, n = File c /\ suffix name = ".md".
Proof.
  unfold is_md_file. simpl. destruct n as [c|b]; [|discriminate].
  intros H%String.eqb_eq. eauto.
Qed.





Lemma md_names_cons_move name c rest :
  is_md_file (name, File c) = true ->
  (filter (fun e => is_md_file e = true) ((name, File c) :: rest)).*1
  = name :: (filter (fun e => is_md_file e = true) rest).*1.
Proof. intros H. rewrite filter_cons_True by exact H. reflexivity. Qed.

Lemma md_names_cons_skip e rest :
  is_md_file e = false ->
  (filter (fun e => is_md_file e = true) (e :: rest)).*1
  = (filter (fun e => is_md_file e = true) rest).*1.
Proof. intros H. rewrite filter_cons_False by congruence. reflexivity. Qed.

Lemma md_names_elem name entries :
  name ∈ (filter (fun e => is_md_file e = true) entries).*1 ->
  exists c, (name, File c) ∈ entries /\ suffix name = ".md".
Proof.
  intros ([n' n] & -> & [Hmd Hin]%list_elem_of_filter)%list_elem_of_fmap.
  destruct (is_md_file_inv _ _ Hmd) as (c & -> & Hs). eauto.
Qed.

Lemma md_names_fst name entries :
  name ∈ (filter (fun e => is_md_file e = true) entries).*1 -> name ∈ entries.*1.
Proof.
  intros (c & Hin & _)%md_names_elem.
  apply list_elem_of_fmap. by exists (name, File c).
Qed.

(** The loop of [process_approved] where [rename] replaces. *)
Lemma process_entries_posix entries : forall (v : vault) acc af df,
  v !! approved = Some af -> v !! done = Some df ->
  NoDup entries.*1 ->
  (forall name n, (name, n) ∈ entries -> af !! name = Some n) ->
  (forall name c b, (name, File c) ∈ entries -> suffix name = ".md" ->
                    df !! name <> Some (Dir b)) ->
  exists v' af' df',
    process_entries Posix entries acc v
    = (Ok (acc ++ (filter (fun e => is_md_file e = true) entries).*1)%list, v')
    /\ v' !! approved = Some af' /\ v' !! done = Some df'
    /\ (forall dir, dir <> approved -> dir <> done -> v' !! dir = v !! dir)
    /\ (forall x, af' !! x =
          if bool_decide (x ∈ (filter (fun e => is_md_file e = true) entries).*1)
          then None else af !! x)
    /\ (forall x, df' !! x =
          if bool_decide (x ∈ (filter (fun e => is_md_file e = true) entries).*1)
          then af !! x else df !! x).
Proof.
  induction entries as [|[name n] rest IH]; intros v acc af df Ha Hd Hnd Hin Hclash.
  - exists v, af, df. simpl. rewrite List.app_nil_r. repeat split; auto.
  - apply NoDup_cons in Hnd as [Hfresh Hnd]. simpl in Hfresh.
    assert (Hrest : forall name' n', (name', n') ∈ rest -> name' <> name).
    { intros name' n' H' ->. apply Hfresh, list_elem_of_fmap. by exists (name, n'). }
    destruct (is_md_file (name, n)) eqn:Hmd.
    + destruct (is_md_file_inv _ _ Hmd) as (c & -> & Hs).
      rewrite (process_entries_move _ _ _ _ _ _ Hmd), (md_names_cons_move _ _ _ Hmd).
      assert (Hsrc : af !! name = Some (File c)) by (apply Hin; left).
      assert (Hmove : rename Posix approved name done name v
                = (Ok tt, <[done := <[name := File c]> df]>
                            (<[approved := delete name af]> v))).
      { destruct (df !! name) as [[c'|b]|] eqn:Hdst.
        - by apply (rename_file_onto_file Posix v approved name done name af df c c').
        - exfalso. apply (Hclash name c b); [left|exact Hs|exact Hdst].
        - by apply rename_file_fresh with (sf := af). }
      rewrite Hmove.
      destruct (IH (<[done := <[name := File c]> df]> (<[approved := delete name af]> v))
                   (acc ++ [name])%list (delete name af) (<[name := File c]> df))
        as (v' & af' & df' & E & Ha' & Hd' & Hoth & Haf & Hdf).
      * rewrite lookup_insert_ne by done. by rewrite lookup_insert_eq.
      * by rewrite lookup_insert_eq.
      * exact Hnd.
      * intros name' n' H'. rewrite lookup_delete_ne by (intros <-; by eapply Hrest).
        apply Hin. by right.
      * intros name' c' b H' Hs'. rewrite lookup_insert_ne by (intros <-; by eapply Hrest).
        apply (Hclash name' c' b); [by right|exact Hs'].
      * exists v', af', df'. rewrite E, <- app_assoc. split; [reflexivity|].
        split; [exact Ha'|]. split; [exact Hd'|].
        assert (Hnot : name ∉ (filter (fun e => is_md_file e = true) rest).*1).
        { intros H'%md_names_fst. exact (Hfresh H'). }
        split; [|split].
        -- intros dir H1 H2. rewrite Hoth by done.
           by rewrite !lookup_insert_ne.
        -- intros x. rewrite Haf. destruct (decide (x = name)) as [-> | Hx].
           ++ rewrite bool_decide_eq_false_2 by exact Hnot.
              rewrite bool_decide_eq_true_2 by left. by rewrite lookup_delete_eq.
           ++ rewrite lookup_delete_ne by done.
              destruct (bool_decide (x ∈ _)) eqn:Hb.
              ** apply bool_decide_eq_true in Hb.
                 rewrite bool_decide_eq_true_2 by (by right). reflexivity.
              ** apply bool_decide_eq_false in Hb.
                 rewrite bool_decide_eq_false_2; [reflexivity|].
                 by intros [?|?]%elem_of_cons.
        -- intros x. rewrite Hdf. destruct (decide (x = name)) as [-> | Hx].
           ++ rewrite bool_decide_eq_false_2 by exact Hnot.
              rewrite bool_decide_eq_true_2 by left.
              by rewrite lookup_insert_eq.
           ++ rewrite lookup_delete_ne, lookup_insert_ne by done.
              destruct (bool_decide (x ∈ _)) eqn:Hb.
              ** apply bool_decide_eq_true in Hb.
                 rewrite bool_decide_eq_true_2 by (by right). reflexivity.
              ** apply bool_decide_eq_false in Hb.
                 rewrite bool_decide_eq_false_2; [reflexivity|].
                 by intros [?|?]%elem_of_cons.
    + rewrite (process_entries_skip _ _ _ _ _ _ Hmd), (md_names_cons_skip _ _ Hmd).
      apply IH; auto.
      * intros name' n' H'. apply Hin. by right.
      * intros name' c' b H'. apply (Hclash name' c' b). by right.
Qed.

(** X5.  Where [rename] replaces its target, with Done in place and no directory
    of Done in the way, [process_approved] moves every regular [.md] file of
    Approved to Done under its own name and with its content, returns the
    names of exactly these files, which are the names [list_approved] lists,
    and leaves every other entry of the vault where it was. *)
Theorem process_approved_moves_every_request (v : vault) af df :
  v !! approved = Some af -> v !! done = Some df ->
  (forall name c b, af !! name = Some (File c) -> suffix name = ".md" ->
                    df !! name <> Some (Dir b)) ->
  exists names v',
    process_approved Posix v = (Ok names, v')
    /\ list_approved v = (Ok names, v)
    /\ NoDup names
    /\ (forall name, name ∈ names <->
          exists c, af !! name = Some (File c) /\ suffix name = ".md")
    /\ (forall name, name ∈ names ->
          lookup_node v' done name = af !! name
          /\ lookup_node v' approved name = None)
    /\ (forall name, name ∉ names ->
          lookup_node v' done name = df !! name
          /\ lookup_node v' approved name = af !! name)
    /\ (forall dir, dir <> approved -> dir <> done -> v' !! dir = v !! dir).
Proof.
  intros Ha Hd Hclash.
  destruct (process_entries_posix (map_to_list af) v [] af df Ha Hd)
    as (v' & af' & df' & E & Ha' & Hd' & Hoth & Haf & Hdf).
  { apply NoDup_fst_map_to_list. }
  { intros name n H. by apply elem_of_map_to_list. }
  { intros name c b H. apply (Hclash name c b). by apply elem_of_map_to_list. }
  exists (filter (fun e => is_md_file e = true) (map_to_list af)).*1, v'.
  split; [|split; [|split; [|split; [|split; [|split]]]]].
  - unfold process_approved, bind, iterdir. rewrite Ha. exact E.
  - unfold list_approved, bind, iterdir, ret. rewrite Ha. reflexivity.
  - apply NoDup_fmap_fst.
    + intros x y1 y2 [_ H1%elem_of_map_to_list]%list_elem_of_filter
                     [_ H2%elem_of_map_to_list]%list_elem_of_filter.
      congruence.
    + apply NoDup_filter, NoDup_map_to_list.
  - intros name. split.
    + intros (c & H%elem_of_map_to_list & Hs)%md_names_elem. eauto.
    + intros (c & H & Hs). apply list_elem_of_fmap. exists (name, File c).
      split; [reflexivity|]. apply list_elem_of_filter. split.
      * unfold is_md_file. simpl. rewrite Hs. reflexivity.
      * by apply elem_of_map_to_list.
  - intros name Hn. unfold lookup_node. rewrite Ha', Hd', Haf, Hdf.
    rewrite !bool_decide_eq_true_2 by exact Hn. done.
  - intros name Hn. unfold lookup_node. rewrite Ha', Hd', Haf, Hdf.
    rewrite !bool_decide_eq_false_2 by exact Hn. done.
  - exact Hoth.
Qed.

Lemma process_approved_moves_every_request_witness :
  exists names v',
    process_approved Posix ActionExamples.vault_approved = (Ok names, v')
    /\ list_approved ActionExamples.vault_approved
       = (Ok names, ActionExamples.vault_approved)
    /\ NoDup names
    /\ (forall name, name ∈ names <->
          exists c, ActionExamples.approved_two !! name = Some (File c)
                    /\ suffix name = ".md")
    /\ (forall name, name ∈ names ->
          lookup_node v' done name = ActionExamples.approved_two !! name
          /\ lookup_node v' approved name = None)
    /\ (forall name, name ∉ names ->
          lookup_node v' done name = (∅ : folder) !! name
          /\ lookup_node v' approved name = ActionExamples.approved_two !! name)
    /\ (forall dir, dir <> approved -> dir <> done ->
          v' !! dir = ActionExamples.vault_approved !! dir).
Proof.
  apply (process_approved_moves_every_request ActionExamples.vault_approved
           ActionExamples.approved_two ∅).
  - reflexivity.
  - reflexivity.
  - intros name c b _ _. rewrite lookup_empty. discriminate.
Defined.

End DoneFacts.

Module PlanFacts.
Import PyStr Vault PlanManager TransitionFacts.

(** X7.  A plan stored as [NAME.md] and completed under the bare [NAME], a
    single path component, is found by [_find_file], but lands in Done under
    the bare name: the [.md] extension is lost on the way. *)
Theorem complete_plan_drops_extension pf (v : vault) filename pf_ df c :
  plain_name filename = true ->
  v !! plans_folder = Some pf_ -> v !! done = Some df ->
  pf_ !! filename = None ->
  endswith_md filename = false ->
  pf_ !! (filename ++ ".md") = Some (File c) ->
  df !! filename = None ->
  exists v',
    complete_plan pf filename v = (Ok true, v')
    /\ lookup_node v' done filename = Some (File c)
    /\ lookup_node v' done (filename ++ ".md") = df !! (filename ++ ".md")
    /\ lookup_node v' plans_folder (filename ++ ".md") = None.
Proof.
  intros _ Hp Hd Hbare Hmd Hfile Hfree.
  assert (Hne : filename <> filename ++ ".md").
  { intros H. apply (f_equal String.length) in H.
    rewrite PyStrFacts.length_app in H. simpl in H. lia. }
  exists (<[done := <[filename := File c]> df]>
            (<[plans_folder := delete (filename ++ ".md") pf_]> v)).
  split; [|split; [|split]].
  - assert (Hfind : _find_file filename v = (Ok (Some (filename ++ ".md")), v)).
    { unfold _find_file. unfold bind at 1.
      rewrite StatusFacts.exists_missing
        by (unfold lookup_node; by rewrite Hp).
      rewrite Hmd. change (negb false) with true. cbv beta iota.
      unfold bind.
      rewrite (StatusFacts.exists_found _ _ _ (File c))
        by (unfold lookup_node; by rewrite Hp).
      reflexivity. }
    unfold complete_plan. unfold bind at 1. rewrite Hfind. unfold bind.
    rewrite (rename_file_fresh pf v plans_folder (filename ++ ".md") done
               filename pf_ df c); done.
  - unfold lookup_node. by rewrite !lookup_insert_eq.
  - unfold lookup_node. rewrite lookup_insert_eq. by rewrite lookup_insert_ne.
  - unfold lookup_node. rewrite lookup_insert_ne by done.
    rewrite lookup_insert_eq. by rewrite lookup_delete_eq.
Qed.

Lemma complete_plan_drops_extension_witness :
  exists v',
    complete_plan Posix "PLAN_a"
      {[ plans_folder := {[ "PLAN_a.md" := File "steps" ]}; done := ∅ ]}
    = (Ok true, v')
    /\ lookup_node v' done "PLAN_a" = Some (File "steps")
    /\ lookup_node v' done "PLAN_a.md" = None
    /\ lookup_node v' plans_folder "PLAN_a.md" = None.
Proof.
  destruct (complete_plan_drops_extension Posix
              {[ plans_folder := {[ "PLAN_a.md" := File "steps" ]}; done := ∅ ]}
              "PLAN_a" {[ "PLAN_a.md" := File "steps" ]} ∅ "steps")
    as (v' & E & H1 & H2 & H3); [reflexivity..|].
  exists v'. split; [exact E|]. split; [exact H1|]. split; [exact H2|exact H3].
Defined.

End PlanFacts.

(** ** Which task files a scan reports *)

Module ScanFacts.
Import PyStr Orchestrator OrchestratorFacts.

(** The names a scan adds are the fresh names under which the listing has a
    regular [.md] file that opens and does not start with ten blanks. *)
Lemma scan_members entries : forall seen acc,
  exists new,
    scan entries seen acc = ((acc ++ new)%list, list_to_set new ∪ seen)
    /\ (forall x, x ∈ new <->
          (x ∉ seen)
          /\ exists e text, e ∈ entries /\ name e = x /\ is_file e = true
               /\ ApprovalManager.suffix (name e) = ".md"
               /\ opened e = Ok text
               /\ truthy (strip (take 10 text)) = true).
Proof.
  induction entries as [|e rest IH]; intros seen acc.
  - exists []. simpl. rewrite app_nil_r. split; [f_equal; set_solver|].
    intros x. split; [by intros ?%elem_of_nil|].
    intros (_ & e & text & ?%elem_of_nil & _). done.
  - assert (Hskip :
      (forall text, is_file e = true -> ApprovalManager.suffix (name e) = ".md" ->
                    opened e = Ok text -> truthy (strip (take 10 text)) = true ->
                    name e ∈ seen) ->
      scan (e :: rest) seen acc = scan rest seen acc ->
      exists new,
        scan (e :: rest) seen acc = ((acc ++ new)%list, list_to_set new ∪ seen)
        /\ (forall x, x ∈ new <->
              (x ∉ seen)
              /\ exists e' text, e' ∈ e :: rest /\ name e' = x /\ is_file e' = true
                   /\ ApprovalManager.suffix (name e') = ".md"
                   /\ opened e' = Ok text
                   /\ truthy (strip (take 10 text)) = true)).
    { intros Hno ->. destruct (IH seen acc) as (new & E & Hnew).
      exists new. split; [exact E|]. intros x. rewrite Hnew. split.
      - intros (Hx & e' & text & Hin & H). split; [exact Hx|].
        exists e', text. split; [by right|exact H].
      - intros (Hx & e' & text & Hin & Hn & Hf & Hs & Ho & Ht).
        split; [exact Hx|].
        apply elem_of_cons in Hin as [-> | Hin]; [|by exists e', text].
        exfalso. apply Hx. rewrite <- Hn. by apply (Hno text). }
    destruct (is_file e) eqn:Hf.
    2:{ apply Hskip; [discriminate|]. cbn [scan]. by rewrite Hf. }
    destruct (String.eqb (ApprovalManager.suffix (name e)) ".md") eqn:Hs.
    2:{ apply Hskip; [|cbn [scan]; by rewrite Hf, Hs].
        intros text _ H. rewrite H in Hs. discriminate. }
    apply String.eqb_eq in Hs as Hs'.
    destruct (bool_decide (name e ∉ seen)) eqn:Hfresh.
    2:{ apply Hskip; [|cbn [scan]; by rewrite Hf, Hs, Hfresh].
        intros _ _ _ _ _. apply bool_decide_eq_false in Hfresh.
        by apply dec_stable. }
    destruct (opened e) as [text|err] eqn:Ho.
    2:{ apply Hskip; [discriminate|].
        cbn [scan]. by rewrite Hf, Hs, Ho, Hfresh. }
    destruct (truthy (strip (take 10 text))) eqn:Ht.
    2:{ apply Hskip; [|cbn [scan]; by rewrite Hf, Hs, Ho, Hfresh, Ht].
        intros text' _ _ Ho' Ht'. injection Ho' as <-. congruence. }
    apply bool_decide_eq_true in Hfresh as Hfresh'.
    cbn [scan]. rewrite Hf, Hs, Ho, Hfresh, Ht. cbn [andb].
    destruct (IH ({[name e]} ∪ seen) (acc ++ [name e])%list)
      as (new & -> & Hnew).
    exists (name e :: new). split.
    + rewrite <- app_assoc. f_equal. set_solver.
    + intros x. rewrite elem_of_cons, Hnew. split.
      * intros [-> | (Hx & e' & text' & Hin & H)].
        -- split; [exact Hfresh'|]. exists e, text. split; [by left|auto].
        -- split; [set_solver|]. exists e', text'. split; [by right|exact H].
      * intros (Hx & e' & text' & Hin & Hn & H).
        destruct (decide (x = name e)) as [-> | Hne]; [by left|].
        right. split; [set_solver|].
        apply elem_of_cons in Hin as [-> | Hin]; [congruence|].
        by exists e', text'.
Qed.

(** X11.  [check_for_new_tasks] reports a name exactly when it has not reported
    it before and Needs_Action lists, under that name, a regular [.md] file
    that opens and whose first ten characters are not all blank. *)
Theorem check_for_new_tasks_reports_the_ready entries st x :
  x ∈ fst (check_for_new_tasks (Ok entries) st) <->
  (x ∉ processed_files st)
  /\ exists e text, e ∈ entries /\ name e = x /\ is_file e = true
       /\ ApprovalManager.suffix (name e) = ".md"
       /\ opened e = Ok text
       /\ truthy (strip (take 10 text)) = true.
Proof.
  unfold check_for_new_tasks.
  destruct (scan_members entries (processed_files st) []) as (new & -> & Hnew).
  simpl. apply Hnew.
Qed.

(** X12.  A task file that earlier turns of the loop skipped (it was absent,
    empty, blank at its start or could not be opened) is not held against
    it: the first scan that finds it ready reports it, whatever the agent did
    in between. *)
Theorem skipped_file_is_reported_when_ready turns st entries o e text :
  name e ∉ processed_files st ->
  name e ∉ mjoin (fst (run turns st)) ->
  e ∈ entries -> is_file e = true ->
  ApprovalManager.suffix (name e) = ".md" ->
  opened e = Ok text -> truthy (strip (take 10 text)) = true ->
  name e ∈ fst (cycle (Ok entries) o (snd (run turns st))).
Proof.
  intros Hst Hrun Hin Hf Hs Ho Ht.
  pose proof (orchestrator_run_spec turns st) as Hspec.
  destruct (run turns st) as [batches st1]. simpl in *.
  destruct Hspec as (_ & _ & Hp).
  assert (Hfresh : name e ∉ processed_files st1).
  { rewrite Hp. intros [H%elem_of_list_to_set | H]%elem_of_union; auto. }
  unfold cycle, check_for_new_tasks.
  destruct (scan_members entries (processed_files st1) []) as (new & -> & Hnew).
  simpl. assert (Hx : name e ∈ new).
  { apply Hnew. split; [exact Hfresh|]. by exists e, text. }
  destruct new; [by apply elem_of_nil in Hx|exact Hx].
Qed.

Lemma skipped_file_is_reported_when_ready_witness :
  "A.md" ∈ fst (cycle (Ok Examples.two_tasks) TimedOut
                  (snd (run [(Ok [mk_entry "A.md" true (Ok "   ")], Crashed);
                             (Ok [mk_entry "A.md" true (Raise OSError)], Crashed)]
                            init))).
Proof.
  apply (skipped_file_is_reported_when_ready
           [(Ok [mk_entry "A.md" true (Ok "   ")], Crashed);
            (Ok [mk_entry "A.md" true (Raise OSError)], Crashed)]
           init Examples.two_tasks TimedOut
           (mk_entry "A.md" true (Ok "--- type: test")) "--- type: test");
    try reflexivity.
  - simpl. set_solver.
  - vm_compute. intros H. inversion H.
  - apply list_elem_of_here.
Defined.

End ScanFacts.

(** ** The dedup cache across a restart *)

Module RestartFacts.
Import PyStr PySet Gmail GmailWatcher GmailFacts.

Section Order.
Context `{SetOrder}.

Lemma add_elem x y (s : pyset) : y ∈ add x s <-> y = x \/ y ∈ s.
Proof.
  unfold add. destruct (mem x s) eqn:Hm.
  - split; [auto|]. intros [-> | Hy]; [|exact Hy].
    unfold mem in Hm. apply existsb_exists in Hm as (z & Hz & ->%String.eqb_eq).
    by apply list_elem_of_In.
  - rewrite elem_of_app, list_elem_of_singleton. tauto.
Qed.

Lemma of_list_elem l y : y ∈ of_list l <-> y ∈ l.
Proof.
  unfold of_list, empty.
  assert (Hgen : forall s, y ∈ foldl (fun s x => add x s) s l <-> y ∈ s \/ y ∈ l).
  { induction l as [|x l IH]; intros s; simpl.
    - rewrite elem_of_nil. tauto.
    - rewrite IH, add_elem, elem_of_cons. tauto. }
  rewrite Hgen, elem_of_nil. tauto.
Qed.

Lemma last_n_short {A} n (l : list A) : (length l <= n)%nat -> last_n n l = l.
Proof.
  intros Hl. unfold last_n.
  replace (length l - n)%nat with 0%nat by lia. reflexivity.
Qed.

(** X14.  As long as no more than 1000 ids have been seen, a save followed by a
    restart forgets nothing: the watcher started on the saved file reports
    no email that the saving watcher had already reported, whatever order
    the set iterates in. *)
Theorem restart_within_bound_forgets_nothing st resp m :
  (length (processed_ids st) <= 1000)%nat ->
  m ∈ fst (check_for_updates resp (init (cache_file (_save_processed_ids st)))) ->
  id m ∉ processed_ids st.
Proof.
  intros Hlen Hm Hold.
  pose proof (check_for_updates_ok resp
                (init (cache_file (_save_processed_ids st)))) as (_ & _ & Hfresh).
  apply (Hfresh (id m)).
  - apply list_elem_of_fmap. by exists m.
  - simpl. apply of_list_elem. rewrite last_n_short.
    + unfold to_list. by rewrite iter_order_perm.
    + unfold to_list. by rewrite iter_order_perm.
Qed.

End Order.

Lemma restart_within_bound_forgets_nothing_witness :
  Examples.mail_id 2 ∉
    processed_ids
      (snd (@check_for_updates insertion_order (Ok [Examples.inbox_mail 1])
              (init None))).
Proof.
  apply (@restart_within_bound_forgets_nothing insertion_order
           (snd (@check_for_updates insertion_order (Ok [Examples.inbox_mail 1])
                   (init None)))
           (Ok [Examples.inbox_mail 1; Examples.inbox_mail 2])
           (mk_message (Examples.mail_id 2)
              (mk_body [("From", "boss@example.com"); ("Subject", "hello")]
                 ["INBOX"] (Part None [])))).
  - vm_compute. lia.
  - vm_compute. apply list_elem_of_here.
Defined.

End RestartFacts.

(** ** Names and first lines of action files *)

Module TextFacts.
Import PyStr PyText PyTime PyStrFacts ApprovalFacts.











Lemma startswith_inv p s : startswith p s = true -> exists r, s = p ++ r.
Proof.
  revert s. induction p as [|a p IH]; intros s H.
  - exists s. reflexivity.
  - destruct s as [|b s]; [discriminate|]. simpl in H.
    destruct (Ascii.eqb_spec a b) as [-> | _]; [|discriminate].
    destruct (IH s H) as (r & ->). exists r. reflexivity.
Qed.

Lemma contains_inv n s : contains n s = true -> exists a b, s = a ++ n ++ b.
Proof.
  induction s as [|c s IH]; simpl.
  - intros (r & Hr)%startswith_inv. exists "", r. exact Hr.
  - intros [(r & Hr)%startswith_inv | (a & b & ->)%IH]%orb_true_iff.
    + exists "", r. exact Hr.
    + exists (String c a), b. reflexivity.
Qed.

(** A text holds what one of its parts holds. *)
Lemma contains_within n a s b :
  contains n s = true -> contains n (a ++ s ++ b) = true.
Proof.
  intros (x & y & ->)%contains_inv.
  replace (a ++ (x ++ n ++ y) ++ b) with ((a ++ x) ++ n ++ (y ++ b))
    by (by rewrite !sapp_assoc).
  apply contains_app.
Qed.

Lemma pretty_N_go_digits x : forall s,
  all_chars is_digit s = true -> all_chars is_digit (pretty_N_go x s) = true.
Proof.
  induction (N.lt_wf_0 x) as [x _ IH]; intros s Hs.
  destruct (decide (x = 0)) as [-> | Hx]; [by rewrite pretty_N_go_0|].
  rewrite pretty_N_go_step by lia. apply IH.
  - apply N.div_lt; lia.
  - cbn [all_chars]. rewrite Hs.
    unfold pretty_N_char. by repeat case_match.
Qed.

Lemma pretty_N_digits (n : N) : all_chars is_digit (pretty n) = true.
Proof.
  unfold pretty, pretty_N. destruct (decide (n = 0)); [reflexivity|].
  by apply pretty_N_go_digits.
Qed.

(** A number written in decimal holds digits only. *)
Lemma pretty_N_has_char x (n : N) :
  is_digit x = false -> has_char x (pretty n) = false.
Proof.
  intros Hx. apply has_char_all_chars.
  apply (all_chars_impl is_digit); [|apply pretty_N_digits].
  intros c. apply (is_digit_not c x Hx).
Qed.

Lemma pretty_nat_has_char x (n : nat) :
  is_digit x = false -> has_char x (pretty n) = false.
Proof. apply pretty_N_has_char. Qed.

End TextFacts.

Module FilesFacts.
Import PyStr Vault Files Orchestrator ScanFacts.

Lemma write_text_ok dir name content (v : vault) f :
  v !! dir = Some f -> (forall b, f !! name <> Some (Dir b)) ->
  write_text dir name content v
  = (Ok tt, <[dir := <[name := File content]> f]> v).
Proof.
  intros Hd Hn. unfold write_text. rewrite Hd.
  destruct (f !! name) as [[c|b]|] eqn:E; try reflexivity.
  by destruct (Hn b).
Qed.


End FilesFacts.

(** ** What the Gmail watcher leaves in Needs_Action *)

Module GmailActionFacts.
Import PyStr PyText PyTime Vault Files Gmail GmailActionFile.
Import PyStrFacts ApprovalFacts TextFacts FilesFacts.




Section Decode.
Context (b64decode : string -> result string).



(** X16.  Two emails whose subjects, once made safe, agree on their first forty
    characters, handled
    within the same second, share one action file: the second call
    overwrites what the first wrote, and Needs_Action ends up as if the
    first email had never been handled. *)
Theorem same_subject_same_second_one_file now m1 m2 (v : vault) f :
  v !! needs_action = Some f ->
  (forall b, f !! filename now m1 <> Some (Dir b)) ->
  safe_subject m1 = safe_subject m2 ->
  (do _ <- create_action_file b64decode now m1;
   create_action_file b64decode now m2) v
  = create_action_file b64decode now m2 v.
Proof.
  intros Hd Hn Hsame.
  assert (Hname : filename now m2 = filename now m1).
  { unfold filename. by rewrite Hsame. }
  unfold create_action_file. unfold bind at 1 2. rewrite Hname.
  rewrite (write_text_ok _ _ _ _ f Hd Hn). unfold ret at 1. unfold bind.
  rewrite (write_text_ok _ _ (content b64decode m2) v f Hd Hn).
  rewrite (write_text_ok _ _ (content b64decode m2) _
             (<[filename now m1 := File (content b64decode m1)]> f)).
  - by rewrite insert_insert_eq, insert_insert_eq.
  - by rewrite lookup_insert_eq.
  - intros b. by rewrite lookup_insert_eq.
Qed.

End Decode.

End GmailActionFacts.

Module GmailActionChecks.
Import PyStr PyTime Vault Files GmailActionFile GmailActionFacts ActionExamples.


Lemma same_subject_same_second_one_file_witness :
  (do _ <- create_action_file decode_one noon (invoice "m1");
   create_action_file decode_one noon (invoice "m2")) empty_needs_action
  = create_action_file decode_one noon (invoice "m2") empty_needs_action.
Proof.
  apply (same_subject_same_second_one_file decode_one noon
           (invoice "m1") (invoice "m2") empty_needs_action ∅).
  - reflexivity.
  - intros b. rewrite lookup_empty. discriminate.
  - reflexivity.
Defined.

End GmailActionChecks.

(** ** What the filesystem watcher leaves in the vault *)

Module InboxActionFacts.
Import PyStr PyText PyTime Vault Files FileSystemWatcher InboxActionFile.
Import PyStrFacts ApprovalFacts TextFacts FilesFacts.

(** What a poll reports is visible, what it knew it still knows, and it
    knows the hash of every visible file it met. *)
Lemma inbox_scan_known entries : forall (seen : state) acc,
  exists new seen',
    scan entries seen acc = ((acc ++ new)%list, seen')
    /\ Forall (fun e => startswith "." (name e) = false) new
    /\ (forall h, is_Some (seen !! h) -> is_Some (seen' !! h))
    /\ (forall e h, e ∈ entries -> is_file e = true ->
          startswith "." (name e) = false -> file_hash e = Some h ->
          truthy h = true -> is_Some (seen' !! h)).
Proof.
  induction entries as [|e rest IH]; intros seen acc.
  - exists [], seen. simpl. rewrite app_nil_r. repeat split; auto.
    intros e h He. by apply elem_of_nil in He.
  - assert (Hskip :
      (forall h, is_file e = true -> startswith "." (name e) = false ->
                 file_hash e = Some h -> truthy h = true -> is_Some (seen !! h)) ->
      scan (e :: rest) seen acc = scan rest seen acc ->
      exists new seen',
        scan (e :: rest) seen acc = ((acc ++ new)%list, seen')
        /\ Forall (fun e => startswith "." (name e) = false) new
        /\ (forall h, is_Some (seen !! h) -> is_Some (seen' !! h))
        /\ (forall e' h, e' ∈ e :: rest -> is_file e' = true ->
              startswith "." (name e') = false -> file_hash e' = Some h ->
              truthy h = true -> is_Some (seen' !! h))).
    { intros Hno ->. destruct (IH seen acc) as (new & seen' & E & Hvis & Hmono & Hall).
      exists new, seen'. split; [exact E|]. split; [exact Hvis|].
      split; [exact Hmono|].
      intros e' h [-> | Hin]%elem_of_cons Hf Hv Hh Ht.
      - apply Hmono. by apply Hno.
      - by apply (Hall e'). }
    destruct (is_file e) eqn:Hf.
    2:{ apply Hskip; [discriminate|]. cbn [scan]. by rewrite Hf. }
    destruct (startswith "." (name e)) eqn:Hv.
    2:{ destruct (file_hash e) as [h|] eqn:Hh.
        2:{ apply Hskip; [discriminate|]. cbn [scan]. by rewrite Hf, Hv, Hh. }
        destruct (truthy h) eqn:Ht.
        2:{ apply Hskip; [|cbn [scan]; by rewrite Hf, Hv, Hh, Ht].
            intros h' _ _ [= <-]. congruence. }
        destruct (bool_decide (seen !! h = None)) eqn:Hnew.
        2:{ apply Hskip; [|cbn [scan]; by rewrite Hf, Hv, Hh, Ht, Hnew].
            intros h' _ _ [= <-] _. apply bool_decide_eq_false in Hnew.
            by apply not_eq_None_Some. }
        cbn [scan]. rewrite Hf, Hv, Hh, Ht, Hnew. cbn [andb negb].
        destruct (IH (<[h := name e]> seen) (acc ++ [e])%list)
          as (new & seen' & E & Hvis & Hmono & Hall).
        exists (e :: new), seen'. rewrite E, <- app_assoc.
        split; [reflexivity|]. split; [by constructor|]. split.
        - intros h' Hs. apply Hmono.
          destruct (decide (h = h')) as [-> | Hne].
          + rewrite lookup_insert_eq. eauto.
          + by rewrite lookup_insert_ne.
        - intros e' h' [-> | Hin]%elem_of_cons Hf' Hv' Hh' Ht'.
          + apply Hmono. rewrite Hh in Hh'. injection Hh' as <-.
            rewrite lookup_insert_eq. eauto.
          + by apply (Hall e'). }
    apply Hskip; [discriminate|]. cbn [scan]. by rewrite Hf, Hv.
Qed.

(** A poll over files whose hashes are all known reports nothing. *)
Lemma inbox_scan_nothing entries (seen : state) acc :
  (forall e h, e ∈ entries -> is_file e = true ->
     startswith "." (name e) = false -> file_hash e = Some h ->
     truthy h = true -> is_Some (seen !! h)) ->
  scan entries seen acc = (acc, seen).
Proof.
  induction entries as [|e rest IH]; intros Hall; [reflexivity|].
  cbn [scan].
  rewrite IH by (intros e' h Hin; apply (Hall e' h); by right).
  destruct (is_file e) eqn:Hf; [|reflexivity].
  destruct (startswith "." (name e)) eqn:Hv; [reflexivity|].
  destruct (file_hash e) as [h|] eqn:Hh; [|reflexivity].
  destruct (truthy h) eqn:Ht; [|reflexivity].
  cbn [andb negb].
  destruct (Hall e h) as [n Hn]; try done; [by left|].
  rewrite bool_decide_eq_false_2 by congruence. reflexivity.
Qed.

Section Stat.
Context (md5 : string -> string) (dir_size : N).

Lemma inbox_entries_elem (f : folder) e h :
  e ∈ inbox_entries md5 f -> is_file e = true -> file_hash e = Some h ->
  exists c, f !! name e = Some (File c) /\ h = md5 c.
Proof.
  unfold inbox_entries.
  intros ([n [c|b]] & -> & Hin%elem_of_map_to_list)%list_elem_of_fmap; simpl.
  - intros _ [= <-]. eauto.
  - discriminate.
Qed.

(** A call of [create_action_file] leaves the inbox as it is or adds the
    copy of a file of the inbox. *)
Lemma create_action_file_inbox c (v : vault) f :
  v !! inbox = Some f ->
  exists f', snd (create_action_file dir_size c v) !! inbox = Some f'
    /\ (f' = f
        \/ (exists content, f !! source c = Some (File content)
              /\ f' = <["processed_" ++ source c := File content]> f)
        \/ f' = <["processed_" ++ source c := Dir false]> f).
Proof.
  intros Hf.
  assert (Hcopy : forall v1 : vault, v1 !! inbox = Some f ->
    exists f', snd (copy2 inbox (source c) inbox ("processed_" ++ source c) v1)
                 !! inbox = Some f'
      /\ (f' = f
          \/ (exists content, f !! source c = Some (File content)
                /\ f' = <["processed_" ++ source c := File content]> f)
          \/ f' = <["processed_" ++ source c := Dir false]> f)).
  { intros v1 Hv1. unfold copy2, lookup_node. rewrite Hv1.
    destruct (f !! source c) as [[content|b]|] eqn:Hs;
      try (exists f; by auto).
    destruct (f !! ("processed_" ++ source c)) as [[?|?]|];
      eexists; cbn [snd]; rewrite lookup_insert_eq; (split; [reflexivity|]); eauto. }
  unfold create_action_file, write_text.
  destruct (v !! needs_action) as [nf|] eqn:Hn; [|exists f; auto].
  destruct (nf !! action_filename (timestamp c) (source c)) as [[?|?]|];
    try (exists f; by auto).
  - cbn [snd]. apply Hcopy. by rewrite lookup_insert_ne.
  - cbn [snd]. apply Hcopy. by rewrite lookup_insert_ne.
Qed.

Lemma create_action_files_inbox calls : forall (v : vault) f (st : state),
  v !! inbox = Some f ->
  Forall (fun c => startswith "." (source c) = false) calls ->
  (forall n c, f !! n = Some (File c) -> startswith "." n = false ->
               truthy (md5 c) = true -> is_Some (st !! md5 c)) ->
  exists f', create_action_files dir_size calls v !! inbox = Some f'
    /\ (forall n c, f' !! n = Some (File c) -> startswith "." n = false ->
                    truthy (md5 c) = true -> is_Some (st !! md5 c)).
Proof.
  induction calls as [|c calls IH]; intros v f st Hf Hvis Hknown.
  - exists f. auto.
  - apply Forall_cons in Hvis as [Hc Hvis]. cbn [create_action_files foldl].
    destruct (create_action_file_inbox c v f Hf) as (f1 & Hf1 & Hcase).
    apply (IH _ f1 st Hf1 Hvis).
    destruct Hcase as [-> | [(content & Hsrc & ->) | ->]]; [exact Hknown| |].
    + intros n c'. destruct (decide (n = "processed_" ++ source c)) as [-> | Hne].
      * rewrite lookup_insert_eq. intros [= <-] _ Ht.
        by apply (Hknown (source c)).
      * rewrite lookup_insert_ne by done. apply Hknown.
    + intros n c'. destruct (decide (n = "processed_" ++ source c)) as [-> | Hne].
      * rewrite lookup_insert_eq. discriminate.
      * rewrite lookup_insert_ne by done. apply Hknown.
Qed.

(** X17.  The copies that [create_action_file] leaves in the inbox are not taken
    for new files: after a poll and the calls made for the files it
    reported, the next poll of the same watcher reports nothing. *)
Theorem own_copies_are_not_reported (v : vault) f (st : state) calls :
  v !! inbox = Some f ->
  Forall (fun c => source c ∈
            name <$> fst (check_for_updates (Ok (inbox_entries md5 f)) st))
         calls ->
  exists f',
    create_action_files dir_size calls v !! inbox = Some f'
    /\ check_for_updates (Ok (inbox_entries md5 f'))
         (snd (check_for_updates (Ok (inbox_entries md5 f)) st))
       = ([], snd (check_for_updates (Ok (inbox_entries md5 f)) st)).
Proof.
  intros Hf Hcalls. cbn [check_for_updates] in *.
  destruct (inbox_scan_known (inbox_entries md5 f) st [])
    as (new & st1 & E & Hvis & _ & Hall).
  rewrite E in *. cbn [fst snd app] in *.
  destruct (create_action_files_inbox calls v f st1 Hf) as (f' & Hf' & Hknown).
  - eapply Forall_impl; [exact Hcalls|]. intros c Hc. cbn beta in Hc.
    apply list_elem_of_fmap in Hc as (e & -> & He).
    rewrite Forall_forall in Hvis. by apply Hvis.
  - intros n c Hn Hv Ht.
    apply (Hall (mk_entry n true (Some (md5 c)))); try done.
    unfold inbox_entries. apply list_elem_of_fmap.
    exists (n, File c). split; [reflexivity|]. by apply elem_of_map_to_list.
  - exists f'. split; [exact Hf'|].
    apply inbox_scan_nothing. intros e h Hin Hfile Hv Hh Ht.
    destruct (inbox_entries_elem f' e h Hin Hfile Hh) as (c & Hc & ->).
    by apply (Hknown (name e) c).
Qed.




End Stat.

End InboxActionFacts.

Module InboxActionChecks.
Import PyStr PyTime Vault Files FileSystemWatcher InboxActionFile.
Import InboxActionFacts ActionExamples.

Lemma own_copies_are_not_reported_witness :
  exists f',
    create_action_files 4096 [mk_call noon noon noon "report.pdf"] one_drop
      !! inbox = Some f'
    /\ f' !! "processed_report.pdf" = Some (File "%PDF-1.7")
    /\ check_for_updates (Ok (inbox_entries digest f'))
         (snd (check_for_updates
                 (Ok (inbox_entries digest {[ "report.pdf" := File "%PDF-1.7" ]}))
                 init))
       = ([], snd (check_for_updates
                     (Ok (inbox_entries digest {[ "report.pdf" := File "%PDF-1.7" ]}))
                     init)).
Proof.
  destruct (own_copies_are_not_reported digest 4096 one_drop
              {[ "report.pdf" := File "%PDF-1.7" ]} init
              [mk_call noon noon noon "report.pdf"])
    as (f' & Hf' & Hquiet).
  - reflexivity.
  - constructor; [|constructor]. vm_compute. apply list_elem_of_here.
  - exists f'. split; [exact Hf'|]. split; [|exact Hquiet].
    assert (H : create_action_files 4096 [mk_call noon noon noon "report.pdf"]
                  one_drop !! inbox ≫= (fun f => f !! "processed_report.pdf")
                = Some (File "%PDF-1.7")) by reflexivity.
    rewrite Hf' in H. exact H.
Defined.


End InboxActionChecks.

(** ** Rows of the dashboard *)

Module DashboardFacts.
Import PyStr PyText PyTime Vault Dashboard.
Import PyStrFacts ApprovalFacts StatusFacts TextFacts.

Lemma insert_activity_below row pre hdr sep post :
  Forall (fun l => contains table_header l = false) pre ->
  contains table_header hdr = true -> contains "|---" sep = true ->
  insert_activity row (pre ++ hdr :: sep :: post)
  = (pre ++ hdr :: sep :: row :: post)%list.
Proof.
  intros Hpre Hh Hs. induction Hpre as [|l pre Hl _ IH].
  - cbn [app insert_activity]. by rewrite Hh, Hs.
  - cbn [app insert_activity]. rewrite Hl, IH. reflexivity.
Qed.

Lemma join_cons sep y l :
  l <> [] -> join sep (y :: l) = y ++ sep ++ join sep l.
Proof. destruct l; [done|reflexivity]. Qed.

(** A row that ends in a newline reads as the row and an empty line. *)
Lemma join_row_newline pre row post :
  join (String ApprovalManager.nl "")
       (pre ++ (row ++ String ApprovalManager.nl "") :: post)
  = join (String ApprovalManager.nl "") (pre ++ row :: "" :: post).
Proof.
  induction pre as [|y pre IH].
  - cbn [app]. destruct post as [|p post].
    + rewrite (join_cons _ row [""]) by done. reflexivity.
    + rewrite !join_cons by done. by rewrite sapp_assoc.
  - cbn [app]. rewrite !join_cons by (by destruct pre). by rewrite IH.
Qed.

(** X13.  On a dashboard whose activity table is in place, [update_dashboard]
    puts the new row right below the separator row, newest first, and an
    empty line right below the new row (the inserted line ends in a
    newline of its own), which cuts the rows of earlier updates off the
    table; every other line stays where it was. *)
Theorem update_dashboard_inserts_below_header now n pre hdr sep post :
  Forall (fun l => has_char ApprovalManager.nl l = false)
         (pre ++ hdr :: sep :: post) ->
  Forall (fun l => contains table_header l = false) pre ->
  contains table_header hdr = true -> contains "|---" sep = true ->
  update_dashboard now n
    (Some (File (join (String ApprovalManager.nl "")
                   (pre ++ hdr :: sep :: post))))
  = Some (File (join (String ApprovalManager.nl "")
                  (pre ++ hdr :: sep :: activity_row now n :: "" :: post)))
  /\ split ApprovalManager.nl
       (join (String ApprovalManager.nl "")
          (pre ++ hdr :: sep :: activity_row now n :: "" :: post))
     = (pre ++ hdr :: sep :: activity_row now n :: "" :: post)%list.
Proof.
  intros Hnl Hpre Hh Hs.
  assert (Hrow : has_char ApprovalManager.nl (activity_row now n) = false).
  { unfold activity_row, strftime_minutes. rewrite !has_char_app.
    rewrite !pad_has_char, pretty_nat_has_char by reflexivity. reflexivity. }
  split.
  - unfold update_dashboard.
    assert (Hc : contains table_header
              (join (String ApprovalManager.nl "") (pre ++ hdr :: sep :: post))
              = true).
    { destruct (join_elem (String ApprovalManager.nl "")
                  (pre ++ hdr :: sep :: post) hdr) as (a & b & ->).
      - apply elem_of_app. right. left.
      - by apply contains_within. }
    rewrite Hc, split_join_lines; [|by destruct pre|exact Hnl].
    rewrite (insert_activity_below _ _ _ _ _ Hpre Hh Hs).
    f_equal. f_equal. unfold activity_line.
    change (pre ++ hdr :: sep ::
              (activity_row now n ++ String ApprovalManager.nl "")%string :: post)%list
      with (pre ++ [hdr; sep] ++
              (activity_row now n ++ String ApprovalManager.nl "")%string :: post)%list.
    change (pre ++ hdr :: sep :: activity_row now n :: "" :: post)%list
      with (pre ++ [hdr; sep] ++ activity_row now n :: "" :: post)%list.
    rewrite !(app_assoc pre). apply join_row_newline.
  - apply split_join_lines; [by destruct pre|].
    apply Forall_app in Hnl as [Hpre' Hrest].
    apply Forall_app. split; [exact Hpre'|].
    apply Forall_cons in Hrest as [? Hrest].
    apply Forall_cons in Hrest as [? Hrest].
    repeat (constructor; [done|]). exact Hrest.
Qed.

End DashboardFacts.

(** ** What the listing of pending requests shows *)

Module PendingFacts.
Import PyStr PyTime Vault ApprovalManager Pending.
Import PyStrFacts PyTimeFacts ApprovalFacts StatusFacts TextFacts.

Lemma split_two sep s :
  has_char sep s = true -> exists a b rest, split sep s = a :: b :: rest.
Proof.
  induction s as [|c s IH]; [discriminate|]. cbn [has_char split].
  destruct (Ascii.eqb c sep) eqn:Hc.
  - intros _. destruct (split sep s) as [|b rest] eqn:Hs.
    + by destruct (split_nonempty sep s).
    + by exists "", b, rest.
  - intros (a & b & rest & ->)%IH. by exists (String c a), b, rest.
Qed.

Lemma startswith_has_char c p line :
  startswith p line = true -> has_char c p = true -> has_char c line = true.
Proof.
  intros (r & ->)%startswith_inv Hp. by rewrite has_char_app, Hp.
Qed.

Lemma second_split p line :
  startswith p line = true -> has_char ":" p = true ->
  exists v, second (split ":" line) = Ok v.
Proof.
  intros Hs Hp.
  destruct (split_two ":" line (startswith_has_char _ _ _ Hs Hp))
    as (a & b & rest & ->).
  by exists b.
Qed.

Lemma lower_char_colon c :
  Ascii.eqb (lower_char c) ":" = true -> Ascii.eqb c ":" = true.
Proof.
  unfold lower_char.
  destruct ((65 <=? N_of_ascii c) && (N_of_ascii c <=? 90)) eqn:Hc; [|done].
  apply andb_true_iff in Hc as [H1%N.leb_le H2%N.leb_le].
  intros H%Ascii.eqb_eq. apply (f_equal N_of_ascii) in H.
  rewrite N_ascii_embedding in H by lia. simpl in H. lia.
Qed.

Lemma has_colon_lower s :
  has_char ":" (lower s) = true -> has_char ":" s = true.
Proof.
  induction s as [|c s IH]; [done|]. cbn [lower has_char].
  intros [H%lower_char_colon | H%IH]%orb_true_iff; apply orb_true_iff; auto.
Qed.

Lemma created_line_second t :
  second (split ":" (created_line t)) = Ok (String " " (hour_text t)).
Proof.
  unfold created_line. rewrite isoformat_split.
  change ("created: " ++ hour_text t ++ String ":" (tail_text t))
    with ("created" ++ String ":" (String " " (hour_text t ++ String ":" (tail_text t)))).
  rewrite split_app.
  change (String " " (hour_text t ++ String ":" (tail_text t)))
    with (String " " (hour_text t) ++ String ":" (tail_text t)).
  rewrite split_app.
  rewrite (split_no_sep ":" (String " " (hour_text t)))
    by (simpl; apply hour_text_no_colon).
  reflexivity.
Qed.

Lemma hour_text_length t : String.length (hour_text t) = 13%nat.
Proof.
  unfold hour_text. rewrite !length_app, !pad_length. reflexivity.
Qed.

Lemma take_all n s : (String.length s <= n)%nat -> take n s = s.
Proof.
  revert n. induction s as [|c s IH]; intros [|n] Hn; simpl in *;
    try reflexivity; try lia.
  f_equal. apply IH. lia.
Qed.

(** The first loop never fails, keeps the name, and shows for the creation
    time what the last [created:] line gives. *)
Lemma key_info_created t lines : forall i,
  Forall (fun l => l = created_line t \/ startswith "created:" l = false) lines ->
  exists i',
    key_info lines i = Ok i' /\ filename i' = filename i
    /\ created i' = if bool_decide (created_line t ∈ lines)
                    then hour_text t else created i.
Proof.
  induction lines as [|line rest IH]; intros i Hall.
  - exists i. repeat split; reflexivity.
  - apply Forall_cons in Hall as [Hline Hall]. cbn [key_info].
    assert (Hrest : forall i0,
      (line = created_line t -> created i0 = hour_text t) ->
      (line <> created_line t -> created i0 = created i) ->
      filename i0 = filename i ->
      exists i',
        key_info rest i0 = Ok i' /\ filename i' = filename i
        /\ created i' = if bool_decide (created_line t ∈ line :: rest)
                        then hour_text t else created i).
    { intros i0 Hyes Hno Hname.
      destruct (IH i0 Hall) as (i' & E & Hn & Hc).
      exists i'. split; [exact E|]. split; [congruence|]. rewrite Hc.
      destruct (decide (created_line t ∈ rest)) as [Hin | Hout].
      - rewrite !bool_decide_eq_true_2; [done| |done]. by right.
      - rewrite (bool_decide_eq_false_2 _ Hout).
        destruct (decide (line = created_line t)) as [-> | Hne].
        + rewrite bool_decide_eq_true_2 by left. by apply Hyes.
        + rewrite bool_decide_eq_false_2; [by apply Hno|].
          intros [?|?]%elem_of_cons; congruence. }
    destruct Hline as [-> | Hline].
    + change (startswith "action_type:" (created_line t)) with false.
      change (startswith "action:" (created_line t)) with false.
      change (startswith "created:" (created_line t)) with true.
      cbv iota. rewrite created_line_second. apply Hrest; [|done|done].
      intros _. cbn [created].
      rewrite (strip_blank _ (hour_text_no_space t)).
      apply take_all. rewrite hour_text_length. lia.
    + rewrite Hline.
      assert (Hne : line <> created_line t).
      { intros ->. discriminate. }
      destruct (startswith "action_type:" line) eqn:H1.
      { destruct (second_split _ _ H1 eq_refl) as (p & ->).
        apply Hrest; [done|done|done]. }
      destruct (startswith "action:" line) eqn:H2.
      { destruct (second_split _ _ H2 eq_refl) as (p & ->).
        apply Hrest; [done|done|done]. }
      apply Hrest; done.
Qed.

Lemma amount_info_keeps lines : forall i,
  exists i', amount_info lines i = Ok i'
    /\ filename i' = filename i /\ created i' = created i.
Proof.
  induction lines as [|line rest IH]; intros i; [by exists i|].
  cbn [amount_info].
  destruct (contains "amount:" (lower line)) eqn:Hc; [|apply IH].
  apply contains_inv in Hc as (a & b & Hab).
  assert (Hcolon : has_char ":" line = true).
  { apply has_colon_lower. rewrite Hab, !has_char_app.
    change (has_char ":" "amount:") with true. by rewrite orb_true_r. }
  destruct (split_two ":" line Hcolon) as (x & y & rest' & ->).
  eexists. split; [reflexivity|]. done.
Qed.

Lemma pending_info_total name content :
  exists i, pending_info name content = Ok i /\ filename i = name.
Proof.
  unfold pending_info.
  assert (Hkey : forall lines i, exists i',
            key_info lines i = Ok i' /\ filename i' = filename i).
  { induction lines as [|line rest IH]; intros i; [by exists i|].
    cbn [key_info].
    destruct (startswith "action_type:" line) eqn:H1.
    { destruct (second_split _ _ H1 eq_refl) as (p & ->).
      destruct (IH (mk_info (filename i) (strip p) (action i) (created i)
                      (summary i))) as (i' & E & Hn). by exists i'. }
    destruct (startswith "action:" line) eqn:H2.
    { destruct (second_split _ _ H2 eq_refl) as (p & ->).
      destruct (IH (mk_info (filename i) (type i) (strip p) (created i)
                      (summary i))) as (i' & E & Hn). by exists i'. }
    destruct (startswith "created:" line) eqn:H3.
    { destruct (second_split _ _ H3 eq_refl) as (p & ->).
      destruct (IH (mk_info (filename i) (type i) (action i)
                      (take 16 (strip p)) (summary i))) as (i' & E & Hn).
      by exists i'. }
    apply IH. }
  destruct (Hkey (split nl content) (mk_info name "Unknown" "Unknown" "Unknown" ""))
    as (i & -> & Hn).
  cbn [filename] in Hn.
  destruct (contains "amount:" content); [|by exists i].
  destruct (amount_info_keeps (split nl content) i) as (i' & -> & Hn' & _).
  exists i'. split; [reflexivity|congruence].
Qed.

Lemma pending_entries_total entries : forall acc,
  exists infos,
    pending_entries entries acc = Ok infos
    /\ (forall i, i ∈ acc -> i ∈ infos)
    /\ (forall name content, (name, File content) ∈ entries ->
          suffix name = ".md" ->
          exists i, i ∈ infos /\ pending_info name content = Ok i).
Proof.
  induction entries as [|[name n] rest IH]; intros acc.
  - exists acc. split; [reflexivity|]. split; [done|].
    intros ? ? H. by apply elem_of_nil in H.
  - cbn [pending_entries].
    assert (Hskip :
      (forall content, n = File content -> suffix name <> ".md") ->
      pending_entries ((name, n) :: rest) acc = pending_entries rest acc ->
      exists infos,
        pending_entries rest acc = Ok infos
        /\ (forall i, i ∈ acc -> i ∈ infos)
        /\ (forall name' content, (name', File content) ∈ (name, n) :: rest ->
              suffix name' = ".md" ->
              exists i, i ∈ infos /\ pending_info name' content = Ok i)).
    { intros Hno _. destruct (IH acc) as (infos & E & Hacc & Hall).
      exists infos. split; [exact E|]. split; [exact Hacc|].
      intros name' content [[= -> <-] | Hin]%elem_of_cons Hs.
      - by destruct (Hno content).
      - by apply (Hall name' content). }
    destruct n as [content|b]; [|apply Hskip; [discriminate|reflexivity]].
    destruct (String.eqb (suffix name) ".md") eqn:Hs.
    2:{ apply Hskip; [|cbn [pending_entries]; by rewrite Hs].
        intros c _ H. rewrite H in Hs. discriminate. }
    destruct (pending_info_total name content) as (i & Ei & _). rewrite Ei.
    destruct (IH (acc ++ [i])%list) as (infos & E & Hacc & Hall).
    exists infos. split; [exact E|]. split.
    + intros i0 Hi0. apply Hacc, elem_of_app. by left.
    + intros name' content' [[= -> <-] | Hin]%elem_of_cons Hs'.
      * exists i. split; [|exact Ei]. apply Hacc, elem_of_app. right. left.
      * by apply (Hall name' content').
Qed.

(** X4.  [list_pending] reads the creation time with [split(':')[1]], as
    [check_status] reads the expiry: for a request as [create_approval]
    writes it the listing shows the date and the hour of creation, the
    minutes and seconds are cut off.  The listing itself never fails on the
    text of a request and leaves the vault as it is. *)
Theorem list_pending_shows_creation_hour (v : vault) f name lines t :
  v !! pending_approval = Some f ->
  f !! name = Some (File (join (String nl "") lines)) ->
  suffix name = ".md" ->
  Forall (fun l => has_char nl l = false) lines ->
  Forall (fun l => l = created_line t \/ startswith "created:" l = false) lines ->
  created_line t ∈ lines ->
  exists infos i,
    list_pending v = (Ok infos, v)
    /\ i ∈ infos /\ filename i = name /\ created i = hour_text t.
Proof.
  intros Hv Hf Hs Hnl Honly Hin.
  destruct (pending_entries_total (map_to_list f) []) as (infos & E & _ & Hall).
  destruct (Hall name (join (String nl "") lines)) as (i & Hi & Ei).
  { by apply elem_of_map_to_list. }
  { exact Hs. }
  exists infos, i. split; [|split; [exact Hi|]].
  - unfold list_pending, bind, iterdir. rewrite Hv, E. reflexivity.
  - unfold pending_info in Ei.
    rewrite split_join_lines in Ei
      by (try exact Hnl; intros ->; by apply elem_of_nil in Hin).
    destruct (key_info_created t lines
                (mk_info name "Unknown" "Unknown" "Unknown" "") Honly)
      as (i1 & E1 & Hn1 & Hc1).
    cbn [filename] in Hn1.
    rewrite E1 in Ei. rewrite bool_decide_eq_true_2 in Hc1 by exact Hin.
    destruct (contains "amount:" (join (String nl "") lines)).
    + destruct (amount_info_keeps lines i1) as (i2 & E2 & Hn2 & Hc2).
      rewrite E2 in Ei. injection Ei as <-. split; congruence.
    + injection Ei as <-. split; congruence.
Qed.

End PendingFacts.

(** ** Steps that failed *)

Module PlanStepFacts.
Import PyStr PyText Vault Files PlanManager PlanSteps.
Import PyStrFacts ApprovalFacts StatusFacts TextFacts FilesFacts TransitionFacts.

Lemma lstrip_no_char c s : has_char c s = false -> has_char c (lstrip s) = false.
Proof.
  induction s as [|a s IH]; [done|]. cbn [lstrip].
  destruct (isspace a); [|done].
  cbn [has_char]. intros [_ H]%orb_false_iff. by apply IH.
Qed.

Lemma rstrip_cons a s :
  rstrip (String a s) = "" \/ rstrip (String a s) = String a (rstrip s).
Proof.
  cbn [rstrip]. destruct (rstrip s); [|by right].
  destruct (isspace a); [by left|by right].
Qed.

Lemma rstrip_no_char c s : has_char c s = false -> has_char c (rstrip s) = false.
Proof.
  induction s as [|a s IH]; [done|].
  cbn [has_char]. intros [Ha Hs]%orb_false_iff.
  destruct (rstrip_cons a s) as [-> | ->]; [done|].
  cbn [has_char]. by rewrite Ha, IH.
Qed.

Lemma strip_no_char c s : has_char c s = false -> has_char c (strip s) = false.
Proof. intros H. by apply rstrip_no_char, lstrip_no_char. Qed.

(** What starts a line with its blanks cut off at the end starts the
    line. *)
Lemma rstrip_startswith p s :
  startswith p (rstrip s) = true -> startswith p s = true.
Proof.
  revert p. induction s as [|a s IH]; intros p; [done|].
  destruct (rstrip_cons a s) as [-> | ->].
  - destruct p; [done|discriminate].
  - destruct p as [|b p]; [done|]. cbn [startswith].
    destruct (Ascii.eqb b a); [apply IH|done].
Qed.

Lemma after_first_no_char x c s r :
  after_first c s = Some r -> has_char x s = false -> has_char x r = false.
Proof.
  induction s as [|a s IH]; [discriminate|]. cbn [after_first has_char].
  intros H [_ Hs]%orb_false_iff. destruct (Ascii.eqb a c); [|by apply IH].
  by injection H as <-.
Qed.

Lemma step_text_no_char x line :
  has_char x line = false -> has_char x (step_text line) = false.
Proof.
  intros H. unfold step_text.
  destruct (after_first "." line) as [r|] eqn:E; [|exact H].
  apply strip_no_char. by apply (after_first_no_char x "." line).
Qed.

Lemma pretty_Z_has_char x (n : Z) :
  is_digit x = false -> x <> "-"%char -> has_char x (pretty n) = false.
Proof.
  intros Hx Hd. destruct n as [|p|p]; unfold pretty, pretty_Z.
  - cbn [has_char]. destruct (Ascii.eqb_spec "0" x) as [<- | _]; done.
  - exact (pretty_N_has_char x (N.pos p) Hx).
  - pose proof (pretty_N_has_char x (N.pos p) Hx) as Hp.
    change (has_char x (pretty p) = false) in Hp.
    rewrite has_char_app, Hp.
    cbn [has_char]. rewrite (proj2 (Ascii.eqb_neq _ _)) by congruence. done.
Qed.

Lemma checkbox_no_newline status :
  has_char ApprovalManager.nl (checkbox status) = false.
Proof. unfold checkbox. by repeat case_match. Qed.

(** The line written for a failed step is not a line of that step, nor is
    a note, nor is the status line. *)
Lemma failed_line_is_no_step n text :
  is_step n ("- " ++ checkbox "failed" ++ " " ++ pretty n ++ ". " ++ text) = false.
Proof.
  unfold is_step, strip. apply orb_false_iff.
  split; apply not_true_is_false; intros H%rstrip_startswith; discriminate.
Qed.

Lemma note_line_is_no_step n t : is_step n ("  *Note: " ++ t ++ "*") = false.
Proof.
  unfold is_step, strip. apply orb_false_iff.
  split; apply not_true_is_false; intros H%rstrip_startswith; discriminate.
Qed.

Lemma mark_step_found n status note pre line post :
  Forall (fun l => is_step n l = false) pre -> is_step n line = true ->
  mark_step n status note (pre ++ line :: post)
  = Some (pre ++ ("- " ++ checkbox status ++ " " ++ pretty n ++ ". " ++
                  step_text line)%string :: note_lines note ++ post)%list.
Proof.
  intros Hpre Hl. induction Hpre as [|l pre Hn _ IH]; cbn [app mark_step].
  - by rewrite Hl.
  - by rewrite Hn, IH.
Qed.

Lemma mark_step_none n status note lines :
  Forall (fun l => is_step n l = false) lines ->
  mark_step n status note lines = None.
Proof.
  induction 1 as [|l lines Hn _ IH]; [done|].
  cbn [mark_step]. by rewrite Hn, IH.
Qed.

Lemma set_completed_keeps (P : string -> Prop) lines :
  P "status: completed" -> Forall P lines -> Forall P (set_completed lines).
Proof.
  intros Hs. induction 1 as [|l lines Hl Hrest IH]; [constructor|].
  cbn [set_completed]. destruct (startswith "status:" l); by constructor.
Qed.

Lemma set_completed_nonempty lines : lines <> [] -> set_completed lines <> [].
Proof.
  destruct lines as [|l lines]; [done|]. intros _. cbn [set_completed].
  by destruct (startswith "status:" l).
Qed.

Lemma update_step_reads (v : vault) f name lines n status note :
  v !! plans_folder = Some f ->
  f !! name = Some (File (join (String ApprovalManager.nl "") lines)) ->
  lines <> [] ->
  Forall (fun l => has_char ApprovalManager.nl l = false) lines ->
  update_step name n status note v =
  match mark_step n status note lines with
  | None => (Ok false, v)
  | Some lines1 =>
      (Ok true,
       <[plans_folder :=
           <[name := File (join (String ApprovalManager.nl "")
                             (if (completed lines1 =? total lines1)%nat
                                 && (0 <? total lines1)%nat
                              then set_completed lines1 else lines1))]> f]> v)
  end.
Proof.
  intros Hv Hf Hne Hnl. unfold update_step. unfold bind at 1.
  rewrite (find_file_exact v name
             (File (join (String ApprovalManager.nl "") lines)))
    by (unfold lookup_node; by rewrite Hv).
  unfold bind at 1. unfold read_text, lookup_node. rewrite Hv, Hf.
  rewrite split_join_lines by done.
  destruct (mark_step n status note lines) as [lines1|]; [|reflexivity].
  unfold bind. rewrite (write_text_ok _ _ _ _ f Hv); [reflexivity|].
  intros b. by rewrite Hf.
Qed.

(** X8.  A step that [update_step] has marked as failed is out of its reach:
    in a plan that has one line for the step, every later [update_step] on
    that step, whatever the status asked for, answers [False] and leaves the
    plan as it is. *)
Theorem failed_step_stays_failed (v : vault) f name pre line post n note
    status' note' :
  v !! plans_folder = Some f ->
  f !! name = Some (File (join (String ApprovalManager.nl "")
                            (pre ++ line :: post))) ->
  Forall (fun l => has_char ApprovalManager.nl l = false) (pre ++ line :: post) ->
  Forall (fun l => has_char ApprovalManager.nl l = false) (note_lines note) ->
  Forall (fun l => is_step n l = false) pre ->
  is_step n line = true ->
  Forall (fun l => is_step n l = false) post ->
  exists v1,
    update_step name n "failed" note v = (Ok true, v1)
    /\ update_step name n status' note' v1 = (Ok false, v1).
Proof.
  intros Hv Hf Hnl Hnote Hpre Hline Hpost.
  rewrite (update_step_reads v f name (pre ++ line :: post) n "failed" note
             Hv Hf) by (try done; by destruct pre).
  rewrite (mark_step_found n "failed" note pre line post Hpre Hline).
  set (lines1 := (pre ++ ("- " ++ checkbox "failed" ++ " " ++ pretty n ++ ". " ++
                          step_text line)%string :: note_lines note ++ post)%list).
  set (lines2 := if (completed lines1 =? total lines1)%nat
                    && (0 <? total lines1)%nat
                 then set_completed lines1 else lines1).
  eexists. split; [reflexivity|].
  assert (Hne1 : lines1 <> []) by (unfold lines1; by destruct pre).
  assert (Hnl1 : Forall (fun l => has_char ApprovalManager.nl l = false) lines1).
  { unfold lines1. apply Forall_app in Hnl as [Hnl_pre Hnl_rest].
    apply Forall_cons in Hnl_rest as [Hnl_line Hnl_post].
    apply Forall_app. split; [exact Hnl_pre|]. constructor.
    - rewrite !has_char_app, checkbox_no_newline,
        pretty_Z_has_char, step_text_no_char by done. reflexivity.
    - apply Forall_app. by split. }
  assert (Hno1 : Forall (fun l => is_step n l = false) lines1).
  { unfold lines1. apply Forall_app. split; [exact Hpre|]. constructor.
    - apply failed_line_is_no_step.
    - apply Forall_app. split; [|exact Hpost].
      unfold note_lines. destruct note as [t|]; [|constructor].
      destruct (truthy t); [|constructor].
      constructor; [apply note_line_is_no_step|constructor]. }
  assert (Hne2 : lines2 <> []).
  { unfold lines2. destruct (_ && _); [by apply set_completed_nonempty|done]. }
  assert (Hnl2 : Forall (fun l => has_char ApprovalManager.nl l = false) lines2).
  { unfold lines2. destruct (_ && _); [|done].
    by apply set_completed_keeps. }
  assert (Hno2 : Forall (fun l => is_step n l = false) lines2).
  { unfold lines2. destruct (_ && _); [|done].
    apply set_completed_keeps; [|done].
    unfold is_step. apply orb_false_iff. split; reflexivity. }
  rewrite (update_step_reads _
             (<[name := File (join (String ApprovalManager.nl "") lines2)]> f)
             name lines2 n status' note').
  - by rewrite (mark_step_none n status' note' lines2 Hno2).
  - by rewrite lookup_insert_eq.
  - by rewrite lookup_insert_eq.
  - exact Hne2.
  - exact Hnl2.
Qed.

End PlanStepFacts.

(** ** When a plan is completed *)

Module PlanStatusFacts.
Import PyStr PyText Vault Files PlanManager PlanSteps.
Import PyStrFacts ApprovalFacts StatusFacts TextFacts FilesFacts PlanStepFacts.

Lemma completed_le_total lines :
  Forall (fun l => contains "- [x]" l = true ->
                   contains "- [" l && has_char "." l = true) lines ->
  (completed lines <= total lines)%nat.
Proof.
  unfold completed, total. induction 1 as [|l lines Hl _ IH]; [done|].
  destruct (decide (contains "- [x]" l = true)) as [Hc | Hc].
  - rewrite !filter_cons_True by auto. simpl. lia.
  - rewrite (filter_cons_False (fun l => contains "- [x]" l = true)) by done.
    destruct (decide (contains "- [" l && has_char "." l = true)).
    + rewrite filter_cons_True by done. simpl. lia.
    + rewrite filter_cons_False by done. lia.
Qed.

Lemma completed_lt_total lines l0 :
  Forall (fun l => contains "- [x]" l = true ->
                   contains "- [" l && has_char "." l = true) lines ->
  l0 ∈ lines ->
  contains "- [" l0 && has_char "." l0 = true -> contains "- [x]" l0 = false ->
  (completed lines < total lines)%nat.
Proof.
  intros Hall Hin Hq Hp. induction Hall as [|l lines Hl Hall IH].
  - by apply elem_of_nil in Hin.
  - unfold completed, total in *.
    apply elem_of_cons in Hin as [<- | Hin].
    + rewrite filter_cons_False by congruence.
      rewrite filter_cons_True by done. simpl.
      pose proof (completed_le_total lines Hall) as Hle.
      unfold completed, total in Hle. lia.
    + specialize (IH Hin).
      destruct (decide (contains "- [x]" l = true)) as [Hc | Hc].
      * rewrite !filter_cons_True by auto. simpl. lia.
      * rewrite (filter_cons_False (fun l => contains "- [x]" l = true)) by done.
        destruct (decide (contains "- [" l && has_char "." l = true)).
        -- rewrite filter_cons_True by done. simpl. lia.
        -- rewrite filter_cons_False by done. lia.
Qed.

Lemma completed_eq_total lines :
  Forall (fun l => contains "- [x]" l = contains "- [" l && has_char "." l)
         lines ->
  completed lines = total lines.
Proof.
  unfold completed, total. induction 1 as [|l lines Hl _ IH]; [done|].
  destruct (contains "- [x]" l) eqn:Hc.
  - rewrite !filter_cons_True by (by rewrite <- ?Hl). simpl. by rewrite IH.
  - rewrite !filter_cons_False by (rewrite <- ?Hl; congruence). exact IH.
Qed.

Lemma total_pos lines l0 :
  l0 ∈ lines -> contains "- [" l0 && has_char "." l0 = true ->
  (0 < total lines)%nat.
Proof.
  intros Hin Hq. unfold total.
  assert (H : l0 ∈ filter (fun l => contains "- [" l && has_char "." l = true) lines)
    by (by apply list_elem_of_filter).
  destruct (filter _ lines); [by apply elem_of_nil in H|simpl; lia].
Qed.

Lemma set_completed_first top st rest :
  Forall (fun l => startswith "status:" l = false) top ->
  startswith "status:" st = true ->
  set_completed (top ++ st :: rest) = (top ++ "status: completed" :: rest)%list.
Proof.
  intros Htop Hst. induction Htop as [|l top Hl _ IH]; cbn [app set_completed].
  - by rewrite Hst.
  - by rewrite Hl, IH.
Qed.

(** The line written for a step has the look of a step; the one of a
    completed step has the look of a completed step. *)
Lemma new_line_is_counted status (n : Z) text :
  contains "- [" ("- " ++ checkbox status ++ " " ++ pretty n ++ ". " ++ text)
  && has_char "." ("- " ++ checkbox status ++ " " ++ pretty n ++ ". " ++ text)
  = true.
Proof.
  apply andb_true_iff. split.
  - unfold checkbox. repeat case_match;
      match goal with
      | |- contains _ (_ ++ ?b ++ ?r) = true =>
          apply (contains_app "" "- [" (String.substring 1 2 b ++ r))
      end.
  - rewrite !has_char_app. cbn [has_char].
    change (Ascii.eqb "." ".") with true. by rewrite !orb_true_r.
Qed.

Lemma completed_line (n : Z) text :
  contains "- [x]" ("- " ++ checkbox "completed" ++ " " ++ pretty n ++ ". " ++ text)
  = true.
Proof. apply (contains_app "" "- [x]" (" " ++ pretty n ++ ". " ++ text)). Qed.

(** X9.  Completing the one step that is still open completes the plan: when
    every other line that looks like a step is a completed step,
    [update_step] rewrites the line of the step and turns the first
    [status:] line into [status: completed]. *)
Theorem completing_last_step_completes_plan (v : vault) f name top st mid
    line post n :
  v !! plans_folder = Some f ->
  f !! name = Some (File (join (String ApprovalManager.nl "")
                            (top ++ st :: mid ++ line :: post))) ->
  Forall (fun l => has_char ApprovalManager.nl l = false)
         (top ++ st :: mid ++ line :: post) ->
  Forall (fun l => startswith "status:" l = false) top ->
  startswith "status:" st = true ->
  Forall (fun l => is_step n l = false) (top ++ st :: mid) ->
  is_step n line = true ->
  Forall (fun l => contains "- [x]" l = contains "- [" l && has_char "." l)
         (top ++ st :: mid ++ post) ->
  update_step name n "completed" None v
  = (Ok true,
     <[plans_folder :=
         <[name := File (join (String ApprovalManager.nl "")
                           (top ++ "status: completed" :: mid ++
                            ("- [x] " ++ pretty n ++ ". " ++ step_text line)%string
                            :: post))]> f]> v).
Proof.
  intros Hv Hf Hnl Htop Hst Hpre Hline Hbal.
  replace (top ++ st :: mid ++ line :: post)%list
    with ((top ++ st :: mid) ++ line :: post)%list in Hf, Hnl
    by (by rewrite <- app_assoc).
  rewrite (update_step_reads v f name _ n "completed" None Hv Hf)
    by (try done; by destruct top).
  rewrite (mark_step_found n "completed" None _ line post Hpre Hline).
  cbn [note_lines app].
  set (new := ("- " ++ checkbox "completed" ++ " " ++ pretty n ++ ". " ++
               step_text line)%string).
  assert (Hbal1 : Forall (fun l => contains "- [x]" l
                                   = contains "- [" l && has_char "." l)
                         ((top ++ st :: mid) ++ new :: post)).
  { replace (top ++ st :: mid ++ post)%list
      with ((top ++ st :: mid) ++ post)%list in Hbal
      by (by rewrite <- app_assoc).
    apply Forall_app in Hbal as [H1 H2]. apply Forall_app. split; [exact H1|].
    constructor; [|exact H2].
    unfold new. by rewrite completed_line, new_line_is_counted. }
  rewrite (completed_eq_total _ Hbal1), Nat.eqb_refl.
  assert (Hpos : (0 < total ((top ++ st :: mid) ++ new :: post))%nat).
  { apply (total_pos _ new); [|apply new_line_is_counted].
    apply elem_of_app. right. left. }
  apply Nat.ltb_lt in Hpos. rewrite Hpos. cbn [andb].
  rewrite <- (app_assoc top). cbn [app].
  rewrite (set_completed_first top st _ Htop Hst).
  reflexivity.
Qed.

(** X10.  A step that failed keeps the plan from ever being completed: as long
    as one line has the look of a step without being a completed one,
    [update_step] rewrites the line of its step and leaves the status line
    alone, whatever the status asked for. *)
Theorem failed_step_blocks_completion (v : vault) f name pre line post n
    status note l0 :
  v !! plans_folder = Some f ->
  f !! name = Some (File (join (String ApprovalManager.nl "")
                            (pre ++ line :: post))) ->
  Forall (fun l => has_char ApprovalManager.nl l = false) (pre ++ line :: post) ->
  Forall (fun l => is_step n l = false) pre ->
  is_step n line = true ->
  Forall (fun l => contains "- [x]" l = true ->
                   contains "- [" l && has_char "." l = true)
         (pre ++ note_lines note ++ post) ->
  l0 ∈ (pre ++ post)%list ->
  contains "- [" l0 && has_char "." l0 = true -> contains "- [x]" l0 = false ->
  update_step name n status note v
  = (Ok true,
     <[plans_folder :=
         <[name := File (join (String ApprovalManager.nl "")
                           (pre ++
                            ("- " ++ checkbox status ++ " " ++ pretty n ++ ". " ++
                             step_text line)%string
                            :: note_lines note ++ post))]> f]> v).
Proof.
  intros Hv Hf Hnl Hpre Hline Hall Hin Hq Hp.
  rewrite (update_step_reads v f name _ n status note Hv Hf)
    by (try done; by destruct pre).
  rewrite (mark_step_found n status note pre line post Hpre Hline).
  set (new := ("- " ++ checkbox status ++ " " ++ pretty n ++ ". " ++
               step_text line)%string).
  assert (Hlt : (completed (pre ++ new :: note_lines note ++ post)
                 < total (pre ++ new :: note_lines note ++ post))%nat).
  { apply (completed_lt_total _ l0); [| |exact Hq|exact Hp].
    - apply Forall_app in Hall as [H1 H2]. apply Forall_app. split; [exact H1|].
      constructor; [|exact H2]. intros _. apply new_line_is_counted.
    - apply elem_of_app in Hin as [Hin | Hin]; apply elem_of_app; [by left|].
      right. right. apply elem_of_app. by right. }
  replace (completed _ =? total _)%nat with false
    by (symmetry; apply Nat.eqb_neq; lia).
  reflexivity.
Qed.

End PlanStatusFacts.

Module ListingChecks.
Import PyStr PyTime Vault ApprovalManager Dashboard Pending PlanSteps.
Import DashboardFacts PendingFacts PlanStepFacts PlanStatusFacts ActionExamples.

Lemma update_dashboard_inserts_below_header_witness :
  update_dashboard noon 2
    (Some (File (join (String nl "")
                   (dashboard_top ++ "| Timestamp | Action | Status |"
                      :: "|-----------|--------|--------|" :: dashboard_rows))))
  = Some (File (join (String nl "")
                  (dashboard_top ++ "| Timestamp | Action | Status |"
                     :: "|-----------|--------|--------|"
                     :: "| 2026-11-03 12:00 | Batch processed 2 task(s) | Complete |"
                     :: "" :: dashboard_rows))).
Proof.
  apply (update_dashboard_inserts_below_header noon 2 dashboard_top
           "| Timestamp | Action | Status |"
           "|-----------|--------|--------|" dashboard_rows).
  - repeat (constructor; [reflexivity|]). constructor.
  - repeat (constructor; [reflexivity|]). constructor.
  - reflexivity.
  - reflexivity.
Defined.

Lemma list_pending_shows_creation_hour_witness :
  exists infos i,
    list_pending Examples.vault0 = (Ok infos, Examples.vault0)
    /\ i ∈ infos /\ filename i = "PAY_INVOICE.md"
    /\ created i = "2026-01-06T10".
Proof.
  apply (list_pending_shows_creation_hour Examples.vault0
           {[ "PAY_INVOICE.md" := File (join (String nl "") Examples.request0) ]}
           "PAY_INVOICE.md" Examples.request0
           (mk_datetime 2026 1 6 10 30 0 0)).
  - reflexivity.
  - reflexivity.
  - reflexivity.
  - repeat (constructor; [reflexivity|]). constructor.
  - repeat (constructor; [first [left; reflexivity | right; reflexivity]|]).
    constructor.
  - do 4 apply list_elem_of_further. apply list_elem_of_here.
Defined.

Lemma failed_step_stays_failed_witness :
  exists v1,
    update_step "PLAN_pay.md" 2 "failed" (Some "bank is closed") vault_plan
      = (Ok true, v1)
    /\ update_step "PLAN_pay.md" 2 "completed" None v1 = (Ok false, v1).
Proof.
  apply (failed_step_stays_failed vault_plan
           {[ "PLAN_pay.md" :=
                File (join (String nl "")
                        (plan_top ++ "- [ ] 2. Pay the invoice" :: plan_bottom)) ]}
           "PLAN_pay.md" plan_top "- [ ] 2. Pay the invoice" plan_bottom 2
           (Some "bank is closed") "completed" None).
  - reflexivity.
  - reflexivity.
  - repeat (constructor; [reflexivity|]). constructor.
  - repeat (constructor; [reflexivity|]). constructor.
  - repeat (constructor; [reflexivity|]). constructor.
  - reflexivity.
  - repeat (constructor; [reflexivity|]). constructor.
Defined.

Lemma completing_last_step_completes_plan_witness :
  update_step "PLAN_pay.md" 2 "completed" None (vault_steps steps_done)
  = (Ok true,
     <[PlanManager.plans_folder :=
         <["PLAN_pay.md" :=
             File (join (String nl "")
                     (steps_top ++ "status: completed" :: steps_done ++
                      "- [x] 2. Pay the invoice" :: plan_bottom))]>
           (plan_file steps_done)]> (vault_steps steps_done)).
Proof.
  apply (completing_last_step_completes_plan (vault_steps steps_done)
           (plan_file steps_done) "PLAN_pay.md" steps_top
           "status: in_progress" steps_done "- [ ] 2. Pay the invoice"
           plan_bottom 2).
  - reflexivity.
  - reflexivity.
  - repeat (constructor; [reflexivity|]). constructor.
  - repeat (constructor; [reflexivity|]). constructor.
  - reflexivity.
  - repeat (constructor; [reflexivity|]). constructor.
  - reflexivity.
  - repeat (constructor; [reflexivity|]). constructor.
Defined.

Lemma failed_step_blocks_completion_witness :
  update_step "PLAN_pay.md" 2 "completed" None (vault_steps steps_failed)
  = (Ok true,
     <[PlanManager.plans_folder :=
         <["PLAN_pay.md" :=
             File (join (String nl "")
                     ((steps_top ++ "status: in_progress" :: steps_failed) ++
                      "- [x] 2. Pay the invoice" :: plan_bottom))]>
           (plan_file steps_failed)]> (vault_steps steps_failed)).
Proof.
  apply (failed_step_blocks_completion (vault_steps steps_failed)
           (plan_file steps_failed) "PLAN_pay.md"
           (steps_top ++ "status: in_progress" :: steps_failed)
           "- [ ] 2. Pay the invoice" plan_bottom 2 "completed" None
           "- [-] 1. Read the invoice").
  - reflexivity.
  - reflexivity.
  - repeat (constructor; [reflexivity|]). constructor.
  - repeat (constructor; [reflexivity|]). constructor.
  - reflexivity.
  - repeat (constructor; [vm_compute; congruence|]). constructor.
  - do 6 apply list_elem_of_further. apply list_elem_of_here.
  - reflexivity.
  - reflexivity.
Defined.

End ListingChecks.

(** ** From the creation of a request to its expiry *)

Module CalendarFacts.
Import PyStr PyTime CreateApproval.








End CalendarFacts.

Module RoundTripFacts.
Import PyStr PyText PyTime Vault Files ApprovalManager CreateApproval.
Import PyStrFacts PyTimeFacts ApprovalFacts StatusFacts TextFacts FilesFacts.
Import CalendarFacts.












End RoundTripFacts.

Module RoundTripChecks.
Import PyStr PyTime Vault Files ApprovalManager CreateApproval RoundTripFacts.


End RoundTripChecks.

(** ** From a poll to the action file *)

Module GmailLoopFacts.
Import PySet Vault Files Gmail GmailActionFile GmailLoop GmailWatcher.
Import GmailFacts FilesFacts.



Section Order.
Context `{SetOrder}.

Lemma gmail_poll_service resp st :
  service (snd (check_for_updates resp st)) = service st.
Proof.
  unfold check_for_updates. destruct (negb (service st)); [reflexivity|].
  destruct resp as [msgs|e]; [|reflexivity].
  destruct (scan _ msgs _ _) as [[[[]|e] ids] new]; [|reflexivity].
  destruct new; reflexivity.
Qed.


Lemma gmail_run_service polls st : service (snd (run polls st)) = service st.
Proof.
  revert st. induction polls as [|resp rest IH]; intros st; [reflexivity|].
  simpl. pose proof (gmail_poll_service resp st) as Hs.
  destruct (check_for_updates resp st) as [emails st1]. specialize (IH st1).
  destruct (run rest st1) as [reports st2]. simpl in *. congruence.
Qed.



End Order.



Section Loop.
Context `{SetOrder} (b64decode : string -> result string).
Context (mime_of : message -> mime) (clock : nat -> PyTime.datetime).





End Loop.

End GmailLoopFacts.

Module InboxLoopFacts.
Import Vault Files InboxActionFile InboxLoop FileSystemWatcher.
Import FileSystemFacts FilesFacts InboxActionFacts GmailLoopFacts.








Section Loop.
Context (dir_size : N) (clock : nat -> PyTime.datetime) (resume : bool).




End Loop.

End InboxLoopFacts.

(** ** Idempotent ingestion *)

Module IngestionClaims.
Import PySet Vault Files.
Import GmailFacts FileSystemFacts GmailLoopFacts InboxLoopFacts.


End IngestionClaims.

Module IngestionChecks.
Import PySet Vault Files Examples ActionExamples LoopExamples IngestionClaims.


(** The scenario of the specification: one event, met by two polls.  The
    first poll writes its action file, the second writes nothing, and
    Needs_Action ends with that one file; so it is for a document that lies
    in the inbox under two names. *)
Lemma one_event_two_polls :
  GmailLoop.written
    (@GmailLoop.run insertion_order decode_one no_text ticking
       [Ok [inbox_mail 1]; Ok [inbox_mail 1]]
       (GmailLoop.start (GmailWatcher.init None) empty_needs_action))
  = [("m0001", "GMAIL_hello_20261103_120000.md")]
  /\ (fun f : folder => (map_to_list f).*1)
       <$> (GmailLoop.files
              (@GmailLoop.run insertion_order decode_one no_text ticking
                 [Ok [inbox_mail 1]; Ok [inbox_mail 1]]
                 (GmailLoop.start (GmailWatcher.init None) empty_needs_action))
              !! needs_action)
     = Some ["GMAIL_hello_20261103_120000.md"]
  /\ (InboxLoop.written
        (InboxLoop.run 4096 ticking true [Ok inbox_twice; Ok inbox_twice]
           (InboxLoop.start FileSystemWatcher.init empty_needs_action))).*2
     = ["FILE_DROP_report_pdf_20261103_120000.md"]
  /\ (fun f : folder => (map_to_list f).*1)
       <$> (InboxLoop.files
              (InboxLoop.run 4096 ticking true [Ok inbox_twice; Ok inbox_twice]
                 (InboxLoop.start FileSystemWatcher.init empty_needs_action))
              !! needs_action)
     = Some ["FILE_DROP_report_pdf_20261103_120000.md"].
Proof. repeat split; vm_compute; reflexivity. Qed.


End IngestionChecks.
